(** * The incremental emit scheduler of the language server ([src/server/builder.ts])

    A shallow embedding of the builder: the per-file shape trackers
    ([BuilderFileInfo], [ModuleBuilderFileInfo]), the shared cache plumbing
    ([AbstractBuilder]), the flat scheduler ([NonModuleBuilder]) and the
    dependency-graph scheduler ([ModuleBuilder]).

    Objects live in an explicit store: a file info is a cell of [heap], and the
    arrays [references] / [referencedBy] hold the addresses of other cells, so
    that two arrays naming the same file info alias it as they do in the
    program.  Calls to the external collaborators that the spec speaks about
    (emit requests, reference queries, [writeFile]) are recorded in [events]. *)

From Stdlib Require Import String Ascii Bool Arith PeanoNat Lia List.
Import ListNotations.

Set Implicit Arguments.

(* ================================================================= *)
(** ** Values of the host language *)

(** JavaScript truthiness of an optional string: [undefined] and the empty
    string are falsy. *)
Definition truthy (s : option string) : bool :=
  match s with
  | Some EmptyString => false
  | Some _ => true
  | None => false
  end.

(** Strict equality [===] on values that are a string or [undefined]. *)
Definition strictEq (a b : option string) : bool :=
  match a, b with
  | Some x, Some y => String.eqb x y
  | None, None => true
  | _, _ => false
  end.

(** A [Map<T>] keyed by strings, in insertion order: [set] on a key that is
    present keeps its position, [set] on a new key appends. *)
Module JsMap.
Definition t (V : Type) := list (string * V).

Fixpoint get {V} (m : t V) (k : string) : option V :=
  match m with
  | [] => None
  | (k', v) :: rest => if String.eqb k k' then Some v else get rest k
  end.

Definition has {V} (m : t V) (k : string) : bool :=
  match get m k with Some _ => true | None => false end.

Fixpoint set {V} (m : t V) (k : string) (v : V) : t V :=
  match m with
  | [] => [(k, v)]
  | (k', v') :: rest =>
      if String.eqb k k' then (k', v) :: rest else (k', v') :: set rest k v
  end.

Fixpoint delete {V} (m : t V) (k : string) : t V :=
  match m with
  | [] => []
  | (k', v') :: rest =>
      if String.eqb k k' then rest else (k', v') :: delete rest k
  end.

Definition keys {V} (m : t V) : list string := map fst m.
End JsMap.

(* ================================================================= *)
(** ** The project and its collaborators (interfaces only) *)

Definition Path := string.

(** The readonly part of a [ScriptInfo]; its version is read through
    [getLatestVersion] below, since it moves with every edit. *)
Record ScriptInfo := mkScriptInfo {
  path : Path;
  fileName : string;
  hasMixedContent : bool;
  isDynamic : bool
}.

Inductive SyntaxKind :=
| StringLiteral
| Identifier
| VariableStatement
| ExpressionStatement
| FunctionDeclaration
| ClassDeclaration
| InterfaceDeclaration
| ModuleDeclaration
| ImportDeclaration
| ExportAssignment.

Definition SyntaxKind_eqb (a b : SyntaxKind) : bool :=
  match a, b with
  | StringLiteral, StringLiteral
  | Identifier, Identifier
  | VariableStatement, VariableStatement
  | ExpressionStatement, ExpressionStatement
  | FunctionDeclaration, FunctionDeclaration
  | ClassDeclaration, ClassDeclaration
  | InterfaceDeclaration, InterfaceDeclaration
  | ModuleDeclaration, ModuleDeclaration
  | ImportDeclaration, ImportDeclaration
  | ExportAssignment, ExportAssignment => true
  | _, _ => false
  end.

(** A top-level statement: its [kind] and, read only when the statement is a
    [ModuleDeclaration], the kind of its [name]. *)
Record Statement := mkStatement {
  kind : SyntaxKind;
  name_kind : SyntaxKind
}.

(** Modelled from the spec: [isExternalModule] is declared outside
    [builder.ts]; the field says whether "the file is a module by the
    language's own module rules". *)
Record SourceFile := mkSourceFile {
  isExternalModule : bool;
  statements : list Statement;
  isDeclarationFile : bool;
  text : string
}.

Module OutputFile.
Record t := mk {
  name : string;
  text : string;
  writeByteOrderMark : bool
}.
End OutputFile.

Record EmitOutput := mkEmitOutput {
  emitSkipped : bool;
  outputFiles : list OutputFile.t
}.

Module ModuleKind.
Inductive t := None | CommonJS | AMD | UMD | System | ES2015.
End ModuleKind.

Record CompilerOptions := mkCompilerOptions {
  isolatedModules : bool;
  out : option string;
  outFile : option string;
  module : option ModuleKind.t
}.

(** What the builder asks of its project, of the script infos and of the
    host, at the time of one call.  These are the parameters of the model:
    their code is not part of [builder.ts]. *)
Record Project := mkProject {
  getSourceFile : Path -> option SourceFile;
  getScriptInfo : Path -> ScriptInfo;
  getScriptInfos : list ScriptInfo;
  containsScriptInfo : ScriptInfo -> bool;
  getLatestVersion : ScriptInfo -> string;
  getFileEmitOutput : ScriptInfo -> bool -> EmitOutput;
  getReferencedFiles : Path -> list Path;
  getAllEmittableFiles : list string;
  getCompilerOptions : option CompilerOptions;
  getProjectVersion : string;
  getProjectRootPath : option string;
  createHash : string -> string;
  getNormalizedAbsolutePath : string -> string -> string;
  getDirectoryPath : string -> string
}.

(** Calls that leave the builder. *)
Inductive Event :=
| EmitOutputRequested (scriptInfo : ScriptInfo) (emitOnlyDtsFiles : bool)
| ReferencedFilesRequested (p : Path)
| FileWritten (absoluteFileName data : string) (writeByteOrderMark : bool).

(* ================================================================= *)
(** ** Sorted arrays *)

(** Modelled from the spec: [compareStrings] lives in the compiler core;
    arrays are kept "sorted by file name". *)
Definition compareStrings (a b : string) : comparison := String.compare a b.

(** Modelled from the spec: [insertSorted] keeps an "ordered set ... sorted by
    file name, no duplicates": the element goes to its place unless an equal
    one is there. *)
Fixpoint insertSorted {T} (compare : T -> T -> comparison)
    (array : list T) (insert : T) : list T :=
  match array with
  | [] => [insert]
  | x :: rest =>
      match compare insert x with
      | Lt => insert :: array
      | Eq => array
      | Gt => x :: insertSorted compare rest insert
      end
  end.

(** Modelled from the spec: [removeSorted] takes the element that compares
    equal out of the ordered set, if there is one. *)
Fixpoint removeSorted {T} (compare : T -> T -> comparison)
    (array : list T) (remove : T) : list T :=
  match array with
  | [] => []
  | x :: rest =>
      match compare remove x with
      | Lt => array
      | Eq => rest
      | Gt => x :: removeSorted compare rest remove
      end
  end.

(** Modelled from the spec: [toSortedArray] produces "a name-sorted,
    duplicate-free ordered set". *)
Definition toSortedArray {T} (arr : list T)
    (comparer : T -> T -> comparison) : list T :=
  fold_left (insertSorted comparer) arr [].

(* ================================================================= *)
(** ** The store of file infos and the builder state *)

(** The address of a file info object. *)
Definition NodeId := nat.

(** A [BuilderFileInfo]; the last three fields are those that
    [ModuleBuilderFileInfo] adds (the flat scheduler leaves them as
    constructed).  The [project] field is the [Project] passed to every
    operation. *)
Record FileInfo := mkFileInfo {
  scriptInfo : ScriptInfo;
  lastCheckedShapeSignature : option string;
  references : list NodeId;
  referencedBy : list NodeId;
  scriptVersionForReferences : option string
}.

(** [new this.ctor(scriptInfo, project)] *)
Definition newFileInfo (si : ScriptInfo) : FileInfo :=
  mkFileInfo si None [] [] None.

(** The fields of a builder ([projectVersionForDependencyGraph] is the one
    [ModuleBuilder] adds), the store its file infos live in, and the calls
    made so far. *)
Record Builder := mkBuilder {
  heap : list FileInfo;
  fileInfos_doNotAccessDirectly : option (JsMap.t NodeId);
  projectVersionForDependencyGraph : option string;
  events : list Event
}.

(** A builder as its constructor leaves it. *)
Definition newBuilder : Builder := mkBuilder [] None None [].

Definition unusedFileInfo : FileInfo :=
  newFileInfo (mkScriptInfo EmptyString EmptyString false false).

(** Reading and writing a cell.  An address that was never allocated reads
    as [unusedFileInfo] and cannot be written. *)
Definition getNode (h : list FileInfo) (id : NodeId) : FileInfo :=
  nth id h unusedFileInfo.

Fixpoint setNode (h : list FileInfo) (id : NodeId) (fi : FileInfo)
    : list FileInfo :=
  match h, id with
  | [], _ => []
  | _ :: rest, O => fi :: rest
  | x :: rest, S id' => x :: setNode rest id' fi
  end.

(** Computations of the builder: they read and write the builder state and
    may stop with a [TypeError] ([None]); the loop of the propagation walk
    also stops with [None] when its fuel runs out. *)
Definition M (A : Type) : Type := Builder -> option (A * Builder).

Definition ret {A} (a : A) : M A := fun b => Some (a, b).

Definition bind {A B} (m : M A) (f : A -> M B) : M B :=
  fun b => match m b with
           | Some (a, b') => f a b'
           | None => None
           end.

Definition throwTypeError {A} : M A := fun _ => None.

Definition outOfFuel {A} : M A := fun _ => None.

Declare Scope builder_scope.
Delimit Scope builder_scope with builder.
Notation "x <- m ;; k" := (bind m (fun x => k))
  (at level 61, m at next level, right associativity) : builder_scope.
Notation "m ;;; k" := (bind m (fun _ => k))
  (at level 61, right associativity) : builder_scope.
Open Scope builder_scope.

Definition gets {A} (f : Builder -> A) : M A := fun b => Some (f b, b).

Definition modify (f : Builder -> Builder) : M unit := fun b => Some (tt, f b).

Definition withHeap (h : list FileInfo) (b : Builder) : Builder :=
  mkBuilder h (fileInfos_doNotAccessDirectly b)
            (projectVersionForDependencyGraph b) (events b).

Definition withFileInfos (m : option (JsMap.t NodeId)) (b : Builder) : Builder :=
  mkBuilder (heap b) m (projectVersionForDependencyGraph b) (events b).

Definition withProjectVersion (v : option string) (b : Builder) : Builder :=
  mkBuilder (heap b) (fileInfos_doNotAccessDirectly b) v (events b).

Definition emitEvent (e : Event) : M unit :=
  modify (fun b =>
    mkBuilder (heap b) (fileInfos_doNotAccessDirectly b)
              (projectVersionForDependencyGraph b) (events b ++ [e])).

Definition readNode (id : NodeId) : M FileInfo :=
  gets (fun b => getNode (heap b) id).

Definition updateNode (id : NodeId) (f : FileInfo -> FileInfo) : M unit :=
  modify (fun b => withHeap (setNode (heap b) id (f (getNode (heap b) id))) b).

Definition allocNode (fi : FileInfo) : M NodeId :=
  fun b => Some (length (heap b), withHeap (heap b ++ [fi]) b).

(** [for (const x of xs) body(x)] *)
Fixpoint forOf {A} (xs : list A) (body : A -> M unit) : M unit :=
  match xs with
  | [] => ret tt
  | x :: rest => body x ;;; forOf rest body
  end.

(** [xs.map(f)] for an [f] with effects. *)
Fixpoint mapM {A B} (f : A -> M B) (xs : list A) : M (list B) :=
  match xs with
  | [] => ret []
  | x :: rest => y <- f x ;; ys <- mapM f rest ;; ret (y :: ys)
  end.

(** The collaborators whose calls are recorded. *)
Definition project_getFileEmitOutput (P : Project) (si : ScriptInfo)
    (emitOnlyDtsFiles : bool) : M EmitOutput :=
  emitEvent (EmitOutputRequested si emitOnlyDtsFiles) ;;;
  ret (getFileEmitOutput P si emitOnlyDtsFiles).

Definition project_getReferencedFiles (P : Project) (p : Path) : M (list Path) :=
  emitEvent (ReferencedFilesRequested p) ;;;
  ret (getReferencedFiles P p).

Definition writeFile (absoluteFileName data : string) (bom : bool) : M unit :=
  emitEvent (FileWritten absoluteFileName data bom).

(** Modelled from the spec: [enumerateInsertsAndDeletes] lives in the compiler
    core; it is the "sorted-merge diff: walk both sorted sequences in
    lock-step by comparator; an element present only in [newItems] is an
    insertion ..., an element present only in the old [references] is a
    deletion ....  Elements present in both are untouched". *)
Fixpoint enumerateInsertsAndDeletes {T} (newItems : list T)
    : list T -> (T -> M unit) -> (T -> M unit) -> (T -> T -> comparison) -> M unit :=
  fix scanOld (oldItems : list T) (inserted deleted : T -> M unit)
              (compare : T -> T -> comparison) {struct oldItems} : M unit :=
    match newItems, oldItems with
    | [], [] => ret tt
    | newItem :: newRest, [] =>
        inserted newItem ;;;
        enumerateInsertsAndDeletes newRest [] inserted deleted compare
    | [], oldItem :: oldRest =>
        deleted oldItem ;;; scanOld oldRest inserted deleted compare
    | newItem :: newRest, oldItem :: oldRest =>
        match compare newItem oldItem with
        | Lt => inserted newItem ;;;
                enumerateInsertsAndDeletes newRest oldItems inserted deleted compare
        | Gt => deleted oldItem ;;; scanOld oldRest inserted deleted compare
        | Eq => enumerateInsertsAndDeletes newRest oldRest inserted deleted compare
        end
    end.

(* ================================================================= *)
(** ** [shouldEmitFile] and [BuilderFileInfo] *)

Definition shouldEmitFile (scriptInfo : ScriptInfo) : bool :=
  negb (hasMixedContent scriptInfo) && negb (isDynamic scriptInfo).

Module BuilderFileInfo.

Definition containsOnlyAmbientModules (sourceFile : SourceFile) : bool :=
  (fix loop (stmts : list Statement) : bool :=
     match stmts with
     | [] => true
     | statement :: rest =>
         if negb (SyntaxKind_eqb (kind statement) ModuleDeclaration)
            || negb (SyntaxKind_eqb (name_kind statement) StringLiteral)
         then false
         else loop rest
     end) (statements sourceFile).

Definition computeHash (P : Project) (text : string) : string :=
  createHash P text.

Definition getSourceFile (P : Project) (this : NodeId) : M (option SourceFile) :=
  fi <- readNode this ;;
  ret (getSourceFile P (path (scriptInfo fi))).

(** [isExternalModule(undefined)] reads a property of [undefined]: a
    [TypeError]. *)
Definition isExternalModuleOrHasOnlyAmbientExternalModules (P : Project)
    (this : NodeId) : M bool :=
  sourceFile <- getSourceFile P this ;;
  match sourceFile with
  | None => throwTypeError
  | Some sf => ret (isExternalModule sf || containsOnlyAmbientModules sf)
  end.

Definition setLastCheckedShapeSignature (this : NodeId) (sig : string) : M unit :=
  updateNode this (fun fi =>
    mkFileInfo (scriptInfo fi) (Some sig) (references fi) (referencedBy fi)
               (scriptVersionForReferences fi)).

Definition updateShapeSignature (P : Project) (this : NodeId) : M bool :=
  sourceFile <- getSourceFile P this ;;
  match sourceFile with
  | None => ret true
  | Some sf =>
      fi <- readNode this ;;
      let lastSignature := lastCheckedShapeSignature fi in
      (if isDeclarationFile sf
       then setLastCheckedShapeSignature this (computeHash P (text sf))
       else
         emitOutput <- project_getFileEmitOutput P (scriptInfo fi) true ;;
         match outputFiles emitOutput with
         | first :: _ =>
             setLastCheckedShapeSignature this
               (computeHash P (OutputFile.text first))
         | [] => ret tt
         end) ;;;
      fi' <- readNode this ;;
      ret (negb (truthy lastSignature)
           || negb (strictEq (lastCheckedShapeSignature fi') lastSignature))
  end.

End BuilderFileInfo.

(* ================================================================= *)
(** ** [AbstractBuilder]: the cache shared by both schedulers *)

Module AbstractBuilder.

(** The map is created on demand: reading it when it is [undefined] stores
    an empty one. *)
Definition getFileInfos : M (JsMap.t NodeId) :=
  fun b => match fileInfos_doNotAccessDirectly b with
           | Some m => Some (m, b)
           | None => Some ([], withFileInfos (Some []) b)
           end.

Definition hasFileInfos : M bool :=
  gets (fun b => match fileInfos_doNotAccessDirectly b with
                 | Some _ => true
                 | None => false
                 end).

Definition clear : M unit := modify (withFileInfos None).

Definition getFileInfo (path : Path) : M (option NodeId) :=
  m <- getFileInfos ;; ret (JsMap.get m path).

Definition setFileInfo (path : Path) (info : NodeId) : M unit :=
  m <- getFileInfos ;; modify (withFileInfos (Some (JsMap.set m path info))).

Definition removeFileInfo (path : Path) : M unit :=
  m <- getFileInfos ;; modify (withFileInfos (Some (JsMap.delete m path))).

Definition getOrCreateFileInfo (P : Project) (path : Path) : M NodeId :=
  fileInfo <- getFileInfo path ;;
  match fileInfo with
  | Some fileInfo => ret fileInfo
  | None =>
      let scriptInfo := getScriptInfo P path in
      fileInfo <- allocNode (newFileInfo scriptInfo) ;;
      setFileInfo path fileInfo ;;;
      ret fileInfo
  end.

Definition getFileInfoPaths : M (list Path) :=
  m <- getFileInfos ;; ret (JsMap.keys m).

(** [Map.prototype.forEach] walks the live map: an entry deleted before its
    turn is not visited (the callbacks of this file only delete). *)
Definition forEachFileInfo (action : NodeId -> M unit) : M unit :=
  m <- getFileInfos ;;
  forOf m (fun entry =>
    current <- getFileInfos ;;
    match JsMap.get current (fst entry) with
    | Some fileInfo => action fileInfo
    | None => ret tt
    end).

(** [emitFile]; the abstract method [ensureFileInfoIfInProject] is the
    first argument. *)
Definition emitFile (ensureFileInfoIfInProject : Project -> ScriptInfo -> M unit)
    (P : Project) (scriptInfo_ : ScriptInfo) : M bool :=
  ensureFileInfoIfInProject P scriptInfo_ ;;;
  fileInfo <- getFileInfo (path scriptInfo_) ;;
  match fileInfo with
  | None => ret false
  | Some fileInfo =>
      fi <- readNode fileInfo ;;
      output <- project_getFileEmitOutput P (scriptInfo fi) false ;;
      (if negb (emitSkipped output)
       then
         let projectRootPath := getProjectRootPath P in
         forOf (outputFiles output) (fun outputFile =>
           let outputFileAbsoluteFileName :=
             getNormalizedAbsolutePath P (OutputFile.name outputFile)
               (match projectRootPath with
                | Some (String _ _ as root) => root
                | _ => getDirectoryPath P (fileName scriptInfo_)
                end) in
           writeFile outputFileAbsoluteFileName (OutputFile.text outputFile)
                     (OutputFile.writeByteOrderMark outputFile))
       else ret tt) ;;;
      ret (negb (emitSkipped output))
  end.

End AbstractBuilder.

(** [scriptInfo.hasMixedContent || scriptInfo.isDynamic ? [] : [scriptInfo.fileName]] *)
Definition singleFileResult (scriptInfo : ScriptInfo) : list string :=
  if hasMixedContent scriptInfo || isDynamic scriptInfo
  then []
  else [fileName scriptInfo].

(* ================================================================= *)
(** ** [NonModuleBuilder]: the flat scheduler *)

Module NonModuleBuilder.
Import AbstractBuilder.

Definition ensureFileInfoIfInProject (P : Project) (scriptInfo : ScriptInfo)
    : M unit :=
  if containsScriptInfo P scriptInfo
  then getOrCreateFileInfo P (path scriptInfo) ;;; ret tt
  else ret tt.

Definition onProjectUpdateGraph (P : Project) : M unit :=
  has <- hasFileInfos ;;
  if has
  then forEachFileInfo (fun fileInfo =>
         fi <- readNode fileInfo ;;
         if negb (containsScriptInfo P (scriptInfo fi))
         then removeFileInfo (path (scriptInfo fi))
         else ret tt)
  else ret tt.

Definition getFilesAffectedBy (P : Project) (scriptInfo : ScriptInfo)
    : M (list string) :=
  info <- getOrCreateFileInfo P (path scriptInfo) ;;
  let singleFileResult := singleFileResult scriptInfo in
  changed <- BuilderFileInfo.updateShapeSignature P info ;;
  if changed
  then
    match getCompilerOptions P with
    | Some options =>
        if truthy (out options) || truthy (outFile options)
        then ret singleFileResult
        else ret (getAllEmittableFiles P)
    | None => ret (getAllEmittableFiles P)
    end
  else ret singleFileResult.

Definition emitFile := AbstractBuilder.emitFile ensureFileInfoIfInProject.

Definition clear : M unit := AbstractBuilder.clear.

End NonModuleBuilder.

(* ================================================================= *)
(** ** [ModuleBuilderFileInfo]: a node of the dependency graph *)

Module ModuleBuilderFileInfo.

(** The comparer reads the readonly [scriptInfo] of the two objects. *)
Definition compareFileInfos (h : list FileInfo) (lf rf : NodeId) : comparison :=
  compareStrings (fileName (scriptInfo (getNode h lf)))
                 (fileName (scriptInfo (getNode h rf))).

Definition setReferencedBy (l : list NodeId) (fi : FileInfo) : FileInfo :=
  mkFileInfo (scriptInfo fi) (lastCheckedShapeSignature fi) (references fi) l
             (scriptVersionForReferences fi).

Definition setReferences (l : list NodeId) (fi : FileInfo) : FileInfo :=
  mkFileInfo (scriptInfo fi) (lastCheckedShapeSignature fi) l (referencedBy fi)
             (scriptVersionForReferences fi).

Definition addReferencedBy (this fileInfo : NodeId) : M unit :=
  h <- gets heap ;;
  updateNode this (fun fi =>
    setReferencedBy (insertSorted (compareFileInfos h) (referencedBy fi) fileInfo) fi).

Definition removeReferencedBy (this fileInfo : NodeId) : M unit :=
  h <- gets heap ;;
  updateNode this (fun fi =>
    setReferencedBy (removeSorted (compareFileInfos h) (referencedBy fi) fileInfo) fi).

Definition removeFileReferences (this : NodeId) : M unit :=
  fi <- readNode this ;;
  forOf (references fi) (fun reference => removeReferencedBy reference this) ;;;
  updateNode this (setReferences []).

End ModuleBuilderFileInfo.

(* ================================================================= *)
(** ** [ModuleBuilder]: the dependency-graph scheduler *)

Module ModuleBuilder.
Import AbstractBuilder ModuleBuilderFileInfo.

Definition clear : M unit :=
  modify (withProjectVersion None) ;;; AbstractBuilder.clear.

Definition getReferencedFileInfos (P : Project) (fileInfo : NodeId)
    : M (list NodeId) :=
  isModule <- BuilderFileInfo.isExternalModuleOrHasOnlyAmbientExternalModules P fileInfo ;;
  if negb isModule
  then ret []
  else
    fi <- readNode fileInfo ;;
    referencedFilePaths <- project_getReferencedFiles P (path (scriptInfo fi)) ;;
    infos <- mapM (getOrCreateFileInfo P) referencedFilePaths ;;
    h <- gets heap ;;
    ret (toSortedArray infos (compareFileInfos h)).

Definition updateFileReferences (P : Project) (fileInfo : NodeId) : M unit :=
  fi <- readNode fileInfo ;;
  if strictEq (scriptVersionForReferences fi)
              (Some (getLatestVersion P (scriptInfo fi)))
  then ret tt
  else
    newReferences <- getReferencedFileInfos P fileInfo ;;
    fi <- readNode fileInfo ;;
    let oldReferences := references fi in
    h <- gets heap ;;
    enumerateInsertsAndDeletes newReferences oldReferences
      (fun newReference => addReferencedBy newReference fileInfo)
      (fun oldReference => removeReferencedBy oldReference fileInfo)
      (compareFileInfos h) ;;;
    updateNode fileInfo (fun fi =>
      mkFileInfo (scriptInfo fi) (lastCheckedShapeSignature fi) newReferences
                 (referencedBy fi)
                 (Some (getLatestVersion P (scriptInfo fi)))).

Definition ensureProjectDependencyGraphUpToDate (P : Project) : M unit :=
  seen <- gets projectVersionForDependencyGraph ;;
  if negb (truthy seen) || negb (strictEq (Some (getProjectVersion P)) seen)
  then
    let currentScriptInfos := getScriptInfos P in
    forOf currentScriptInfos (fun scriptInfo =>
      fileInfo <- getOrCreateFileInfo P (path scriptInfo) ;;
      updateFileReferences P fileInfo) ;;;
    forEachFileInfo (fun fileInfo =>
      fi <- readNode fileInfo ;;
      if negb (containsScriptInfo P (scriptInfo fi))
      then removeFileReferences fileInfo ;;;
           removeFileInfo (path (scriptInfo fi))
      else ret tt) ;;;
    modify (withProjectVersion (Some (getProjectVersion P)))
  else ret tt.

Definition ensureFileInfoIfInProject (P : Project) (_scriptInfo : ScriptInfo)
    : M unit :=
  ensureProjectDependencyGraphUpToDate P.

Definition onProjectUpdateGraph (P : Project) : M unit :=
  has <- hasFileInfos ;;
  if has then ensureProjectDependencyGraphUpToDate P else ret tt.

(** The array [queue] is kept with its last element first: [queue.pop()]
    takes the head and [queue.push(x)] puts [x] in front. *)
Definition enqueueUnvisited (h : list FileInfo)
    (fileNameSet : JsMap.t ScriptInfo) (referencedBy_ queue : list NodeId)
    : list NodeId :=
  fold_left
    (fun queue potentialFileInfo =>
       if negb (JsMap.has fileNameSet
                  (fileName (scriptInfo (getNode h potentialFileInfo))))
       then potentialFileInfo :: queue
       else queue)
    referencedBy_ queue.

(** The body of [while (queue.length > 0)], run on a non-empty queue. *)
Definition walkStep (P : Project) (processingFileInfo : NodeId)
    (queue : list NodeId) (fileNameSet : JsMap.t ScriptInfo)
    : M (list NodeId * JsMap.t ScriptInfo) :=
  changed <- BuilderFileInfo.updateShapeSignature P processingFileInfo ;;
  fi <- readNode processingFileInfo ;;
  h <- gets heap ;;
  let queue' :=
    if changed && (0 <? List.length (referencedBy fi))
    then enqueueUnvisited h fileNameSet (referencedBy fi) queue
    else queue in
  ret (queue', JsMap.set fileNameSet (fileName (scriptInfo fi)) (scriptInfo fi)).

(** The loop; [fuel] bounds the number of iterations. *)
Definition walk (P : Project)
    : nat -> list NodeId -> JsMap.t ScriptInfo -> M (JsMap.t ScriptInfo) :=
  fix walk (fuel : nat) (queue : list NodeId)
      (fileNameSet : JsMap.t ScriptInfo) : M (JsMap.t ScriptInfo) :=
    match queue with
    | [] => ret fileNameSet
    | processingFileInfo :: rest =>
        match fuel with
        | O => outOfFuel
        | S fuel' =>
            next <- walkStep P processingFileInfo rest fileNameSet ;;
            walk fuel' (fst next) (snd next)
        end
    end.

(** [fileNameSet.forEach(...)] collecting the names that should be emitted. *)
Definition collectResult (fileNameSet : JsMap.t ScriptInfo) : list string :=
  map fst (filter (fun entry => shouldEmitFile (snd entry)) fileNameSet).

Definition shortCircuits (options : option CompilerOptions) : bool :=
  match options with
  | Some options =>
      isolatedModules options || truthy (out options) || truthy (outFile options)
  | None => false
  end.

Definition getFilesAffectedBy (fuel : nat) (P : Project)
    (scriptInfo_ : ScriptInfo) : M (list string) :=
  ensureProjectDependencyGraphUpToDate P ;;;
  let singleFileResult := singleFileResult scriptInfo_ in
  fileInfo <- getFileInfo (path scriptInfo_) ;;
  match fileInfo with
  | None => ret singleFileResult
  | Some fileInfo =>
      changed <- BuilderFileInfo.updateShapeSignature P fileInfo ;;
      if negb changed
      then ret singleFileResult
      else
        isModule <- BuilderFileInfo.isExternalModuleOrHasOnlyAmbientExternalModules P fileInfo ;;
        if negb isModule
        then ret (getAllEmittableFiles P)
        else
          let options := getCompilerOptions P in
          if shortCircuits options
          then ret singleFileResult
          else
            fi <- readNode fileInfo ;;
            let queue := rev (referencedBy fi) in
            let fileNameSet := JsMap.set [] (fileName scriptInfo_) scriptInfo_ in
            fileNameSet <- walk P fuel queue fileNameSet ;;
            ret (collectResult fileNameSet)
  end.

Definition emitFile := AbstractBuilder.emitFile ensureFileInfoIfInProject.

End ModuleBuilder.

(* ================================================================= *)
(** ** The [Builder] interface and [createBuilder] *)

Record BuilderOps := mkBuilderOps {
  getFilesAffectedBy : nat -> Project -> ScriptInfo -> M (list string);
  onProjectUpdateGraph : Project -> M unit;
  emitFile : Project -> ScriptInfo -> M bool;
  clear : M unit
}.

Definition nonModuleBuilder : BuilderOps :=
  mkBuilderOps (fun _ => NonModuleBuilder.getFilesAffectedBy)
               NonModuleBuilder.onProjectUpdateGraph
               NonModuleBuilder.emitFile
               NonModuleBuilder.clear.

Definition moduleBuilder : BuilderOps :=
  mkBuilderOps ModuleBuilder.getFilesAffectedBy
               ModuleBuilder.onProjectUpdateGraph
               ModuleBuilder.emitFile
               ModuleBuilder.clear.

(** [project.getCompilerOptions().module] reads a property of the options
    object, whatever it is. *)
Definition createBuilder (P : Project) : option BuilderOps :=
  match getCompilerOptions P with
  | None => None
  | Some options =>
      match module options with
      | Some ModuleKind.None => Some nonModuleBuilder
      | _ => Some moduleBuilder
      end
  end.

(* ================================================================= *)
(** ** Vocabulary of the statements *)

(** The cache read as a mapping: a map that was never created holds nothing. *)
Definition fileInfosOf (b : Builder) : JsMap.t NodeId :=
  match fileInfos_doNotAccessDirectly b with
  | Some m => m
  | None => []
  end.

(** The file info cached for a path, if any. *)
Definition trackerOf (b : Builder) (p : Path) : option NodeId :=
  JsMap.get (fileInfosOf b) p.

(** The builder once its map has been read (created empty when absent). *)
Definition materialized (b : Builder) : Builder :=
  withFileInfos (Some (fileInfosOf b)) b.

(** The structural representation of the file of a file info. *)
Definition sourceOf (P : Project) (fi : FileInfo) : option SourceFile :=
  getSourceFile P (path (scriptInfo fi)).

(** [updateShapeSignature] read off the cell it runs on: the signature the
    file info holds afterwards, the file info afterwards, the answer, and the
    calls made (lemma [updateShapeSignature_spec] ties them to the code). *)
Definition freshSignature (P : Project) (fi : FileInfo) : option string :=
  match sourceOf P fi with
  | None => lastCheckedShapeSignature fi
  | Some sf =>
      if isDeclarationFile sf
      then Some (createHash P (text sf))
      else match outputFiles (getFileEmitOutput P (scriptInfo fi) true) with
           | first :: _ => Some (createHash P (OutputFile.text first))
           | [] => lastCheckedShapeSignature fi
           end
  end.

Definition refreshed (P : Project) (fi : FileInfo) : FileInfo :=
  mkFileInfo (scriptInfo fi) (freshSignature P fi) (references fi)
             (referencedBy fi) (scriptVersionForReferences fi).

Definition shapeChanged (P : Project) (fi : FileInfo) : bool :=
  match sourceOf P fi with
  | None => true
  | Some _ =>
      negb (truthy (lastCheckedShapeSignature fi))
      || negb (strictEq (freshSignature P fi) (lastCheckedShapeSignature fi))
  end.

Definition signatureEvents (P : Project) (fi : FileInfo) : list Event :=
  match sourceOf P fi with
  | None => []
  | Some sf =>
      if isDeclarationFile sf then []
      else [EmitOutputRequested (scriptInfo fi) true]
  end.

Definition withEvents (evs : list Event) (b : Builder) : Builder :=
  mkBuilder (heap b) (fileInfos_doNotAccessDirectly b)
            (projectVersionForDependencyGraph b) evs.

(** A string-named ambient module declaration. *)
Definition isAmbientModuleDeclaration (s : Statement) : bool :=
  SyntaxKind_eqb (kind s) ModuleDeclaration
  && SyntaxKind_eqb (name_kind s) StringLiteral.

(** The same project, reporting another set of emittable files. *)
Definition withAllEmittableFiles (files : list string) (P : Project) : Project :=
  mkProject (getSourceFile P) (getScriptInfo P) (getScriptInfos P)
    (containsScriptInfo P) (getLatestVersion P) (getFileEmitOutput P)
    (getReferencedFiles P) files (getCompilerOptions P) (getProjectVersion P)
    (getProjectRootPath P) (createHash P) (getNormalizedAbsolutePath P)
    (getDirectoryPath P).

(** The name under which a file info enters the result. *)
Definition nameOf (h : list FileInfo) (id : NodeId) : string :=
  fileName (scriptInfo (getNode h id)).

(** [affected P h a n]: [n] is reached from [a] along [referencedBy] edges of
    the store [h], every node before [n] on the way being one whose shape
    signature changes. *)
Inductive affected (P : Project) (h : list FileInfo) (a : NodeId)
    : NodeId -> Prop :=
| affected_start : affected P h a a
| affected_step : forall n m,
    affected P h a n ->
    shapeChanged P (getNode h n) = true ->
    In m (referencedBy (getNode h n)) ->
    affected P h a m.

(** Every address held by the graph is allocated. *)
Definition closedStore (h : list FileInfo) : Prop :=
  forall n m, n < List.length h -> In m (referencedBy (getNode h n)) ->
              m < List.length h.

(** Distinct file infos carry distinct file names. *)
Definition distinctNames (h : list FileInfo) : Prop :=
  forall n m, n < List.length h -> m < List.length h ->
              nameOf h n = nameOf h m -> n = m.

(** An event that is neither an emit request nor a write. *)
Definition isReferenceQuery (e : Event) : Prop :=
  match e with
  | ReferencedFilesRequested _ => True
  | _ => False
  end.

(** The store after [updateShapeSignature] ran on [t]. *)
Definition stepHeap (P : Project) (h : list FileInfo) (t : NodeId) : list FileInfo :=
  setNode h t (refreshed P (getNode h t)).

(** The builder after [updateShapeSignature] ran on [t]. *)
Definition afterUpdate (P : Project) (t : NodeId) (b : Builder) : Builder :=
  withEvents (events b ++ signatureEvents P (getNode (heap b) t))
             (withHeap (stepHeap P (heap b) t) b).

(** [visited h s n]: the name of [n] is in the set of the walk. *)
Definition visited (h : list FileInfo) (s : JsMap.t ScriptInfo) (n : NodeId) : bool :=
  JsMap.has s (nameOf h n).

(** What one iteration of the walk puts on the queue when it processes [t]. *)
Definition pushed (P : Project) (h : list FileInfo) (s : JsMap.t ScriptInfo)
    (t : NodeId) : list NodeId :=
  if shapeChanged P (getNode h t)
  then rev (filter (fun m => negb (visited h s m)) (referencedBy (getNode h t)))
  else [].

(** The number of reverse edges out of the allocated nodes not yet visited. *)
Definition pendingEdges (h : list FileInfo) (s : JsMap.t ScriptInfo) : nat :=
  list_sum (map (fun n => if visited h s n then 0
                          else List.length (referencedBy (getNode h n)))
                (seq 0 (List.length h))).

(** The addresses [0 .. length h]: the allocated ones, and one more that
    stands for every unallocated address (they all read [unusedFileInfo]). *)
Definition unvisitedCount (h : list FileInfo) (s : JsMap.t ScriptInfo) : nat :=
  List.length (filter (fun n => negb (visited h s n))
                      (seq 0 (S (List.length h)))).

(** The queue entries whose node is already visited. *)
Definition visitedEntries (h : list FileInfo) (s : JsMap.t ScriptInfo)
    (q : list NodeId) : nat :=
  List.length (filter (visited h s) q).

(** [walk] returns on [(q, s, b)] whenever it is given [fuel0] or more. *)
Definition returnsWithin (P : Project) (fuel0 : nat) (q : list NodeId)
    (s : JsMap.t ScriptInfo) (b : Builder) : Prop :=
  forall fuel, fuel0 <= fuel ->
    exists s' b', ModuleBuilder.walk P fuel q s b = Some (s', b').

(** The nodes affected from [a] carry distinct file names. *)
Definition distinctAffected (P : Project) (h : list FileInfo) (a : NodeId) : Prop :=
  forall n m, affected P h a n -> affected P h a m ->
              nameOf h n = nameOf h m -> n = m.

(** The invariant of the propagation walk started at [a] in the store [h0]:
    [q], [s] and [h] are the queue, the name set and the store of some
    iteration. *)
Record walkInv (P : Project) (h0 : list FileInfo) (a : NodeId)
    (q : list NodeId) (s : JsMap.t ScriptInfo) (h : list FileInfo) : Prop :=
  mkWalkInv {
    inv_graph : forall x,
      scriptInfo (getNode h x) = scriptInfo (getNode h0 x)
      /\ referencedBy (getNode h x) = referencedBy (getNode h0 x);
    inv_cells : forall x,
      getNode h x = getNode h0 x \/ getNode h x = refreshed P (getNode h0 x);
    inv_untouched : forall x,
      x <> a -> visited h0 s x = false -> getNode h x = getNode h0 x;
    inv_queue : forall x, In x q -> affected P h0 a x;
    inv_set : forall k v, In (k, v) s ->
      exists x, affected P h0 a x
                /\ k = nameOf h0 x /\ v = scriptInfo (getNode h0 x);
    inv_closed : forall x m,
      affected P h0 a x -> visited h0 s x = true ->
      shapeChanged P (getNode h0 x) = true ->
      In m (referencedBy (getNode h0 x)) ->
      visited h0 s m = true \/ In m q;
    inv_start : visited h0 s a = true
  }.

(** Executable forms of [closedStore] and [distinctNames]. *)
Definition closedStoreb (h : list FileInfo) : bool :=
  forallb (fun n => forallb (fun m => m <? List.length h)
                            (referencedBy (getNode h n)))
          (seq 0 (List.length h)).

Definition distinctNamesb (h : list FileInfo) : bool :=
  forallb (fun n =>
             forallb (fun m => negb (String.eqb (nameOf h n) (nameOf h m))
                               || Nat.eqb n m)
                     (seq 0 (List.length h)))
          (seq 0 (List.length h)).

(** The tracker of the file, if there is one, holds a non-empty signature and
    the file has a representation. *)
Definition settledTracker (P : Project) (b : Builder) (si : ScriptInfo) : Prop :=
  forall id, trackerOf b (path si) = Some id ->
    sourceOf P (getNode (heap b) id) <> None
    /\ truthy (lastCheckedShapeSignature (getNode (heap b) id)) = true.

(** Every file info of the store gets a non-empty signature from
    [updateShapeSignature]. *)
Definition everySignatureSettles (P : Project) (h : list FileInfo) : Prop :=
  forall x, x < List.length h ->
    shapeChanged P (refreshed P (getNode h x)) = false.

(** The visited file infos of the store hold their fresh signature. *)
Definition visitedSettled (P : Project) (h : list FileInfo)
    (s : JsMap.t ScriptInfo) : Prop :=
  forall x, x < List.length h -> visited h s x = true ->
    shapeChanged P (getNode h x) = false.

(** [quiet m]: whatever [m] does, the calls it adds to the record are
    reference queries: no emit output is requested and nothing is written. *)
Definition quiet {A} (m : M A) : Prop :=
  forall b a b', m b = Some (a, b') ->
    exists evs, events b' = events b ++ evs /\ Forall isReferenceQuery evs.


(** [entersBefore m t q]: reading the queue [q] from the end that is popped,
    no entry [t] comes before the first entry [m]. *)
Fixpoint entersBefore (m t : NodeId) (q : list NodeId) : bool :=
  match q with
  | [] => true
  | x :: rest =>
      if Nat.eqb x m then true
      else if Nat.eqb x t then false
      else entersBefore m t rest
  end.

(** [covered h s q t]: every reverse dependency of [t] is visited or will be
    popped before any entry [t] of the queue is. *)
Definition covered (h : list FileInfo) (s : JsMap.t ScriptInfo)
    (q : list NodeId) (t : NodeId) : bool :=
  forallb (fun m => visited h s m || entersBefore m t q)
          (referencedBy (getNode h t)).

(** What a node can still put on the queue: its reverse edges twice while it
    is not visited, once while it is visited but not covered, nothing after. *)
Definition walkWeight (h : list FileInfo) (s : JsMap.t ScriptInfo)
    (q : list NodeId) (n : NodeId) : nat :=
  if visited h s n
  then if covered h s q n then 0
       else List.length (referencedBy (getNode h n))
  else 2 * List.length (referencedBy (getNode h n)).

(** The potential of the walk over the nodes listed in [dom]. *)
Definition walkPotentialOn (dom : list NodeId) (h : list FileInfo)
    (s : JsMap.t ScriptInfo) (q : list NodeId) : nat :=
  List.length q + list_sum (map (walkWeight h s q) dom).

(** The number of reverse edges out of the nodes listed in [dom], and of the
    whole store. *)
Definition edgesOf (h : list FileInfo) (dom : list NodeId) : nat :=
  list_sum (map (fun n => List.length (referencedBy (getNode h n))) dom).

Definition reverseEdges (h : list FileInfo) : nat :=
  edgesOf h (seq 0 (List.length h)).

(** [reaches h q n]: [n] is on the queue [q] or is reached from it along
    [referencedBy] edges: the subgraph the walk can get to. *)
Inductive reaches (h : list FileInfo) (q : list NodeId) : NodeId -> Prop :=
| reaches_queue : forall n, In n q -> reaches h q n
| reaches_edge : forall n m,
    reaches h q n -> In m (referencedBy (getNode h n)) -> reaches h q m.

(** The file has a tracker that is not settled: its file has no
    representation, or no non-empty signature is stored. *)
Definition unsettledTracker (P : Project) (b : Builder) (si : ScriptInfo)
    (id : NodeId) : Prop :=
  trackerOf b (path si) = Some id
  /\ (sourceOf P (getNode (heap b) id) = None
      \/ truthy (lastCheckedShapeSignature (getNode (heap b) id)) = false).
(* ================================================================= *)
(** ** Concrete projects *)

Module Scenario.
Local Open Scope string_scope.

(** One file of a test project. *)
Record File := mkFile {
  f_name : string;
  f_source : option SourceFile;
  f_imports : list Path;
  f_version : string;
  f_declarations : list OutputFile.t
}.

Definition lookup (files : list File) (p : string) : option File :=
  find (fun f => String.eqb (f_name f) p) files.

Definition script (p : string) : ScriptInfo := mkScriptInfo p p false false.

(** A project whose universe of script infos is [files], of which those
    named in [members] belong to the project; the hash is the identity. *)
Definition project (files : list File) (members : list string)
    (options : option CompilerOptions) (version : string) : Project :=
  mkProject
    (fun p => match lookup files p with Some f => f_source f | None => None end)
    script
    (map script members)
    (fun si => existsb (String.eqb (path si)) members)
    (fun si => match lookup files (path si) with
               | Some f => f_version f
               | None => "0"
               end)
    (fun si dtsOnly =>
       match lookup files (path si) with
       | Some f =>
           if dtsOnly
           then mkEmitOutput false (f_declarations f)
           else mkEmitOutput false [OutputFile.mk (f_name f ++ ".js") "js" false]
       | None => mkEmitOutput true []
       end)
    (fun p => match lookup files p with Some f => f_imports f | None => [] end)
    members
    options
    version
    None
    (fun s => s)
    (fun n _ => n)
    (fun s => s).

Definition moduleFile (name : string) (imports : list Path)
    (version declarations : string) : File :=
  mkFile name (Some (mkSourceFile true [] false declarations)) imports version
         [OutputFile.mk (name ++ ".d.ts") declarations false].

Definition noOptions : option CompilerOptions :=
  Some (mkCompilerOptions false None None (Some ModuleKind.CommonJS)).

(** [a.ts] imports [b.ts]; [b.ts] imports [c.ts]. *)
Definition chain (cDecl : string) : list File :=
  [ moduleFile "a.ts" ["b.ts"] "1" "declare a";
    moduleFile "b.ts" ["c.ts"] "1" "declare b";
    moduleFile "c.ts" [] "1" cDecl ].

Definition chainProject (cDecl version : string) : Project :=
  project (chain cDecl) ["a.ts"; "b.ts"; "c.ts"] noOptions version.

(** The project after [b.ts] left it: the import of [a.ts] no longer
    resolves; the text of [a.ts], hence its version, is the same. *)
Definition chainWithoutB : Project :=
  project
    [ moduleFile "a.ts" [] "1" "declare a";
      moduleFile "c.ts" [] "1" "declare c" ]
    ["a.ts"; "c.ts"] noOptions "2".

(** A script (not a module) with the given top-level statements. *)
Definition scriptFile (name : string) (stmts : list Statement)
    (version declarations : string) : File :=
  mkFile name (Some (mkSourceFile false stmts false declarations)) [] version
         [OutputFile.mk (name ++ ".d.ts") declarations false].

Definition variableStatement : Statement :=
  mkStatement VariableStatement Identifier.

Definition ambientModule : Statement :=
  mkStatement ModuleDeclaration StringLiteral.

(** [script.ts] is a plain script, [ambient.ts] holds one ambient module
    declaration, [empty.ts] holds no statement, [other.ts] is a module. *)
Definition mixedFiles : list File :=
  [ scriptFile "script.ts" [variableStatement] "1" "declare s";
    scriptFile "ambient.ts" [ambientModule] "1" "declare module";
    scriptFile "empty.ts" [] "1" EmptyString;
    moduleFile "other.ts" [] "1" "declare o" ].

Definition mixedNames : list string :=
  ["script.ts"; "ambient.ts"; "empty.ts"; "other.ts"].

Definition mixedProject : Project :=
  project mixedFiles mixedNames noOptions "1".

(** The same files, bundled into one output. *)
Definition bundledProject : Project :=
  project mixedFiles mixedNames
    (Some (mkCompilerOptions false None (Some "bundle.js") None))
    "1".

(** The same files, compiled in isolation, without a module format. *)
Definition isolatedProject : Project :=
  project mixedFiles mixedNames
    (Some (mkCompilerOptions true None None (Some ModuleKind.None)))
    "1".

(** [silent.ts] is a module whose declarations-only emit produces no
    output. *)
Definition silentProject : Project :=
  project
    [ mkFile "silent.ts" (Some (mkSourceFile true [] false "x")) [] "1" [];
      moduleFile "a.ts" [] "1" "declare a" ]
    ["silent.ts"; "a.ts"] noOptions "1".

(** [b.ts] imports [a.ts] and [c.ts]; [c.ts] imports [a.ts]. *)
Definition diamondProject : Project :=
  project
    [ moduleFile "a.ts" [] "1" "declare a";
      moduleFile "b.ts" ["a.ts"; "c.ts"] "1" "declare b";
      moduleFile "c.ts" ["a.ts"] "1" "declare c" ]
    ["a.ts"; "b.ts"; "c.ts"] noOptions "1".

(** The chain project once [b.ts] is back, nothing else having changed. *)
Definition chainWithBAgain : Project := chainProject "declare c" "3".

(** The chain project once [b.ts] is back, [a.ts] having been saved again
    too (a new version of the same text). *)
Definition chainWithBAgainTouched : Project :=
  project
    [ moduleFile "a.ts" ["b.ts"] "2" "declare a";
      moduleFile "b.ts" ["c.ts"] "1" "declare b";
      moduleFile "c.ts" [] "1" "declare c" ]
    ["a.ts"; "b.ts"; "c.ts"] noOptions "3".

(** The chain project after an edit of [b.ts] that changes its
    declarations; [aVersion] is the version [a.ts] has. *)
Definition chainWithBEdited (aVersion : string) : Project :=
  project
    [ moduleFile "a.ts" ["b.ts"] aVersion "declare a";
      moduleFile "b.ts" ["c.ts"] "2" "declare b2";
      moduleFile "c.ts" [] "1" "declare c" ]
    ["a.ts"; "b.ts"; "c.ts"] noOptions "4".

(** The chain again, with a [c.ts] whose declarations-only emit produces no
    output. *)
Definition silentChainProject : Project :=
  project
    [ moduleFile "a.ts" ["b.ts"] "1" "declare a";
      moduleFile "b.ts" ["c.ts"] "1" "declare b";
      mkFile "c.ts" (Some (mkSourceFile true [] false "x")) [] "1" [] ]
    ["a.ts"; "b.ts"; "c.ts"] noOptions "1".

(** The chain after [a.ts] was rewritten into a plain script: it is no
    module any more, and its version moved. *)
Definition chainWithPlainA : Project :=
  project
    [ scriptFile "a.ts" [variableStatement] "2" "declare a";
      moduleFile "b.ts" ["c.ts"] "1" "declare b";
      moduleFile "c.ts" [] "1" "declare c" ]
    ["a.ts"; "b.ts"; "c.ts"] noOptions "2".

End Scenario.

(** The state a computation leaves behind (the start state if it throws). *)
Definition stateAfter {A} (m : M A) (b : Builder) : Builder :=
  match m b with
  | Some (_, b') => b'
  | None => b
  end.

(** The graph of the chain project, built on a new builder. *)
Definition chainBuilt : Builder :=
  stateAfter
    (ModuleBuilder.ensureProjectDependencyGraphUpToDate
       (Scenario.chainProject "declare c" "1"))
    newBuilder.

(** The graph of the diamond project, built on a new builder. *)
Definition diamondBuilt : Builder :=
  stateAfter
    (ModuleBuilder.ensureProjectDependencyGraphUpToDate Scenario.diamondProject)
    newBuilder.

(** The graph of the mixed project, built on a new builder. *)
Definition mixedBuilt : Builder :=
  stateAfter
    (ModuleBuilder.ensureProjectDependencyGraphUpToDate Scenario.mixedProject)
    newBuilder.

(** A flat scheduler that tracks [silent.ts]. *)
Definition silentTracked : Builder :=
  stateAfter (AbstractBuilder.getOrCreateFileInfo Scenario.silentProject "silent.ts"%string)
             newBuilder.

(** The chain graph after [b.ts] left the project and the graph was
    refreshed. *)
Definition chainAfterDelete : Builder :=
  stateAfter (ModuleBuilder.onProjectUpdateGraph Scenario.chainWithoutB) chainBuilt.

(** ... and after [b.ts] came back and the graph was refreshed again. *)
Definition chainAfterReturn : Builder :=
  stateAfter (ModuleBuilder.onProjectUpdateGraph Scenario.chainWithBAgain)
             chainAfterDelete.

(** ... or after [b.ts] came back together with a new version of [a.ts]. *)
Definition chainAfterReturnTouched : Builder :=
  stateAfter (ModuleBuilder.onProjectUpdateGraph Scenario.chainWithBAgainTouched)
             chainAfterDelete.

(* ================================================================= *)
(** ** Vocabulary of the further properties *)

(** [keepsTrackers b b']: every cell of [b] is still a cell of [b'], with
    the script info and the stored signature it had. *)
Definition keepsTrackers (b b' : Builder) : Prop :=
  List.length (heap b) <= List.length (heap b')
  /\ forall x, x < List.length (heap b) ->
       scriptInfo (getNode (heap b') x) = scriptInfo (getNode (heap b) x)
       /\ lastCheckedShapeSignature (getNode (heap b') x)
          = lastCheckedShapeSignature (getNode (heap b) x).

(** [respects R m]: whenever [m] returns, the states before and after are
    related by [R]. *)
Definition respects {A} (R : Builder -> Builder -> Prop) (m : M A) : Prop :=
  forall b a b', m b = Some (a, b') -> R b b'.

(** The cache is keyed by the path of the script info each entry holds, no
    key occurs twice, and every entry is an allocated cell. *)
Definition keyedByPath (b : Builder) : Prop :=
  NoDup (JsMap.keys (fileInfosOf b))
  /\ forall k id, In (k, id) (fileInfosOf b) ->
       id < List.length (heap b)
       /\ path (scriptInfo (getNode (heap b) id)) = k.

(** [grows b b']: every tracker of [b] is still the tracker of its path in
    [b'], and the cache stays keyed by path if it was. *)
Definition grows (b b' : Builder) : Prop :=
  (forall k id, trackerOf b k = Some id -> trackerOf b' k = Some id)
  /\ (keyedByPath b -> keyedByPath b').

(** A function on file infos that leaves the script info and the stored
    signature alone. *)
Definition keepsIdentity (f : FileInfo -> FileInfo) : Prop :=
  forall fi, scriptInfo (f fi) = scriptInfo fi
             /\ lastCheckedShapeSignature (f fi) = lastCheckedShapeSignature fi.

(** The directory an output file name is resolved against by [emitFile]. *)
Definition outputBase (P : Project) (si : ScriptInfo) : string :=
  match getProjectRootPath P with
  | Some (String _ _ as root) => root
  | _ => getDirectoryPath P (fileName si)
  end.

(** The write [emitFile] makes for one output file. *)
Definition writeOf (P : Project) (si : ScriptInfo) (o : OutputFile.t) : Event :=
  FileWritten (getNormalizedAbsolutePath P (OutputFile.name o) (outputBase P si))
              (OutputFile.text o) (OutputFile.writeByteOrderMark o).

(** Whether the file of a cache entry belongs to the project. *)
Definition entryInProject (P : Project) (h : list FileInfo)
    (entry : string * NodeId) : bool :=
  containsScriptInfo P (scriptInfo (getNode h (snd entry))).

(** [out] or [outFile] is set. *)
Definition bundles (P : Project) : bool :=
  match getCompilerOptions P with
  | Some options => truthy (out options) || truthy (outFile options)
  | None => false
  end.

(** The refresh of the dependency graph does run: no stamp was recorded, or
    the project has another one now. *)
Definition refreshDue (P : Project) (b : Builder) : bool :=
  negb (truthy (projectVersionForDependencyGraph b))
  || negb (strictEq (Some (getProjectVersion P))
                    (projectVersionForDependencyGraph b)).

(** A call that neither writes a file nor asks for the full output of one: a
    reference query or a declarations-only emit request. *)
Definition isProbe (e : Event) : Prop :=
  match e with
  | ReferencedFilesRequested _ => True
  | EmitOutputRequested _ emitOnlyDtsFiles => emitOnlyDtsFiles = true
  | FileWritten _ _ _ => False
  end.

(** [probesOnly b b']: the calls recorded from [b] to [b'] are probes. *)
Definition probesOnly (b b' : Builder) : Prop :=
  exists evs, events b' = events b ++ evs /\ Forall isProbe evs.

(** A file info as [ModuleBuilderFileInfo] constructs it: no edges, no
    reference version. *)
Definition edgeless (fi : FileInfo) : Prop :=
  references fi = [] /\ referencedBy fi = []
  /\ scriptVersionForReferences fi = None.

(** [keepsEdges b b']: the version stamp and the graph part of every cell
    of [b] are the same in [b'], and the cells added are edgeless. *)
Definition keepsEdges (b b' : Builder) : Prop :=
  projectVersionForDependencyGraph b' = projectVersionForDependencyGraph b
  /\ List.length (heap b) <= List.length (heap b')
  /\ forall x,
       (x < List.length (heap b) ->
        references (getNode (heap b') x) = references (getNode (heap b) x)
        /\ referencedBy (getNode (heap b') x) = referencedBy (getNode (heap b) x)
        /\ scriptVersionForReferences (getNode (heap b') x)
           = scriptVersionForReferences (getNode (heap b) x))
       /\ (List.length (heap b) <= x -> edgeless (getNode (heap b') x)).

(** Every address held by the graph or by the cache is allocated. *)
Definition allocatedGraph (b : Builder) : Prop :=
  (forall n m,
     In m (references (getNode (heap b) n))
     \/ In m (referencedBy (getNode (heap b) n)) ->
     m < List.length (heap b))
  /\ (forall k id, In (k, id) (fileInfosOf b) -> id < List.length (heap b)).

(** [stays b b']: if the graph of [b] is allocated, so is that of [b'],
    and no cell was dropped; [staysFor id] is the same for a step that needs
    [id] to be a cell. *)
Definition stays (b b' : Builder) : Prop :=
  allocatedGraph b ->
  allocatedGraph b' /\ List.length (heap b) <= List.length (heap b').

Definition staysFor (id : NodeId) (b b' : Builder) : Prop :=
  allocatedGraph b -> id < List.length (heap b) ->
  allocatedGraph b' /\ List.length (heap b) <= List.length (heap b').

(** An array of file infos kept as the code keeps its sorted arrays: in
    strictly increasing order of file name. *)
Fixpoint sortedByName (h : list FileInfo) (l : list NodeId) : Prop :=
  match l with
  | [] => True
  | x :: rest =>
      (forall y, In y rest -> ModuleBuilderFileInfo.compareFileInfos h x y = Lt)
      /\ sortedByName h rest
  end.

Unset Implicit Arguments.

(** Closed statements about concrete projects are settled by evaluation. *)
Ltac evaluate :=
  repeat match goal with |- _ /\ _ => split end; vm_compute; reflexivity.

(* ================================================================= *)
(** ** The store *)

Lemma setNode_length h id fi : List.length (setNode h id fi) = List.length h.
Proof.
  revert id; induction h as [|x h IH]; intros [|id]; simpl; auto.
Qed.

Lemma getNode_setNode_same h id fi :
  id < List.length h -> getNode (setNode h id fi) id = fi.
Proof.
  unfold getNode; revert id; induction h as [|x h IH]; intros [|id] Hlt;
    simpl in *; try lia; auto.
  apply IH; lia.
Qed.

Lemma getNode_setNode_other h id id' fi :
  id <> id' -> getNode (setNode h id fi) id' = getNode h id'.
Proof.
  unfold getNode; revert id id'; induction h as [|x h IH];
    intros [|id] [|id'] Hne; simpl; auto; try congruence.
Qed.

Lemma setNode_out_of_range h id fi :
  List.length h <= id -> setNode h id fi = h.
Proof.
  revert id; induction h as [|x h IH]; intros [|id] Hle; simpl in *;
    auto; try lia.
  f_equal; apply IH; lia.
Qed.

Lemma setNode_getNode h id : setNode h id (getNode h id) = h.
Proof.
  unfold getNode; revert id; induction h as [|x h IH]; intros [|id];
    simpl; auto.
  f_equal; apply IH.
Qed.

Lemma setNode_setNode h id fi fi' :
  setNode (setNode h id fi) id fi' = setNode h id fi'.
Proof.
  revert id; induction h as [|x h IH]; intros [|id]; simpl; auto.
  f_equal; apply IH.
Qed.

Lemma getNode_out_of_range h id :
  List.length h <= id -> getNode h id = unusedFileInfo.
Proof. intros; unfold getNode; apply nth_overflow; assumption. Qed.

Lemma truthy_in_range h id :
  truthy (lastCheckedShapeSignature (getNode h id)) = true ->
  id < List.length h.
Proof.
  intros Ht. destruct (Nat.lt_ge_cases id (List.length h)) as [|Hge]; auto.
  rewrite (getNode_out_of_range _ _ Hge) in Ht. discriminate.
Qed.

(* ================================================================= *)
(** ** Strings and truthiness *)

Lemma strictEq_refl a : strictEq a a = true.
Proof. destruct a; simpl; auto using String.eqb_refl. Qed.

Lemma strictEq_eq a b : strictEq a b = true <-> a = b.
Proof.
  destruct a, b; simpl; split; intros H; try congruence; auto.
  - apply String.eqb_eq in H; congruence.
  - inversion H; apply String.eqb_refl.
Qed.

(* ================================================================= *)
(** ** [updateShapeSignature], read off the cell it runs on *)


Lemma sourceOf_refreshed P fi : sourceOf P (refreshed P fi) = sourceOf P fi.
Proof. reflexivity. Qed.

Lemma freshSignature_refreshed P fi :
  freshSignature P (refreshed P fi) = freshSignature P fi.
Proof.
  unfold freshSignature at 1. rewrite sourceOf_refreshed.
  cbn [refreshed scriptInfo lastCheckedShapeSignature].
  unfold freshSignature.
  destruct (sourceOf P fi) as [sf|]; auto.
  destruct (isDeclarationFile sf); auto.
  destruct (outputFiles _); auto.
Qed.

(** Once the signature is fresh, only a missing representation or a falsy
    signature makes [updateShapeSignature] answer true. *)
Lemma shapeChanged_refreshed P fi :
  shapeChanged P (refreshed P fi) =
  match sourceOf P fi with
  | None => true
  | Some _ => negb (truthy (freshSignature P fi))
  end.
Proof.
  unfold shapeChanged. rewrite sourceOf_refreshed, freshSignature_refreshed.
  cbn [refreshed lastCheckedShapeSignature].
  destruct (sourceOf P fi); auto.
  rewrite strictEq_refl. simpl. apply orb_false_r.
Qed.

Lemma refreshed_idem P fi : refreshed P (refreshed P fi) = refreshed P fi.
Proof.
  unfold refreshed at 1. rewrite freshSignature_refreshed. reflexivity.
Qed.

Lemma mkFileInfo_eta fi :
  mkFileInfo (scriptInfo fi) (lastCheckedShapeSignature fi) (references fi)
             (referencedBy fi) (scriptVersionForReferences fi) = fi.
Proof. destruct fi; reflexivity. Qed.

Lemma updateShapeSignature_spec P id b :
  BuilderFileInfo.updateShapeSignature P id b =
  Some (shapeChanged P (getNode (heap b) id),
        withEvents (events b ++ signatureEvents P (getNode (heap b) id))
          (withHeap (setNode (heap b) id (refreshed P (getNode (heap b) id))) b)).
Proof.
  destruct b as [h m v e].
  unfold BuilderFileInfo.updateShapeSignature, BuilderFileInfo.getSourceFile,
    shapeChanged, signatureEvents, refreshed, freshSignature, sourceOf,
    BuilderFileInfo.setLastCheckedShapeSignature, project_getFileEmitOutput,
    BuilderFileInfo.computeHash, emitEvent, updateNode, readNode, modify, gets,
    bind, ret, withEvents, withHeap.
  cbn -[getNode setNode].
  set (fi := getNode h id).
  destruct (getSourceFile P (path (scriptInfo fi))) as [sf|] eqn:Hsf.
  - destruct (isDeclarationFile sf) eqn:Hd.
    + cbn -[getNode setNode]; fold fi.
      rewrite app_nil_r.
      destruct (Nat.lt_ge_cases id (List.length h)) as [Hlt|Hge].
      * rewrite getNode_setNode_same by assumption. reflexivity.
      * rewrite !setNode_out_of_range by assumption. fold fi.
        assert (Hu : fi = unusedFileInfo) by (apply getNode_out_of_range; auto).
        rewrite Hu. reflexivity.
    + cbn -[getNode setNode]; fold fi.
      destruct (outputFiles (getFileEmitOutput P (scriptInfo fi) true))
        as [|first rest] eqn:Ho.
      * cbn -[getNode setNode]; fold fi.
        fold fi. rewrite strictEq_refl, mkFileInfo_eta.
        unfold fi at 3. rewrite setNode_getNode. reflexivity.
      * cbn -[getNode setNode]; fold fi.
        destruct (Nat.lt_ge_cases id (List.length h)) as [Hlt|Hge].
        -- rewrite getNode_setNode_same by assumption. reflexivity.
        -- rewrite !setNode_out_of_range by assumption. fold fi.
           assert (Hu : fi = unusedFileInfo) by (apply getNode_out_of_range; auto).
           rewrite Hu. reflexivity.
  - cbn -[getNode setNode]; fold fi. rewrite app_nil_r, mkFileInfo_eta.
    unfold fi. rewrite setNode_getNode. reflexivity.
Qed.

(* ================================================================= *)
(** ** Reading the cache *)

Lemma getFileInfos_spec b :
  AbstractBuilder.getFileInfos b = Some (fileInfosOf b, materialized b).
Proof.
  unfold AbstractBuilder.getFileInfos, fileInfosOf, materialized, withFileInfos.
  destruct b as [h [m|] v e]; reflexivity.
Qed.

Lemma getFileInfo_spec p b :
  AbstractBuilder.getFileInfo p b = Some (trackerOf b p, materialized b).
Proof.
  unfold AbstractBuilder.getFileInfo, bind, ret.
  rewrite getFileInfos_spec. reflexivity.
Qed.

Lemma materialized_created b m :
  fileInfos_doNotAccessDirectly b = Some m -> materialized b = b.
Proof.
  intros H. unfold materialized, fileInfosOf, withFileInfos.
  destruct b as [h fis v e]; simpl in *. subst. reflexivity.
Qed.

Lemma tracker_created b p id :
  trackerOf b p = Some id -> materialized b = b.
Proof.
  unfold trackerOf, fileInfosOf.
  destruct (fileInfos_doNotAccessDirectly b) as [m|] eqn:Hm.
  - intros _. eapply materialized_created; eauto.
  - simpl. discriminate.
Qed.

Lemma materialized_tracker b p : trackerOf (materialized b) p = trackerOf b p.
Proof. reflexivity. Qed.

(* ================================================================= *)
(** ** Module-or-ambient-only *)

Lemma containsOnlyAmbientModules_forallb sf :
  BuilderFileInfo.containsOnlyAmbientModules sf
  = forallb isAmbientModuleDeclaration (statements sf).
Proof.
  unfold BuilderFileInfo.containsOnlyAmbientModules, isAmbientModuleDeclaration.
  induction (statements sf) as [|s l IH]; simpl; auto.
  rewrite <- IH.
  destruct (SyntaxKind_eqb (kind s) ModuleDeclaration),
           (SyntaxKind_eqb (name_kind s) StringLiteral); reflexivity.
Qed.

Lemma isExternalModuleOrHasOnlyAmbientExternalModules_spec P id b :
  BuilderFileInfo.isExternalModuleOrHasOnlyAmbientExternalModules P id b =
  match sourceOf P (getNode (heap b) id) with
  | Some sf =>
      Some (isExternalModule sf || BuilderFileInfo.containsOnlyAmbientModules sf, b)
  | None => None
  end.
Proof.
  unfold BuilderFileInfo.isExternalModuleOrHasOnlyAmbientExternalModules,
    BuilderFileInfo.getSourceFile, sourceOf, readNode, gets, bind, ret,
    throwTypeError.
  destruct (getSourceFile P (path (scriptInfo (getNode (heap b) id)))); reflexivity.
Qed.

(* ================================================================= *)
(** ** Version-stamp gating *)

(** C7: when the last-seen project version stamp is set and equals the
    project's current stamp, the graph refresh
    ([ensureProjectDependencyGraphUpToDate], and [onProjectUpdateGraph] that
    calls it) returns with the builder exactly as it was: the store, the
    cache, the stamp and the recorded calls are the same, so no node is
    created or removed, no edge changes and no reference query is made.
    Likewise [updateFileReferences] leaves the builder as it was when the
    node's [scriptVersionForReferences] equals the file's latest version. *)
Theorem version_stamp_gating P b :
  truthy (projectVersionForDependencyGraph b) = true ->
  projectVersionForDependencyGraph b = Some (getProjectVersion P) ->
  ModuleBuilder.ensureProjectDependencyGraphUpToDate P b = Some (tt, b)
  /\ ModuleBuilder.onProjectUpdateGraph P b = Some (tt, b)
  /\ forall b' fileInfo,
       scriptVersionForReferences (getNode (heap b') fileInfo)
       = Some (getLatestVersion P (scriptInfo (getNode (heap b') fileInfo))) ->
       ModuleBuilder.updateFileReferences P fileInfo b' = Some (tt, b').
Proof.
  intros Htruthy Hseen.
  assert (Hensure :
    ModuleBuilder.ensureProjectDependencyGraphUpToDate P b = Some (tt, b)).
  { unfold ModuleBuilder.ensureProjectDependencyGraphUpToDate, bind, gets.
    rewrite Htruthy, Hseen, strictEq_refl. reflexivity. }
  split; [exact Hensure|]. split.
  - unfold ModuleBuilder.onProjectUpdateGraph, AbstractBuilder.hasFileInfos,
      bind, gets.
    destruct (fileInfos_doNotAccessDirectly b); [exact Hensure | reflexivity].
  - intros b' fileInfo Hver.
    unfold ModuleBuilder.updateFileReferences, bind, readNode, gets.
    rewrite Hver, strictEq_refl. reflexivity.
Qed.

Lemma version_stamp_gating_witness :
  ModuleBuilder.ensureProjectDependencyGraphUpToDate
    (Scenario.chainProject "declare c" "1") chainBuilt = Some (tt, chainBuilt)
  /\ ModuleBuilder.onProjectUpdateGraph
       (Scenario.chainProject "declare c" "1") chainBuilt = Some (tt, chainBuilt)
  /\ ModuleBuilder.updateFileReferences
       (Scenario.chainProject "declare c" "1") 0 chainBuilt = Some (tt, chainBuilt).
Proof.
  destruct (@version_stamp_gating (Scenario.chainProject "declare c" "1") chainBuilt)
    as (H1 & H2 & H3); [vm_compute; reflexivity | vm_compute; reflexivity |].
  split; [exact H1|]. split; [exact H2|].
  apply H3. vm_compute; reflexivity.
Defined.

(* ================================================================= *)
(** ** Repeating [updateShapeSignature] *)

(** C3, as the code has it: after a call of [updateShapeSignature], an
    immediately repeated call (same project state) returns false exactly when
    the file's representation exists and the first call left a non-empty
    signature stored; the repeated call stores nothing new.  When the
    representation is missing, or nothing was produced and nothing was stored
    before, every call returns true. *)
Theorem updateShapeSignature_repeated P id b r1 b1 :
  BuilderFileInfo.updateShapeSignature P id b = Some (r1, b1) ->
  exists r2 b2,
    BuilderFileInfo.updateShapeSignature P id b1 = Some (r2, b2)
    /\ heap b2 = heap b1
    /\ (r2 = false <->
        sourceOf P (getNode (heap b) id) <> None
        /\ truthy (lastCheckedShapeSignature (getNode (heap b1) id)) = true).
Proof.
  rewrite updateShapeSignature_spec. intros H; inversion H; subst r1 b1; clear H.
  rewrite updateShapeSignature_spec.
  eexists; eexists; split; [reflexivity|].
  cbn [heap withEvents withHeap].
  set (h := heap b). set (fi := getNode h id).
  destruct (Nat.lt_ge_cases id (List.length h)) as [Hlt|Hge].
  - rewrite getNode_setNode_same by assumption.
    rewrite refreshed_idem. split.
    + apply setNode_setNode.
    + rewrite shapeChanged_refreshed.
      cbn [refreshed lastCheckedShapeSignature].
      destruct (sourceOf P fi) as [sf|] eqn:Hsf.
      * destruct (truthy (freshSignature P fi)); simpl; split.
        -- intros _. split; [discriminate | reflexivity].
        -- reflexivity.
        -- discriminate.
        -- intros [_ H]; discriminate.
      * split; [discriminate | intros [H _]; congruence].
  - repeat rewrite (@setNode_out_of_range h) by exact Hge.
    split; [reflexivity|].
    fold fi.
    assert (Hu : fi = unusedFileInfo) by (apply getNode_out_of_range; auto).
    rewrite Hu. unfold shapeChanged. simpl.
    destruct (sourceOf P unusedFileInfo); simpl;
      split; try discriminate; intros [_ H]; discriminate.
Qed.

(* ================================================================= *)
(** ** Computations that only query references *)

Lemma quiet_ret {A} (a : A) : quiet (ret a).
Proof.
  intros b x b' H; inversion H; subst. exists []. rewrite app_nil_r. auto.
Qed.

Lemma quiet_bind {A B} (m : M A) (f : A -> M B) :
  quiet m -> (forall a, quiet (f a)) -> quiet (bind m f).
Proof.
  intros Hm Hf b x b' H. unfold bind in H.
  destruct (m b) as [[a b1]|] eqn:E; [|discriminate].
  destruct (Hm _ _ _ E) as (e1 & H1 & F1).
  destruct (Hf a _ _ _ H) as (e2 & H2 & F2).
  exists (e1 ++ e2). rewrite H2, H1, app_assoc. split; auto.
  apply Forall_app; auto.
Qed.

Lemma quiet_gets {A} (f : Builder -> A) : quiet (gets f).
Proof.
  intros b x b' H; inversion H; subst. exists []. rewrite app_nil_r. auto.
Qed.

Lemma quiet_modify (f : Builder -> Builder) :
  (forall b, events (f b) = events b) -> quiet (modify f).
Proof.
  intros Hf b x b' H; inversion H; subst. exists []. rewrite app_nil_r, Hf. auto.
Qed.

Lemma quiet_forOf {A} (xs : list A) (body : A -> M unit) :
  (forall x, quiet (body x)) -> quiet (forOf xs body).
Proof.
  intros Hb. induction xs as [|x xs IH]; simpl.
  - apply quiet_ret.
  - apply quiet_bind; auto.
Qed.

Lemma quiet_mapM {A B} (f : A -> M B) (xs : list A) :
  (forall x, quiet (f x)) -> quiet (mapM f xs).
Proof.
  intros Hf. induction xs as [|x xs IH]; simpl.
  - apply quiet_ret.
  - apply quiet_bind; auto. intros y.
    apply quiet_bind; auto. intros ys. apply quiet_ret.
Qed.

Lemma quiet_enumerateInsertsAndDeletes {T} (newItems oldItems : list T)
    inserted deleted compare :
  (forall x, quiet (inserted x)) -> (forall x, quiet (deleted x)) ->
  quiet (enumerateInsertsAndDeletes newItems oldItems inserted deleted compare).
Proof.
  intros Hi Hd. revert oldItems.
  induction newItems as [|n ns IHn]; intros oldItems.
  - induction oldItems as [|o os IHo]; simpl.
    + apply quiet_ret.
    + apply quiet_bind; auto.
  - induction oldItems as [|o os IHo].
    + simpl. apply quiet_bind; auto.
    + simpl. destruct (compare n o).
      * apply IHn.
      * apply quiet_bind; auto.
      * apply quiet_bind; auto.
Qed.

Lemma quiet_updateNode id f : quiet (updateNode id f).
Proof. apply quiet_modify. reflexivity. Qed.

Lemma quiet_readNode id : quiet (readNode id).
Proof. apply quiet_gets. Qed.

Lemma quiet_getFileInfos : quiet AbstractBuilder.getFileInfos.
Proof.
  intros b a b' H. rewrite getFileInfos_spec in H. inversion H; subst.
  exists []. rewrite app_nil_r. auto.
Qed.

Lemma quiet_getFileInfo p : quiet (AbstractBuilder.getFileInfo p).
Proof.
  apply quiet_bind; [apply quiet_getFileInfos | intros; apply quiet_ret].
Qed.

Lemma quiet_setFileInfo p id : quiet (AbstractBuilder.setFileInfo p id).
Proof.
  apply quiet_bind; [apply quiet_getFileInfos | intros; apply quiet_modify; reflexivity].
Qed.

Lemma quiet_removeFileInfo p : quiet (AbstractBuilder.removeFileInfo p).
Proof.
  apply quiet_bind; [apply quiet_getFileInfos | intros; apply quiet_modify; reflexivity].
Qed.

Lemma quiet_allocNode fi : quiet (allocNode fi).
Proof.
  intros b a b' H. inversion H; subst. exists []. rewrite app_nil_r. auto.
Qed.

Lemma quiet_getOrCreateFileInfo P p : quiet (AbstractBuilder.getOrCreateFileInfo P p).
Proof.
  apply quiet_bind; [apply quiet_getFileInfo|].
  intros [id|]; [apply quiet_ret|].
  apply quiet_bind; [apply quiet_allocNode|]. intros id.
  apply quiet_bind; [apply quiet_setFileInfo | intros; apply quiet_ret].
Qed.

Lemma quiet_forEachFileInfo action :
  (forall id, quiet (action id)) -> quiet (AbstractBuilder.forEachFileInfo action).
Proof.
  intros Ha. apply quiet_bind; [apply quiet_getFileInfos|]. intros m.
  apply quiet_forOf. intros entry.
  apply quiet_bind; [apply quiet_getFileInfos|]. intros cur.
  destruct (JsMap.get cur (fst entry)); [apply Ha | apply quiet_ret].
Qed.

Lemma quiet_project_getReferencedFiles P p : quiet (project_getReferencedFiles P p).
Proof.
  intros b a b' H. inversion H; subst. simpl.
  exists [ReferencedFilesRequested p]. split; auto.
  constructor; simpl; auto.
Qed.

Lemma quiet_isExternalModuleOrHasOnlyAmbientExternalModules P id :
  quiet (BuilderFileInfo.isExternalModuleOrHasOnlyAmbientExternalModules P id).
Proof.
  intros b a b' H.
  rewrite isExternalModuleOrHasOnlyAmbientExternalModules_spec in H.
  destruct (sourceOf P (getNode (heap b) id)); inversion H; subst.
  exists []. rewrite app_nil_r. auto.
Qed.

Lemma quiet_addReferencedBy this fileInfo :
  quiet (ModuleBuilderFileInfo.addReferencedBy this fileInfo).
Proof.
  apply quiet_bind; [apply quiet_gets | intros; apply quiet_updateNode].
Qed.

Lemma quiet_removeReferencedBy this fileInfo :
  quiet (ModuleBuilderFileInfo.removeReferencedBy this fileInfo).
Proof.
  apply quiet_bind; [apply quiet_gets | intros; apply quiet_updateNode].
Qed.

Lemma quiet_removeFileReferences this :
  quiet (ModuleBuilderFileInfo.removeFileReferences this).
Proof.
  apply quiet_bind; [apply quiet_readNode|]. intros fi.
  apply quiet_bind; [|intros; apply quiet_updateNode].
  apply quiet_forOf. intros; apply quiet_removeReferencedBy.
Qed.

Lemma quiet_getReferencedFileInfos P id :
  quiet (ModuleBuilder.getReferencedFileInfos P id).
Proof.
  apply quiet_bind;
    [apply quiet_isExternalModuleOrHasOnlyAmbientExternalModules|].
  intros isModule. destruct (negb isModule); [apply quiet_ret|].
  apply quiet_bind; [apply quiet_readNode|]. intros fi.
  apply quiet_bind; [apply quiet_project_getReferencedFiles|]. intros ps.
  apply quiet_bind; [apply quiet_mapM; intros; apply quiet_getOrCreateFileInfo|].
  intros infos.
  apply quiet_bind; [apply quiet_gets | intros; apply quiet_ret].
Qed.

Lemma quiet_updateFileReferences P id :
  quiet (ModuleBuilder.updateFileReferences P id).
Proof.
  apply quiet_bind; [apply quiet_readNode|]. intros fi.
  destruct (strictEq _ _); [apply quiet_ret|].
  apply quiet_bind; [apply quiet_getReferencedFileInfos|]. intros newRefs.
  apply quiet_bind; [apply quiet_readNode|]. intros fi'.
  apply quiet_bind; [apply quiet_gets|]. intros h.
  apply quiet_bind; [|intros; apply quiet_updateNode].
  apply quiet_enumerateInsertsAndDeletes; intros.
  - apply quiet_addReferencedBy.
  - apply quiet_removeReferencedBy.
Qed.

Lemma quiet_ensureProjectDependencyGraphUpToDate P :
  quiet (ModuleBuilder.ensureProjectDependencyGraphUpToDate P).
Proof.
  apply quiet_bind; [apply quiet_gets|]. intros seen.
  destruct (_ || _); [|apply quiet_ret].
  apply quiet_bind.
  { apply quiet_forOf. intros si.
    apply quiet_bind; [apply quiet_getOrCreateFileInfo|].
    intros; apply quiet_updateFileReferences. }
  intros _. apply quiet_bind.
  { apply quiet_forEachFileInfo. intros id.
    apply quiet_bind; [apply quiet_readNode|]. intros fi.
    destruct (negb _); [|apply quiet_ret].
    apply quiet_bind; [apply quiet_removeFileReferences|].
    intros; apply quiet_removeFileInfo. }
  intros _. apply quiet_modify. reflexivity.
Qed.

(* ================================================================= *)
(** ** Maps *)

Lemma JsMap_get_set_same {V} (m : JsMap.t V) k v :
  JsMap.get (JsMap.set m k v) k = Some v.
Proof.
  induction m as [|[k' v'] m IH]; simpl.
  - rewrite String.eqb_refl; reflexivity.
  - destruct (String.eqb k k') eqn:E; simpl; rewrite E; auto.
Qed.

Lemma JsMap_get_set_other {V} (m : JsMap.t V) k k' v :
  k <> k' -> JsMap.get (JsMap.set m k v) k' = JsMap.get m k'.
Proof.
  intros Hne. induction m as [|[k0 v0] m IH]; simpl.
  - destruct (String.eqb k' k) eqn:E; auto.
    apply String.eqb_eq in E; congruence.
  - destruct (String.eqb k k0) eqn:E; simpl.
    + apply String.eqb_eq in E; subst k0.
      destruct (String.eqb k' k) eqn:E'; auto.
      apply String.eqb_eq in E'; congruence.
    + rewrite IH; reflexivity.
Qed.

Lemma JsMap_has_set {V} (m : JsMap.t V) k k' v :
  JsMap.has (JsMap.set m k v) k' = String.eqb k k' || JsMap.has m k'.
Proof.
  unfold JsMap.has. destruct (String.eqb k k') eqn:E.
  - apply String.eqb_eq in E; subst. rewrite JsMap_get_set_same; reflexivity.
  - apply String.eqb_neq in E. rewrite JsMap_get_set_other by assumption.
    reflexivity.
Qed.

Lemma getOrCreateFileInfo_tracker P p b id b' :
  AbstractBuilder.getOrCreateFileInfo P p b = Some (id, b') ->
  trackerOf b' p = Some id.
Proof.
  unfold AbstractBuilder.getOrCreateFileInfo, bind.
  rewrite getFileInfo_spec.
  destruct (trackerOf b p) as [id0|] eqn:Ht.
  - intros H; inversion H; subst. rewrite materialized_tracker; assumption.
  - unfold allocNode, AbstractBuilder.setFileInfo, bind, ret, modify.
    rewrite getFileInfos_spec.
    intros H; inversion H; subst.
    unfold trackerOf, fileInfosOf; simpl. apply JsMap_get_set_same.
Qed.

(* ================================================================= *)
(** ** [emitFile] on a file without a tracker *)




(* ================================================================= *)
(** ** One iteration of the propagation walk *)

Lemma stepHeap_length P h t : List.length (stepHeap P h t) = List.length h.
Proof. apply setNode_length. Qed.

Lemma stepHeap_getNode P h t x :
  getNode (stepHeap P h t) x
  = if Nat.eqb x t && (t <? List.length h) then refreshed P (getNode h t)
    else getNode h x.
Proof.
  unfold stepHeap. destruct (Nat.eqb x t) eqn:E; simpl.
  - apply Nat.eqb_eq in E; subst x.
    destruct (t <? List.length h) eqn:L.
    + apply Nat.ltb_lt in L. apply getNode_setNode_same; assumption.
    + apply Nat.ltb_ge in L. rewrite setNode_out_of_range by assumption. reflexivity.
  - apply Nat.eqb_neq in E. apply getNode_setNode_other; auto.
Qed.

Lemma stepHeap_scriptInfo P h t x :
  scriptInfo (getNode (stepHeap P h t) x) = scriptInfo (getNode h x).
Proof.
  rewrite stepHeap_getNode. destruct (Nat.eqb x t) eqn:E; simpl; auto.
  apply Nat.eqb_eq in E; subst. destruct (t <? List.length h); reflexivity.
Qed.

Lemma stepHeap_referencedBy P h t x :
  referencedBy (getNode (stepHeap P h t) x) = referencedBy (getNode h x).
Proof.
  rewrite stepHeap_getNode. destruct (Nat.eqb x t) eqn:E; simpl; auto.
  apply Nat.eqb_eq in E; subst. destruct (t <? List.length h); reflexivity.
Qed.

Lemma stepHeap_nameOf P h t x : nameOf (stepHeap P h t) x = nameOf h x.
Proof. unfold nameOf. rewrite stepHeap_scriptInfo. reflexivity. Qed.

Lemma stepHeap_visited P h t s x : visited (stepHeap P h t) s x = visited h s x.
Proof. unfold visited. rewrite stepHeap_nameOf. reflexivity. Qed.

Lemma enqueueUnvisited_spec h s l q :
  ModuleBuilder.enqueueUnvisited h s l q
  = rev (filter (fun m => negb (visited h s m)) l) ++ q.
Proof.
  unfold ModuleBuilder.enqueueUnvisited. revert q.
  induction l as [|m l IH]; intros q; simpl; auto.
  rewrite IH. unfold visited, nameOf.
  destruct (negb (JsMap.has s (fileName (scriptInfo (getNode h m))))); simpl; auto.
  rewrite <- app_assoc. reflexivity.
Qed.

Lemma walkStep_spec P t q s b :
  ModuleBuilder.walkStep P t q s b =
  Some ((pushed P (heap b) s t ++ q,
         JsMap.set s (nameOf (heap b) t) (scriptInfo (getNode (heap b) t))),
        afterUpdate P t b).
Proof.
  unfold ModuleBuilder.walkStep, bind.
  rewrite updateShapeSignature_spec.
  unfold readNode, gets, ret.
  fold (stepHeap P (heap b) t). fold (afterUpdate P t b).
  change (heap (afterUpdate P t b)) with (stepHeap P (heap b) t).
  rewrite stepHeap_scriptInfo, stepHeap_referencedBy, enqueueUnvisited_spec.
  rewrite (filter_ext (fun m => negb (visited (stepHeap P (heap b) t) s m))
                      (fun m => negb (visited (heap b) s m)))
    by (intros; rewrite stepHeap_visited; reflexivity).
  unfold pushed, nameOf.
  destruct (shapeChanged P (getNode (heap b) t)); simpl.
  - destruct (referencedBy (getNode (heap b) t)) eqn:E; simpl; reflexivity.
  - reflexivity.
Qed.

Lemma walk_unfold P fuel t rest s b :
  ModuleBuilder.walk P (S fuel) (t :: rest) s b
  = ModuleBuilder.walk P fuel (pushed P (heap b) s t ++ rest)
      (JsMap.set s (nameOf (heap b) t) (scriptInfo (getNode (heap b) t)))
      (afterUpdate P t b).
Proof.
  simpl. unfold bind. rewrite walkStep_spec. reflexivity.
Qed.

Lemma returnsWithin_nil P s b : returnsWithin P 0 [] s b.
Proof. intros fuel _. destruct fuel; simpl; eexists; eexists; reflexivity. Qed.

Lemma returnsWithin_step P fuel0 t rest s b :
  returnsWithin P fuel0 (pushed P (heap b) s t ++ rest)
    (JsMap.set s (nameOf (heap b) t) (scriptInfo (getNode (heap b) t)))
    (afterUpdate P t b) ->
  returnsWithin P (S fuel0) (t :: rest) s b.
Proof.
  intros H fuel Hle. destruct fuel as [|fuel]; [lia|].
  rewrite walk_unfold. apply H. lia.
Qed.

(* ================================================================= *)
(** ** Counting *)

Lemma filter_length_mono {A} (f g : A -> bool) l :
  (forall x, In x l -> g x = true -> f x = true) ->
  List.length (filter g l) <= List.length (filter f l).
Proof.
  induction l as [|x l IH]; intros H; simpl; auto.
  assert (IH' := IH (fun y Hy => H y (or_intror Hy))).
  destruct (g x) eqn:G.
  - rewrite (H x (or_introl eq_refl) G). simpl. lia.
  - destruct (f x); simpl; lia.
Qed.

Lemma filter_length_strict {A} (f g : A -> bool) l x0 :
  (forall x, In x l -> g x = true -> f x = true) ->
  In x0 l -> f x0 = true -> g x0 = false ->
  List.length (filter g l) < List.length (filter f l).
Proof.
  induction l as [|x l IH]; intros H Hin Hf Hg; simpl; [destruct Hin|].
  assert (Hle := filter_length_mono f g l (fun y Hy => H y (or_intror Hy))).
  destruct Hin as [->|Hin].
  - rewrite Hf, Hg. simpl. lia.
  - assert (IH' := IH (fun y Hy => H y (or_intror Hy)) Hin Hf Hg).
    destruct (g x) eqn:G.
    + rewrite (H x (or_introl eq_refl) G). simpl. lia.
    + destruct (f x); simpl; lia.
Qed.

Lemma visited_set h s k v n :
  visited h (JsMap.set s k v) n = String.eqb k (nameOf h n) || visited h s n.
Proof. unfold visited. apply JsMap_has_set. Qed.

Lemma visited_set_mono h s k v n :
  visited h s n = true -> visited h (JsMap.set s k v) n = true.
Proof. intros H. rewrite visited_set, H. apply orb_true_r. Qed.

Lemma visited_set_self h s t v :
  visited h (JsMap.set s (nameOf h t) v) t = true.
Proof. rewrite visited_set, String.eqb_refl. reflexivity. Qed.

(** Marking a node that is visited already changes nothing. *)
Lemma visited_set_again h s t v n :
  visited h s t = true ->
  visited h (JsMap.set s (nameOf h t) v) n = visited h s n.
Proof.
  intros Ht. rewrite visited_set.
  destruct (String.eqb (nameOf h t) (nameOf h n)) eqn:E; simpl; auto.
  apply String.eqb_eq in E. unfold visited in *. rewrite <- E, Ht. reflexivity.
Qed.

Lemma nameOf_out_of_range h n m :
  List.length h <= n -> List.length h <= m -> nameOf h n = nameOf h m.
Proof.
  intros Hn Hm. unfold nameOf.
  rewrite (getNode_out_of_range _ _ Hn), (getNode_out_of_range _ _ Hm). reflexivity.
Qed.

Lemma unvisitedCount_step P h s t v :
  unvisitedCount (stepHeap P h t) (JsMap.set s (nameOf h t) v)
  <= unvisitedCount h s.
Proof.
  unfold unvisitedCount. rewrite stepHeap_length.
  apply filter_length_mono. intros x _.
  rewrite stepHeap_visited. intros H.
  destruct (visited h s x) eqn:E; auto.
  rewrite (visited_set_mono _ _ _ _ _ E) in H. discriminate.
Qed.

Lemma unvisitedCount_step_lt P h s t v :
  visited h s t = false ->
  unvisitedCount (stepHeap P h t) (JsMap.set s (nameOf h t) v)
  < unvisitedCount h s.
Proof.
  intros Ht. unfold unvisitedCount. rewrite stepHeap_length.
  apply filter_length_strict with (x0 := Nat.min t (List.length h)).
  - intros x _. rewrite stepHeap_visited. intros H.
    destruct (visited h s x) eqn:E; auto.
    rewrite (visited_set_mono _ _ _ _ _ E) in H. discriminate.
  - apply in_seq. lia.
  - destruct (Nat.le_gt_cases t (List.length h)) as [Hle|Hgt].
    + rewrite Nat.min_l by assumption. rewrite Ht. reflexivity.
    + rewrite Nat.min_r by lia. unfold visited in *.
      rewrite (nameOf_out_of_range h (List.length h) t) by lia.
      rewrite Ht. reflexivity.
  - rewrite stepHeap_visited.
    replace (visited h (JsMap.set s (nameOf h t) v) (Nat.min t (List.length h)))
      with true; [reflexivity|].
    symmetry. destruct (Nat.le_gt_cases t (List.length h)) as [Hle|Hgt].
    + rewrite Nat.min_l by assumption. apply visited_set_self.
    + rewrite Nat.min_r by lia.
      rewrite (nameOf_out_of_range h t (List.length h)) by lia.
      apply visited_set_self.
Qed.

Lemma pushed_unvisited P h s t m :
  In m (pushed P h s t) ->
  visited h s m = false /\ In m (referencedBy (getNode h t))
  /\ shapeChanged P (getNode h t) = true.
Proof.
  unfold pushed. destruct (shapeChanged P (getNode h t)); [|intros []].
  rewrite <- in_rev, filter_In. intros [Hin Hv].
  repeat split; auto. destruct (visited h s m); auto; discriminate.
Qed.

Lemma visitedEntries_app h s q1 q2 :
  visitedEntries h s (q1 ++ q2) = visitedEntries h s q1 + visitedEntries h s q2.
Proof. unfold visitedEntries. rewrite filter_app, length_app. reflexivity. Qed.

Lemma visitedEntries_none h s q :
  (forall m, In m q -> visited h s m = false) -> visitedEntries h s q = 0.
Proof.
  unfold visitedEntries. induction q as [|m q IH]; intros H; simpl; auto.
  rewrite (H m (or_introl eq_refl)). apply IH. intros; apply H; right; auto.
Qed.

Lemma visitedEntries_ext h s h' s' q :
  (forall m, visited h' s' m = visited h s m) ->
  visitedEntries h' s' q = visitedEntries h s q.
Proof.
  intros H. unfold visitedEntries. f_equal. apply filter_ext. exact H.
Qed.

(* ================================================================= *)
(** ** The walk returns on every graph *)

Lemma walk_returns_measured P :
  forall u v q s b,
    unvisitedCount (heap b) s <= u ->
    visitedEntries (heap b) s q <= v ->
    exists fuel0, returnsWithin P fuel0 q s b.
Proof.
  induction u as [|u IHu]; induction v as [|v IHv]; intros q s b HU HV;
    (destruct q as [|t rest]; [exists 0; apply returnsWithin_nil|]);
    destruct (visited (heap b) s t) eqn:Ev;
    try (exfalso; unfold visitedEntries in HV; simpl in HV; rewrite Ev in HV;
         simpl in HV; lia);
    try (exfalso;
         pose proof (@unvisitedCount_step_lt P (heap b) s t
                       (scriptInfo (getNode (heap b) t)) Ev); lia).
  - (* u = 0, a visited entry on top *)
    destruct (IHv (pushed P (heap b) s t ++ rest)
                (JsMap.set s (nameOf (heap b) t) (scriptInfo (getNode (heap b) t)))
                (afterUpdate P t b)) as [f0 Hf0].
    + etransitivity; [apply unvisitedCount_step | exact HU].
    + rewrite visitedEntries_app.
      rewrite (@visitedEntries_ext (heap b) s).
      2:{ intros m. simpl. rewrite stepHeap_visited.
          apply visited_set_again; assumption. }
      rewrite (@visitedEntries_ext (heap b) s _ _ rest).
      2:{ intros m. simpl. rewrite stepHeap_visited.
          apply visited_set_again; assumption. }
      rewrite visitedEntries_none
        by (intros m Hm; apply (pushed_unvisited _ _ _ _ _ Hm)).
      unfold visitedEntries in *. simpl in HV. rewrite Ev in HV. simpl in HV. lia.
    + exists (S f0). apply returnsWithin_step; assumption.
  - (* an unvisited entry on top: one address less to visit *)
    destruct (IHu (visitedEntries (heap (afterUpdate P t b))
                     (JsMap.set s (nameOf (heap b) t) (scriptInfo (getNode (heap b) t)))
                     (pushed P (heap b) s t ++ rest))
                (pushed P (heap b) s t ++ rest)
                (JsMap.set s (nameOf (heap b) t) (scriptInfo (getNode (heap b) t)))
                (afterUpdate P t b)) as [f0 Hf0].
    + pose proof (@unvisitedCount_step_lt P (heap b) s t
                    (scriptInfo (getNode (heap b) t)) Ev). simpl. lia.
    + lia.
    + exists (S f0). apply returnsWithin_step; assumption.
  - (* a visited entry on top *)
    destruct (IHv (pushed P (heap b) s t ++ rest)
                (JsMap.set s (nameOf (heap b) t) (scriptInfo (getNode (heap b) t)))
                (afterUpdate P t b)) as [f0 Hf0].
    + etransitivity; [apply unvisitedCount_step | exact HU].
    + rewrite visitedEntries_app.
      rewrite (@visitedEntries_ext (heap b) s).
      2:{ intros m. simpl. rewrite stepHeap_visited.
          apply visited_set_again; assumption. }
      rewrite (@visitedEntries_ext (heap b) s _ _ rest).
      2:{ intros m. simpl. rewrite stepHeap_visited.
          apply visited_set_again; assumption. }
      rewrite visitedEntries_none
        by (intros m Hm; apply (pushed_unvisited _ _ _ _ _ Hm)).
      unfold visitedEntries in *. simpl in HV. rewrite Ev in HV. simpl in HV. lia.
    + exists (S f0). apply returnsWithin_step; assumption.
  - destruct (IHu (visitedEntries (heap (afterUpdate P t b))
                     (JsMap.set s (nameOf (heap b) t) (scriptInfo (getNode (heap b) t)))
                     (pushed P (heap b) s t ++ rest))
                (pushed P (heap b) s t ++ rest)
                (JsMap.set s (nameOf (heap b) t) (scriptInfo (getNode (heap b) t)))
                (afterUpdate P t b)) as [f0 Hf0].
    + pose proof (@unvisitedCount_step_lt P (heap b) s t
                    (scriptInfo (getNode (heap b) t)) Ev). simpl. lia.
    + lia.
    + exists (S f0). apply returnsWithin_step; assumption.
Qed.

Lemma walk_returns P q s b : exists fuel0, returnsWithin P fuel0 q s b.
Proof. eapply walk_returns_measured; eauto. Qed.

(* ================================================================= *)
(** ** The invariant of the walk *)

Lemma JsMap_In_set {V} (m : JsMap.t V) k v k' v' :
  In (k', v') (JsMap.set m k v) -> (k', v') = (k, v) \/ In (k', v') m.
Proof.
  induction m as [|[k0 v0] m IH]; simpl.
  - intros [H|[]]; left; congruence.
  - destruct (String.eqb k k0) eqn:E; simpl.
    + apply String.eqb_eq in E; subst k0.
      intros [H|H]; [left; congruence | right; right; assumption].
    + intros [H|H]; [right; left; assumption|].
      destruct (IH H) as [H'|H']; [left | right; right]; assumption.
Qed.

Lemma JsMap_has_In {V} (m : JsMap.t V) k :
  JsMap.has m k = true -> exists v, In (k, v) m.
Proof.
  unfold JsMap.has. induction m as [|[k0 v0] m IH]; simpl; [discriminate|].
  destruct (String.eqb k k0) eqn:E.
  - apply String.eqb_eq in E; subst. intros _. exists v0. left; reflexivity.
  - intros H. destruct (IH H) as [v Hv]. exists v. right; assumption.
Qed.

Lemma shapeChanged_after_refresh P fi :
  shapeChanged P (refreshed P fi) = true -> shapeChanged P fi = true.
Proof.
  rewrite shapeChanged_refreshed. unfold shapeChanged.
  destruct (sourceOf P fi); auto.
  destruct (lastCheckedShapeSignature fi) as [last|] eqn:L; simpl; auto.
  destruct (freshSignature P fi) as [fresh|] eqn:F; simpl.
  - destruct (String.eqb fresh last) eqn:E.
    + apply String.eqb_eq in E; subst. destruct last; simpl; auto.
    + intros _. apply orb_true_r.
  - intros _. apply orb_true_r.
Qed.

Lemma affected_in_range P h0 a n :
  closedStore h0 -> a < List.length h0 -> affected P h0 a n ->
  n < List.length h0.
Proof.
  intros Hc Ha H. induction H; eauto.
Qed.

Lemma distinctNames_affected P h0 a :
  closedStore h0 -> a < List.length h0 -> distinctNames h0 ->
  distinctAffected P h0 a.
Proof.
  intros Hc Ha Hd n m Hn Hm Heq.
  apply Hd; auto; eapply affected_in_range; eauto.
Qed.

Section Walk.
Variable P : Project.
Variable h0 : list FileInfo.
Variable a : NodeId.
Hypothesis Hnames : distinctAffected P h0 a.

Lemma walkInv_names q s h x :
  walkInv P h0 a q s h -> nameOf h x = nameOf h0 x.
Proof.
  intros I. destruct I as [Igraph Icells Iunt Iqueue Iset Iclosed Istart].
  unfold nameOf. rewrite (proj1 (Igraph x)). reflexivity.
Qed.

Lemma walkInv_visited q s h s' x :
  walkInv P h0 a q s h -> visited h s' x = visited h0 s' x.
Proof. intros I. unfold visited. rewrite (walkInv_names _ _ _ x I). reflexivity. Qed.

Lemma walkInv_static q s h x :
  walkInv P h0 a q s h ->
  shapeChanged P (getNode h x) = true -> shapeChanged P (getNode h0 x) = true.
Proof.
  intros I. destruct I as [Igraph Icells Iunt Iqueue Iset Iclosed Istart].
  destruct (Icells x) as [E|E]; rewrite E; auto.
  apply shapeChanged_after_refresh.
Qed.

Lemma walkInv_step t rest s h :
  walkInv P h0 a (t :: rest) s h ->
  walkInv P h0 a (pushed P h s t ++ rest)
    (JsMap.set s (nameOf h t) (scriptInfo (getNode h t)))
    (stepHeap P h t).
Proof.
  intros I. pose proof I as I'.
  destruct I' as [Igraph Icells Iunt Iqueue Iset Iclosed Istart].
  assert (Haff : affected P h0 a t) by (apply Iqueue; left; reflexivity).
  assert (Hname : nameOf h t = nameOf h0 t) by (apply (walkInv_names _ _ _ t I)).
  constructor.
  - intros x. rewrite stepHeap_scriptInfo, stepHeap_referencedBy.
    apply (Igraph x).
  - intros x. rewrite stepHeap_getNode.
    destruct (Nat.eqb x t && (t <? List.length h)) eqn:E.
    + apply andb_true_iff in E. destruct E as [E _].
      apply Nat.eqb_eq in E; subst x. right.
      destruct (Icells t) as [E|E]; rewrite E; auto.
      apply refreshed_idem.
    + apply (Icells x).
  - intros x Hxa Hv. rewrite stepHeap_getNode.
    destruct (Nat.eqb x t && (t <? List.length h)) eqn:E.
    + apply andb_true_iff in E. destruct E as [E _].
      apply Nat.eqb_eq in E; subst x.
      rewrite Hname, visited_set_self in Hv. discriminate.
    + apply (Iunt x); auto.
      destruct (visited h0 s x) eqn:Ev; auto.
      rewrite (visited_set_mono _ _ _ _ _ Ev) in Hv. discriminate.
  - intros x Hin. apply in_app_or in Hin. destruct Hin as [Hin|Hin].
    + apply pushed_unvisited in Hin. destruct Hin as (_ & Hin & Hch).
      rewrite (proj2 (Igraph t)) in Hin.
      apply (walkInv_static _ _ _ t I) in Hch.
      eapply affected_step; eauto.
    + apply Iqueue. right; assumption.
  - intros k v Hin. apply JsMap_In_set in Hin. destruct Hin as [Hin|Hin].
    + inversion Hin; subst k v. exists t. repeat split; auto.
      apply (proj1 (Igraph t)).
    + apply (Iset _ _ Hin).
  - intros x m Hx Hv Hch Hin.
    destruct (visited h0 s x) eqn:Ev.
    + destruct (Iclosed x m Hx Ev Hch Hin) as [Hm|[Hm|Hm]].
      * left. apply visited_set_mono; assumption.
      * subst m. left. rewrite Hname. apply visited_set_self.
      * right. apply in_or_app. right; assumption.
    + (* [x] is the node just processed, and it was not visited before *)
      rewrite visited_set, Ev, orb_false_r in Hv.
      apply String.eqb_eq in Hv. rewrite Hname in Hv.
      assert (x = t) by (apply Hnames; auto). subst x.
      assert (Hta : t <> a).
      { intros ->. rewrite Istart in Ev. discriminate. }
      destruct (visited h0 s m) eqn:Em.
      * left. apply visited_set_mono; assumption.
      * right. apply in_or_app. left.
        unfold pushed. rewrite (Iunt t Hta Ev), Hch.
        rewrite <- in_rev. apply filter_In. split; auto.
        rewrite (walkInv_visited _ _ _ s m I), Em. reflexivity.
  - apply visited_set_mono. exact Istart.
Qed.

Lemma walkInv_walk fuel :
  forall q s b s' b',
    walkInv P h0 a q s (heap b) ->
    ModuleBuilder.walk P fuel q s b = Some (s', b') ->
    walkInv P h0 a [] s' (heap b').
Proof.
  induction fuel as [|fuel IH]; intros q s b s' b' I Hw.
  - destruct q; simpl in Hw; [|discriminate].
    inversion Hw; subst; assumption.
  - destruct q as [|t rest].
    + simpl in Hw. inversion Hw; subst; assumption.
    + rewrite walk_unfold in Hw.
      eapply IH; [|exact Hw]. apply walkInv_step; assumption.
Qed.

(** With an empty queue, every affected node is in the set. *)
Lemma walkInv_complete s h n :
  walkInv P h0 a [] s h -> affected P h0 a n -> visited h0 s n = true.
Proof.
  intros I Haff. destruct I as [Igraph Icells Iunt Iqueue Iset Iclosed Istart].
  induction Haff as [|n m Haff IH Hch Hin].
  - exact Istart.
  - destruct (Iclosed n m) as [Hm|[]]; auto.
Qed.

Hypothesis Hchanged : shapeChanged P (getNode h0 a) = true.

Lemma walkInv_start :
  walkInv P h0 a (rev (referencedBy (getNode h0 a)))
    (JsMap.set [] (nameOf h0 a) (scriptInfo (getNode h0 a)))
    (stepHeap P h0 a).
Proof.
  constructor.
  - intros x. rewrite stepHeap_scriptInfo, stepHeap_referencedBy. auto.
  - intros x. rewrite stepHeap_getNode.
    destruct (Nat.eqb x a && (a <? List.length h0)) eqn:E; auto.
    apply andb_true_iff in E. destruct E as [E _].
    apply Nat.eqb_eq in E; subst x. auto.
  - intros x Hxa _. rewrite stepHeap_getNode.
    destruct (Nat.eqb x a) eqn:E; simpl; auto.
    apply Nat.eqb_eq in E; congruence.
  - intros x Hin. apply in_rev in Hin.
    eapply affected_step; eauto. constructor.
  - intros k v [Hin|[]]. inversion Hin; subst.
    exists a. repeat split; auto. constructor.
  - intros x m Hx Hv _ Hin.
    rewrite visited_set in Hv. unfold visited in Hv. simpl in Hv.
    rewrite orb_false_r in Hv. apply String.eqb_eq in Hv.
    assert (x = a) by (apply Hnames; auto; constructor). subst x.
    right. rewrite <- in_rev. assumption.
  - apply visited_set_self.
Qed.

(** What the walk started at [a] collects. *)
Lemma walk_collects fuel b s' b' :
  heap b = stepHeap P h0 a ->
  ModuleBuilder.walk P fuel (rev (referencedBy (getNode h0 a)))
    (JsMap.set [] (nameOf h0 a) (scriptInfo (getNode h0 a))) b = Some (s', b') ->
  forall name,
    In name (ModuleBuilder.collectResult s') <->
    exists n, affected P h0 a n /\ nameOf h0 n = name
              /\ shouldEmitFile (scriptInfo (getNode h0 n)) = true.
Proof.
  intros Hb Hw name.
  assert (I : walkInv P h0 a [] s' (heap b')).
  { eapply walkInv_walk; [|exact Hw]. rewrite Hb. apply walkInv_start. }
  pose proof I as I'.
  destruct I' as [Igraph Icells Iunt Iqueue Iset Iclosed Istart].
  unfold ModuleBuilder.collectResult. rewrite in_map_iff. split.
  - intros [[k v] [Hk Hin]]. simpl in Hk. subst k.
    apply filter_In in Hin. destruct Hin as [Hin Hemit]. simpl in Hemit.
    destruct (Iset _ _ Hin) as (x & Haff & Hn & Hv).
    exists x. subst. auto.
  - intros (n & Haff & Hn & Hemit).
    assert (Hv := walkInv_complete _ _ _ I Haff).
    apply JsMap_has_In in Hv. destruct Hv as [v Hin].
    destruct (Iset _ _ Hin) as (x & Hx & Hname & Hv).
    assert (x = n) by (apply Hnames; auto).
    subst x. exists (nameOf h0 n, v). split; [simpl; auto|].
    apply filter_In. split; auto. simpl. subst v. assumption.
Qed.

End Walk.

(* ================================================================= *)
(** ** [ModuleBuilder.getFilesAffectedBy] after the refresh *)

Lemma afterUpdate_sourceOf P id b x :
  sourceOf P (getNode (heap (afterUpdate P id b)) x)
  = sourceOf P (getNode (heap b) x).
Proof.
  unfold sourceOf. simpl. rewrite stepHeap_scriptInfo. reflexivity.
Qed.

Lemma getFilesAffectedBy_after_refresh fuel P si b b1 :
  ModuleBuilder.ensureProjectDependencyGraphUpToDate P b = Some (tt, b1) ->
  ModuleBuilder.getFilesAffectedBy fuel P si b =
  match trackerOf b1 (path si) with
  | None => Some (singleFileResult si, materialized b1)
  | Some id =>
      if negb (shapeChanged P (getNode (heap b1) id))
      then Some (singleFileResult si, afterUpdate P id b1)
      else
        match sourceOf P (getNode (heap b1) id) with
        | None => None
        | Some sf =>
            if negb (isExternalModule sf
                     || BuilderFileInfo.containsOnlyAmbientModules sf)
            then Some (getAllEmittableFiles P, afterUpdate P id b1)
            else if ModuleBuilder.shortCircuits (getCompilerOptions P)
            then Some (singleFileResult si, afterUpdate P id b1)
            else
              match ModuleBuilder.walk P fuel
                      (rev (referencedBy (getNode (heap b1) id)))
                      (JsMap.set [] (fileName si) si)
                      (afterUpdate P id b1) with
              | Some (s', b') => Some (ModuleBuilder.collectResult s', b')
              | None => None
              end
        end
  end.
Proof.
  intros He. unfold ModuleBuilder.getFilesAffectedBy, bind.
  rewrite He, getFileInfo_spec.
  destruct (trackerOf b1 (path si)) as [id|] eqn:Ht; [|reflexivity].
  rewrite (tracker_created _ _ _ Ht), updateShapeSignature_spec.
  fold (stepHeap P (heap b1) id). fold (afterUpdate P id b1).
  destruct (shapeChanged P (getNode (heap b1) id)); simpl; [|reflexivity].
  rewrite isExternalModuleOrHasOnlyAmbientExternalModules_spec.
  rewrite afterUpdate_sourceOf.
  destruct (sourceOf P (getNode (heap b1) id)) as [sf|]; [|reflexivity].
  destruct (isExternalModule sf || BuilderFileInfo.containsOnlyAmbientModules sf);
    simpl; [|reflexivity].
  destruct (ModuleBuilder.shortCircuits (getCompilerOptions P)); [reflexivity|].
  unfold readNode, gets, ret.
  change (heap (afterUpdate P id b1)) with (stepHeap P (heap b1) id).
  rewrite stepHeap_referencedBy. reflexivity.
Qed.

(* ================================================================= *)
(** ** Propagation closure *)

(** C4: in the dependency-graph scheduler, once the refresh has run, let the
    file have the node [a], be a module (or ambient-only), and let no output
    option short-circuit the walk; let the nodes affected from [a] carry
    distinct file names.  If the shape of [a] changes, then
    [getFilesAffectedBy] returns (given enough fuel for the loop) a list that
    holds the name of every emittable node [z] reached from [a] by a chain of
    [referencedBy] edges whose nodes before [z] all change shape; and it
    holds nothing else: every name in it is that of such a node, so a node
    that can only be reached through a node whose shape did not change is
    absent. *)
Theorem propagation_closure P si b b1 a sf :
  ModuleBuilder.ensureProjectDependencyGraphUpToDate P b = Some (tt, b1) ->
  trackerOf b1 (path si) = Some a ->
  scriptInfo (getNode (heap b1) a) = si ->
  distinctAffected P (heap b1) a ->
  sourceOf P (getNode (heap b1) a) = Some sf ->
  isExternalModule sf || BuilderFileInfo.containsOnlyAmbientModules sf = true ->
  ModuleBuilder.shortCircuits (getCompilerOptions P) = false ->
  shapeChanged P (getNode (heap b1) a) = true ->
  exists fuel0, forall fuel, fuel0 <= fuel ->
    exists result b',
      ModuleBuilder.getFilesAffectedBy fuel P si b = Some (result, b')
      /\ (forall z,
            affected P (heap b1) a z ->
            shouldEmitFile (scriptInfo (getNode (heap b1) z)) = true ->
            In (nameOf (heap b1) z) result)
      /\ (forall name,
            In name result ->
            exists n, affected P (heap b1) a n
                      /\ nameOf (heap b1) n = name
                      /\ shouldEmitFile (scriptInfo (getNode (heap b1) n)) = true).
Proof.
  intros He Ht Hsi Hnames Hsf Hmod Hopt Hch.
  destruct (walk_returns P (rev (referencedBy (getNode (heap b1) a)))
              (JsMap.set [] (fileName si) si) (afterUpdate P a b1))
    as [fuel0 Hret].
  exists fuel0. intros fuel Hle.
  destruct (Hret fuel Hle) as (s' & b' & Hw).
  exists (ModuleBuilder.collectResult s'), b'.
  split.
  - rewrite (getFilesAffectedBy_after_refresh fuel P si b b1 He).
    rewrite Ht, Hch, Hsf, Hmod, Hopt, Hw. reflexivity.
  - assert (Hcollect := walk_collects P (heap b1) a Hnames Hch
                          fuel (afterUpdate P a b1) s' b' eq_refl).
    unfold nameOf at 1 in Hcollect. rewrite Hsi in Hcollect.
    specialize (Hcollect Hw).
    split.
    + intros z Hz Hemit. apply Hcollect. exists z. auto.
    + intros name Hin. apply Hcollect. assumption.
Qed.

(* ================================================================= *)
(** ** Executable well-formedness checks *)

Lemma closedStoreb_sound h : closedStoreb h = true -> closedStore h.
Proof.
  unfold closedStoreb, closedStore. intros H n m Hn Hin.
  rewrite forallb_forall in H.
  assert (Hn' : In n (seq 0 (List.length h))) by (apply in_seq; lia).
  specialize (H n Hn'). rewrite forallb_forall in H.
  apply Nat.ltb_lt. apply H. assumption.
Qed.

Lemma distinctNamesb_sound h : distinctNamesb h = true -> distinctNames h.
Proof.
  unfold distinctNamesb, distinctNames. intros H n m Hn Hm Heq.
  rewrite forallb_forall in H.
  assert (Hn' : In n (seq 0 (List.length h))) by (apply in_seq; lia).
  assert (Hm' : In m (seq 0 (List.length h))) by (apply in_seq; lia).
  specialize (H n Hn'). rewrite forallb_forall in H. specialize (H m Hm').
  rewrite Heq, String.eqb_refl in H. simpl in H.
  apply Nat.eqb_eq. assumption.
Qed.

Lemma propagation_closure_witness :
  exists fuel0, forall fuel, fuel0 <= fuel ->
    exists result b',
      ModuleBuilder.getFilesAffectedBy fuel
        (Scenario.chainProject "declare c" "1") (Scenario.script "c.ts") newBuilder
      = Some (result, b')
      /\ In "a.ts"%string result.
Proof.
  destruct (propagation_closure (Scenario.chainProject "declare c" "1")
              (Scenario.script "c.ts") newBuilder chainBuilt 2
              (mkSourceFile true [] false "declare c"))
    as [fuel0 H].
  - vm_compute; reflexivity.
  - vm_compute; reflexivity.
  - vm_compute; reflexivity.
  - apply distinctNames_affected.
    + apply closedStoreb_sound. vm_compute; reflexivity.
    + vm_compute. lia.
    + apply distinctNamesb_sound. vm_compute; reflexivity.
  - vm_compute; reflexivity.
  - vm_compute; reflexivity.
  - vm_compute; reflexivity.
  - vm_compute; reflexivity.
  - exists fuel0. intros fuel Hle.
    destruct (H fuel Hle) as (result & b' & Hrun & Hin & _).
    exists result, b'. split; [exact Hrun|].
    apply (Hin 0); [|vm_compute; reflexivity].
    apply affected_step with (n := 1);
      [|vm_compute; reflexivity | vm_compute; auto].
    apply affected_step with (n := 2);
      [|vm_compute; reflexivity | vm_compute; auto].
    apply affected_start.
Defined.

(* ================================================================= *)
(** ** The whole-project fallback *)

Lemma containsOnlyAmbientModules_false sf st :
  In st (statements sf) -> isAmbientModuleDeclaration st = false ->
  BuilderFileInfo.containsOnlyAmbientModules sf = false.
Proof.
  intros Hin Hst. rewrite containsOnlyAmbientModules_forallb.
  destruct (forallb isAmbientModuleDeclaration (statements sf)) eqn:E; auto.
  rewrite forallb_forall in E. rewrite (E st Hin) in Hst. discriminate.
Qed.

(** A file that is a module or ambient-only never takes the fallback: the
    result does not depend on the set of all emittable files, and the call
    returns once the loop has enough fuel. *)
Lemma no_fallback fuel P si b b1 id sf :
  ModuleBuilder.ensureProjectDependencyGraphUpToDate P b = Some (tt, b1) ->
  trackerOf b1 (path si) = Some id ->
  sourceOf P (getNode (heap b1) id) = Some sf ->
  isExternalModule sf || BuilderFileInfo.containsOnlyAmbientModules sf = true ->
  (forall files,
     ModuleBuilder.getFilesAffectedBy fuel (withAllEmittableFiles files P) si b
     = ModuleBuilder.getFilesAffectedBy fuel P si b)
  /\ exists fuel0, forall fuel', fuel0 <= fuel' ->
       exists result b',
         ModuleBuilder.getFilesAffectedBy fuel' P si b = Some (result, b').
Proof.
  intros He Ht Hsf Hmod. split.
  - intros files.
    assert (He' : ModuleBuilder.ensureProjectDependencyGraphUpToDate
                    (withAllEmittableFiles files P) b = Some (tt, b1)) by exact He.
    rewrite (getFilesAffectedBy_after_refresh fuel _ si b b1 He').
    rewrite (getFilesAffectedBy_after_refresh fuel _ si b b1 He).
    rewrite Ht.
    change (shapeChanged (withAllEmittableFiles files P) (getNode (heap b1) id))
      with (shapeChanged P (getNode (heap b1) id)).
    change (sourceOf (withAllEmittableFiles files P) (getNode (heap b1) id))
      with (sourceOf P (getNode (heap b1) id)).
    rewrite Hsf, Hmod. reflexivity.
  - destruct (walk_returns P (rev (referencedBy (getNode (heap b1) id)))
                (JsMap.set [] (fileName si) si) (afterUpdate P id b1))
      as [fuel0 Hret].
    exists fuel0. intros fuel' Hle.
    rewrite (getFilesAffectedBy_after_refresh fuel' P si b b1 He).
    rewrite Ht, Hsf, Hmod.
    destruct (negb (shapeChanged P (getNode (heap b1) id))); [eauto|].
    cbn [negb]. destruct (ModuleBuilder.shortCircuits (getCompilerOptions P)); [eauto|].
    destruct (Hret fuel' Hle) as (s' & b' & Hw). rewrite Hw. eauto.
Qed.

(** C8: in the dependency-graph scheduler, a file that is not an external
    module and has at least one top-level statement that is not a
    string-named ambient module declaration makes [getFilesAffectedBy] return
    the full set of emittable files when its shape changes.  A file whose
    every top-level statement is a string-named ambient module declaration
    never does: the result of [getFilesAffectedBy] is the same whatever the
    set of all emittable files is, and the call does return. *)
Theorem non_module_fallback fuel P si b b1 id sf :
  ModuleBuilder.ensureProjectDependencyGraphUpToDate P b = Some (tt, b1) ->
  trackerOf b1 (path si) = Some id ->
  sourceOf P (getNode (heap b1) id) = Some sf ->
  (isExternalModule sf = false ->
   (exists st, In st (statements sf) /\ isAmbientModuleDeclaration st = false) ->
   forall b2,
     BuilderFileInfo.updateShapeSignature P id b1 = Some (true, b2) ->
     ModuleBuilder.getFilesAffectedBy fuel P si b
     = Some (getAllEmittableFiles P, b2))
  /\ (forallb isAmbientModuleDeclaration (statements sf) = true ->
      (forall files,
         ModuleBuilder.getFilesAffectedBy fuel (withAllEmittableFiles files P) si b
         = ModuleBuilder.getFilesAffectedBy fuel P si b)
      /\ exists fuel0, forall fuel', fuel0 <= fuel' ->
           exists result b',
             ModuleBuilder.getFilesAffectedBy fuel' P si b = Some (result, b')).
Proof.
  intros He Ht Hsf. split.
  - intros Hext (st & Hin & Hst) b2 Hupd.
    rewrite updateShapeSignature_spec in Hupd. inversion Hupd as [[Hch Hb2]].
    rewrite (getFilesAffectedBy_after_refresh fuel P si b b1 He).
    rewrite Ht, Hch, Hsf, Hext, (containsOnlyAmbientModules_false sf st Hin Hst).
    reflexivity.
  - intros Hall. apply (no_fallback fuel P si b b1 id sf He Ht Hsf).
    rewrite containsOnlyAmbientModules_forallb, Hall. apply orb_true_r.
Qed.

Lemma non_module_fallback_witness :
  (exists b2,
     ModuleBuilder.getFilesAffectedBy 0 Scenario.mixedProject
       (Scenario.script "script.ts") newBuilder
     = Some (getAllEmittableFiles Scenario.mixedProject, b2))
  /\ (forall files,
        ModuleBuilder.getFilesAffectedBy 0
          (withAllEmittableFiles files Scenario.mixedProject)
          (Scenario.script "ambient.ts") newBuilder
        = ModuleBuilder.getFilesAffectedBy 0 Scenario.mixedProject
            (Scenario.script "ambient.ts") newBuilder).
Proof.
  split.
  - destruct (non_module_fallback 0 Scenario.mixedProject
                (Scenario.script "script.ts") newBuilder mixedBuilt 0
                (mkSourceFile false [Scenario.variableStatement] false "declare s"))
      as [H _]; [vm_compute; reflexivity | vm_compute; reflexivity
                 | vm_compute; reflexivity |].
    eexists. apply H.
    + reflexivity.
    + exists Scenario.variableStatement. split; [left; reflexivity | reflexivity].
    + vm_compute; reflexivity.
  - destruct (non_module_fallback 0 Scenario.mixedProject
                (Scenario.script "ambient.ts") newBuilder mixedBuilt 1
                (mkSourceFile false [Scenario.ambientModule] false "declare module"))
      as [_ H]; [vm_compute; reflexivity | vm_compute; reflexivity
                 | vm_compute; reflexivity |].
    apply H. vm_compute; reflexivity.
Defined.

(** C9: a source file without top-level statements counts as ambient-only
    (the check over its statements holds vacuously), also when it is not an
    external module; so in the dependency-graph scheduler such a file never
    takes the whole-project fallback: the result of [getFilesAffectedBy] is
    the same whatever the set of all emittable files is, and the call does
    return. *)
Theorem empty_file_never_falls_back fuel P si b b1 id sf :
  ModuleBuilder.ensureProjectDependencyGraphUpToDate P b = Some (tt, b1) ->
  trackerOf b1 (path si) = Some id ->
  sourceOf P (getNode (heap b1) id) = Some sf ->
  isExternalModule sf = false ->
  statements sf = [] ->
  BuilderFileInfo.containsOnlyAmbientModules sf = true
  /\ BuilderFileInfo.isExternalModuleOrHasOnlyAmbientExternalModules P id b1
     = Some (true, b1)
  /\ (forall files,
        ModuleBuilder.getFilesAffectedBy fuel (withAllEmittableFiles files P) si b
        = ModuleBuilder.getFilesAffectedBy fuel P si b)
  /\ exists fuel0, forall fuel', fuel0 <= fuel' ->
       exists result b',
         ModuleBuilder.getFilesAffectedBy fuel' P si b = Some (result, b').
Proof.
  intros He Ht Hsf Hext Hempty.
  assert (Hamb : BuilderFileInfo.containsOnlyAmbientModules sf = true).
  { unfold BuilderFileInfo.containsOnlyAmbientModules. rewrite Hempty. reflexivity. }
  split; [exact Hamb|]. split.
  - rewrite isExternalModuleOrHasOnlyAmbientExternalModules_spec, Hsf, Hext, Hamb.
    reflexivity.
  - apply (no_fallback fuel P si b b1 id sf He Ht Hsf).
    rewrite Hamb. apply orb_true_r.
Qed.

Lemma empty_file_never_falls_back_witness :
  BuilderFileInfo.isExternalModuleOrHasOnlyAmbientExternalModules
    Scenario.mixedProject 2 mixedBuilt = Some (true, mixedBuilt)
  /\ forall files,
       ModuleBuilder.getFilesAffectedBy 0
         (withAllEmittableFiles files Scenario.mixedProject)
         (Scenario.script "empty.ts") newBuilder
       = ModuleBuilder.getFilesAffectedBy 0 Scenario.mixedProject
           (Scenario.script "empty.ts") newBuilder.
Proof.
  destruct (empty_file_never_falls_back 0 Scenario.mixedProject
              (Scenario.script "empty.ts") newBuilder mixedBuilt 2
              (mkSourceFile false [] false EmptyString))
    as (_ & H1 & H2 & _); try (vm_compute; reflexivity).
  split; assumption.
Defined.

(* ================================================================= *)
(** ** Bundled and isolated output *)

(** C2, as the code has it.  In the flat scheduler, when [out] or [outFile]
    is set, [getFilesAffectedBy] returns the trivial single-file result for
    every file and every state.  In the dependency-graph scheduler, when
    [isolatedModules], [out] or [outFile] is set, it returns the trivial
    single-file result whenever the file has no node, or its shape did not
    change, or it is a module or ambient-only file, whatever the graph is. *)
Theorem bundled_output_short_circuit P si :
  (forall options b,
     getCompilerOptions P = Some options ->
     truthy (out options) || truthy (outFile options) = true ->
     exists b', NonModuleBuilder.getFilesAffectedBy P si b
                = Some (singleFileResult si, b'))
  /\ (forall fuel b b1,
        ModuleBuilder.shortCircuits (getCompilerOptions P) = true ->
        ModuleBuilder.ensureProjectDependencyGraphUpToDate P b = Some (tt, b1) ->
        (forall id, trackerOf b1 (path si) = Some id ->
           shapeChanged P (getNode (heap b1) id) = false
           \/ exists sf,
                sourceOf P (getNode (heap b1) id) = Some sf
                /\ isExternalModule sf
                   || BuilderFileInfo.containsOnlyAmbientModules sf = true) ->
        exists b', ModuleBuilder.getFilesAffectedBy fuel P si b
                   = Some (singleFileResult si, b')).
Proof.
  split.
  - intros options b Hopt Hout.
    unfold NonModuleBuilder.getFilesAffectedBy, bind, ret.
    destruct (AbstractBuilder.getOrCreateFileInfo P (path si) b)
      as [[id b0]|] eqn:Hg.
    + rewrite updateShapeSignature_spec, Hopt, Hout.
      destruct (shapeChanged P (getNode (heap b0) id)); eauto.
    + exfalso. revert Hg.
      unfold AbstractBuilder.getOrCreateFileInfo, bind.
      rewrite getFileInfo_spec.
      destruct (trackerOf b (path si)); [discriminate|].
      unfold allocNode, AbstractBuilder.setFileInfo, bind, ret, modify.
      rewrite getFileInfos_spec. discriminate.
  - intros fuel b b1 Hopt He Hnode.
    rewrite (getFilesAffectedBy_after_refresh fuel P si b b1 He).
    destruct (trackerOf b1 (path si)) as [id|]; [|eauto].
    destruct (Hnode id eq_refl) as [Hch|(sf & Hsf & Hmod)].
    + rewrite Hch. simpl. eauto.
    + rewrite Hsf, Hmod, Hopt.
      destruct (negb (shapeChanged P (getNode (heap b1) id))); simpl; eauto.
Qed.

Lemma bundled_output_short_circuit_witness :
  (exists b', NonModuleBuilder.getFilesAffectedBy Scenario.bundledProject
                (Scenario.script "script.ts") newBuilder
              = Some (["script.ts"%string], b'))
  /\ (exists b', ModuleBuilder.getFilesAffectedBy 0 Scenario.bundledProject
                   (Scenario.script "other.ts") newBuilder
                 = Some (["other.ts"%string], b')).
Proof.
  destruct (bundled_output_short_circuit Scenario.bundledProject
              (Scenario.script "script.ts")) as [Hflat _].
  destruct (bundled_output_short_circuit Scenario.bundledProject
              (Scenario.script "other.ts")) as [_ Hgraph].
  split.
  - apply (Hflat (mkCompilerOptions false None (Some "bundle.js"%string) None)
             newBuilder); vm_compute; reflexivity.
  - apply (Hgraph 0 newBuilder
             (stateAfter (ModuleBuilder.ensureProjectDependencyGraphUpToDate
                            Scenario.bundledProject) newBuilder));
      [vm_compute; reflexivity | vm_compute; reflexivity |].
    intros id Hid. right.
    exists (mkSourceFile true [] false "declare o"%string).
    vm_compute in Hid. inversion Hid; subst id. split; vm_compute; reflexivity.
Defined.

(** C2 as stated fails: with [outFile] set, the dependency-graph scheduler
    returns all emittable files for a plain script whose shape changed; and
    with [isolatedModules] set, the flat scheduler returns all emittable
    files for a file whose shape changed. *)
Lemma bundled_output_short_circuit_counterexample :
  ModuleBuilder.shortCircuits (getCompilerOptions Scenario.bundledProject) = true
  /\ option_map fst
       (ModuleBuilder.getFilesAffectedBy 0 Scenario.bundledProject
          (Scenario.script "script.ts") newBuilder)
     = Some ["script.ts"; "ambient.ts"; "empty.ts"; "other.ts"]%string
  /\ singleFileResult (Scenario.script "script.ts") = ["script.ts"%string]
  /\ ModuleBuilder.shortCircuits (getCompilerOptions Scenario.isolatedProject) = true
  /\ option_map fst
       (NonModuleBuilder.getFilesAffectedBy Scenario.isolatedProject
          (Scenario.script "script.ts") newBuilder)
     = Some ["script.ts"; "ambient.ts"; "empty.ts"; "other.ts"]%string.
Proof. evaluate. Qed.

(* ================================================================= *)
(** ** Repeating [updateShapeSignature] and [getFilesAffectedBy] *)

Lemma updateShapeSignature_repeated_witness :
  exists r2 b2,
    BuilderFileInfo.updateShapeSignature (Scenario.chainProject "declare c" "1") 2
      (stateAfter (BuilderFileInfo.updateShapeSignature
                     (Scenario.chainProject "declare c" "1") 2) chainBuilt)
    = Some (r2, b2)
    /\ r2 = false.
Proof.
  destruct (updateShapeSignature_repeated (Scenario.chainProject "declare c" "1") 2
              chainBuilt true
              (stateAfter (BuilderFileInfo.updateShapeSignature
                             (Scenario.chainProject "declare c" "1") 2) chainBuilt))
    as (r2 & b2 & Hrun & _ & Hiff); [vm_compute; reflexivity|].
  exists r2, b2. split; [exact Hrun|].
  apply Hiff. split; [vm_compute; discriminate | vm_compute; reflexivity].
Defined.

(** C3 as stated fails: for a file whose declarations-only emit produces no
    output, the signature stays unset and the repeated call returns true
    again. *)
Lemma updateShapeSignature_repeated_counterexample :
  option_map fst
    (BuilderFileInfo.updateShapeSignature Scenario.silentProject 0 silentTracked)
  = Some true
  /\ option_map fst
       (BuilderFileInfo.updateShapeSignature Scenario.silentProject 0
          (stateAfter (BuilderFileInfo.updateShapeSignature Scenario.silentProject 0)
                      silentTracked))
     = Some true.
Proof. evaluate. Qed.

(** A settled tracker answers false. *)
Lemma settled_unchanged P h0 h id :
  (id < List.length h -> getNode h id = refreshed P (getNode h0 id)) ->
  sourceOf P (getNode h id) <> None ->
  truthy (lastCheckedShapeSignature (getNode h id)) = true ->
  shapeChanged P (getNode h id) = false.
Proof.
  intros Hfresh Hsf Htruthy.
  assert (Hid := truthy_in_range h id Htruthy).
  rewrite (Hfresh Hid) in *. rewrite shapeChanged_refreshed.
  rewrite sourceOf_refreshed in Hsf.
  destruct (sourceOf P (getNode h0 id)); [|congruence].
  simpl in Htruthy. rewrite Htruthy. reflexivity.
Qed.

Lemma ensure_records_version P b b1 :
  ModuleBuilder.ensureProjectDependencyGraphUpToDate P b = Some (tt, b1) ->
  projectVersionForDependencyGraph b1 = Some (getProjectVersion P).
Proof.
  unfold ModuleBuilder.ensureProjectDependencyGraphUpToDate, bind, gets.
  destruct (negb (truthy (projectVersionForDependencyGraph b))
            || negb (strictEq (Some (getProjectVersion P))
                              (projectVersionForDependencyGraph b))) eqn:G.
  - destruct (forOf (getScriptInfos P) _ b) as [[u b2]|]; [|discriminate].
    destruct (AbstractBuilder.forEachFileInfo _ b2) as [[u' b3]|]; [|discriminate].
    unfold modify. intros H; inversion H; subst. reflexivity.
  - intros H; inversion H; subst b1.
    apply orb_false_iff in G. destruct G as [_ G].
    apply negb_false_iff in G. apply strictEq_eq in G. congruence.
Qed.

Lemma ensure_again P b :
  truthy (Some (getProjectVersion P)) = true ->
  projectVersionForDependencyGraph b = Some (getProjectVersion P) ->
  ModuleBuilder.ensureProjectDependencyGraphUpToDate P b = Some (tt, b).
Proof.
  intros Ht Hv.
  unfold ModuleBuilder.ensureProjectDependencyGraphUpToDate, bind, gets.
  rewrite Hv, Ht, strictEq_refl. reflexivity.
Qed.

(** What the walk leaves alone. *)
Lemma walk_frame P fuel :
  forall q s b s' b',
    ModuleBuilder.walk P fuel q s b = Some (s', b') ->
    fileInfos_doNotAccessDirectly b' = fileInfos_doNotAccessDirectly b
    /\ projectVersionForDependencyGraph b' = projectVersionForDependencyGraph b
    /\ List.length (heap b') = List.length (heap b)
    /\ forall x, getNode (heap b') x = getNode (heap b) x
                 \/ getNode (heap b') x = refreshed P (getNode (heap b) x).
Proof.
  induction fuel as [|fuel IH]; intros q s b s' b' Hw.
  - destruct q; simpl in Hw; [|discriminate]. inversion Hw; subst. auto.
  - destruct q as [|t rest].
    + simpl in Hw. inversion Hw; subst. auto.
    + rewrite walk_unfold in Hw. apply IH in Hw.
      destruct Hw as (Hm & Hv & Hl & Hc).
      split; [exact Hm|]. split; [exact Hv|].
      split; [rewrite Hl; apply stepHeap_length|].
      intros x. specialize (Hc x). simpl in Hc.
      rewrite stepHeap_getNode in Hc.
      destruct (Nat.eqb x t && (t <? List.length (heap b))) eqn:E.
      * apply andb_true_iff in E. destruct E as [E _].
        apply Nat.eqb_eq in E; subst x.
        destruct Hc as [Hc|Hc]; rewrite Hc; auto.
        rewrite refreshed_idem. auto.
      * exact Hc.
Qed.

(** A tracker that is not settled reads as changed, and so it did in the
    call that left it. *)
Lemma unsettled_changed P fi :
  sourceOf P fi = None \/ truthy (lastCheckedShapeSignature fi) = false ->
  shapeChanged P fi = true.
Proof.
  intros [H|H]; unfold shapeChanged.
  - rewrite H. reflexivity.
  - destruct (sourceOf P fi); [|reflexivity]. rewrite H. reflexivity.
Qed.

Lemma unsettled_was_changed P fi :
  sourceOf P (refreshed P fi) = None
  \/ truthy (lastCheckedShapeSignature (refreshed P fi)) = false ->
  shapeChanged P fi = true.
Proof.
  rewrite sourceOf_refreshed. intros [H|H]; unfold shapeChanged.
  - rewrite H. reflexivity.
  - destruct (sourceOf P fi); [|reflexivity].
    destruct (truthy (lastCheckedShapeSignature fi)) eqn:Hl; [|reflexivity].
    destruct (strictEq (freshSignature P fi) (lastCheckedShapeSignature fi))
      eqn:He; [|reflexivity].
    apply strictEq_eq in He. simpl in H. rewrite He, Hl in H. discriminate.
Qed.

Lemma unsettled_after_update P h id :
  sourceOf P (getNode (stepHeap P h id) id) = None
  \/ truthy (lastCheckedShapeSignature (getNode (stepHeap P h id) id)) = false ->
  shapeChanged P (getNode h id) = true.
Proof.
  rewrite stepHeap_getNode, Nat.eqb_refl. simpl.
  destruct (id <? List.length h);
    [apply unsettled_was_changed | apply unsettled_changed].
Qed.

(** What a returned call of the dependency-graph scheduler leaves of the
    state after its refresh, for a file that has a node. *)
Lemma module_call_frame fuel P si b0 id r1 b1 :
  (if negb (shapeChanged P (getNode (heap b0) id))
   then Some (singleFileResult si, afterUpdate P id b0)
   else
     match sourceOf P (getNode (heap b0) id) with
     | Some sf =>
         if negb (isExternalModule sf
                  || BuilderFileInfo.containsOnlyAmbientModules sf)
         then Some (getAllEmittableFiles P, afterUpdate P id b0)
         else
           if ModuleBuilder.shortCircuits (getCompilerOptions P)
           then Some (singleFileResult si, afterUpdate P id b0)
           else
             match ModuleBuilder.walk P fuel
                     (rev (referencedBy (getNode (heap b0) id)))
                     (JsMap.set [] (fileName si) si)
                     (afterUpdate P id b0) with
             | Some (s', b') => Some (ModuleBuilder.collectResult s', b')
             | None => None
             end
     | None => None
     end) = Some (r1, b1) ->
  fileInfos_doNotAccessDirectly b1 = fileInfos_doNotAccessDirectly b0
  /\ projectVersionForDependencyGraph b1 = projectVersionForDependencyGraph b0
  /\ List.length (heap b1) = List.length (heap b0)
  /\ getNode (heap b1) id = getNode (stepHeap P (heap b0) id) id.
Proof.
  intros Hrun.
  assert (Hupd :
    fileInfos_doNotAccessDirectly (afterUpdate P id b0)
    = fileInfos_doNotAccessDirectly b0
    /\ projectVersionForDependencyGraph (afterUpdate P id b0)
       = projectVersionForDependencyGraph b0
    /\ List.length (heap (afterUpdate P id b0)) = List.length (heap b0)
    /\ getNode (heap (afterUpdate P id b0)) id
       = getNode (stepHeap P (heap b0) id) id).
  { repeat split. simpl. apply stepHeap_length. }
  destruct (negb (shapeChanged P (getNode (heap b0) id)));
    [inversion Hrun; subst; exact Hupd|].
  destruct (sourceOf P (getNode (heap b0) id)) as [sf|]; [|discriminate].
  destruct (negb (isExternalModule sf
                  || BuilderFileInfo.containsOnlyAmbientModules sf));
    [inversion Hrun; subst; exact Hupd|].
  destruct (ModuleBuilder.shortCircuits (getCompilerOptions P));
    [inversion Hrun; subst; exact Hupd|].
  destruct (ModuleBuilder.walk P fuel _ _ (afterUpdate P id b0))
    as [[s' b']|] eqn:Hw; [|discriminate].
  inversion Hrun; subst r1 b1.
  destruct (walk_frame P fuel _ _ _ _ _ Hw) as (Hm & Hv & Hl & Hc).
  destruct Hupd as (Hm0 & Hv0 & Hl0 & Hc0).
  split; [congruence|]. split; [congruence|]. split; [congruence|].
  destruct (Nat.lt_ge_cases id (List.length (heap b0))) as [Hin|Hin].
  - destruct (Hc id) as [E|E]; rewrite E, Hc0; [reflexivity|].
    rewrite stepHeap_getNode, Nat.eqb_refl. simpl.
    apply Nat.ltb_lt in Hin. rewrite Hin. apply refreshed_idem.
  - rewrite (getNode_out_of_range (heap b') id) by (rewrite Hl, Hl0; exact Hin).
    rewrite (getNode_out_of_range (stepHeap P (heap b0) id) id)
      by (rewrite stepHeap_length; exact Hin).
    reflexivity.
Qed.

(** C5, as the code has it.  When a call of [getFilesAffectedBy] has returned
    and the file's tracker, if there is one, then holds a non-empty signature
    for a file that has a representation, a repeated call in the same project
    state returns the trivial single-file result; this holds for both
    schedulers (for the dependency-graph scheduler, with a non-empty project
    version stamp).  When the tracker is left unsettled (no representation, or
    no non-empty signature stored), the file reads as changed again.  The flat
    scheduler then returns what the first call returned.  So does the
    dependency-graph scheduler (again with a non-empty project version stamp)
    when the file is not a module or [isolatedModules], [out] or [outFile] is
    set; otherwise its second call is the propagation walk run again on the
    state the first call left.  A tracker is settled or unsettled. *)
Theorem getFilesAffectedBy_repeated P si :
  (forall b r1 b1,
     NonModuleBuilder.getFilesAffectedBy P si b = Some (r1, b1) ->
     settledTracker P b1 si ->
     exists b2, NonModuleBuilder.getFilesAffectedBy P si b1
                = Some (singleFileResult si, b2))
  /\ (forall fuel fuel' b r1 b1,
        truthy (Some (getProjectVersion P)) = true ->
        ModuleBuilder.getFilesAffectedBy fuel P si b = Some (r1, b1) ->
        settledTracker P b1 si ->
        exists b2, ModuleBuilder.getFilesAffectedBy fuel' P si b1
                   = Some (singleFileResult si, b2))
  /\ (forall b r1 b1 id,
        NonModuleBuilder.getFilesAffectedBy P si b = Some (r1, b1) ->
        unsettledTracker P b1 si id ->
        exists b2, NonModuleBuilder.getFilesAffectedBy P si b1 = Some (r1, b2))
  /\ (forall fuel fuel' b r1 b1 id,
        truthy (Some (getProjectVersion P)) = true ->
        ModuleBuilder.getFilesAffectedBy fuel P si b = Some (r1, b1) ->
        unsettledTracker P b1 si id ->
        exists sf,
          sourceOf P (getNode (heap b1) id) = Some sf
          /\ if negb (isExternalModule sf
                      || BuilderFileInfo.containsOnlyAmbientModules sf)
                || ModuleBuilder.shortCircuits (getCompilerOptions P)
             then exists b2, ModuleBuilder.getFilesAffectedBy fuel' P si b1
                             = Some (r1, b2)
             else ModuleBuilder.getFilesAffectedBy fuel' P si b1
                  = match ModuleBuilder.walk P fuel'
                            (rev (referencedBy (getNode (heap b1) id)))
                            (JsMap.set [] (fileName si) si)
                            (afterUpdate P id b1) with
                    | Some (s', b') => Some (ModuleBuilder.collectResult s', b')
                    | None => None
                    end)
  /\ (forall b, settledTracker P b si \/ exists id, unsettledTracker P b si id).
Proof.
  split; [|split; [|split; [|split]]].
  - intros b r1 b1 Hrun Hsettled.
    unfold NonModuleBuilder.getFilesAffectedBy, bind in Hrun.
    destruct (AbstractBuilder.getOrCreateFileInfo P (path si) b)
      as [[id b0]|] eqn:Hg; [|discriminate].
    assert (Ht0 := getOrCreateFileInfo_tracker P (path si) b id b0 Hg).
    rewrite updateShapeSignature_spec in Hrun.
    assert (Hb1 : b1 = afterUpdate P id b0).
    { destruct (shapeChanged P (getNode (heap b0) id)).
      - destruct (getCompilerOptions P) as [o|];
          [destruct (truthy (out o) || truthy (outFile o))|];
          inversion Hrun; reflexivity.
      - inversion Hrun; reflexivity. }
    clear Hrun. subst b1.
    assert (Ht1 : trackerOf (afterUpdate P id b0) (path si) = Some id) by exact Ht0.
    destruct (Hsettled id Ht1) as [Hsf Htruthy].
    unfold NonModuleBuilder.getFilesAffectedBy, bind.
    unfold AbstractBuilder.getOrCreateFileInfo, bind.
    rewrite getFileInfo_spec, Ht1.
    unfold ret. rewrite (tracker_created _ _ _ Ht1), updateShapeSignature_spec.
    rewrite (settled_unchanged P (heap b0) _ id);
      [ unfold ret; eauto | | exact Hsf | exact Htruthy ].
    simpl. rewrite stepHeap_length. intros Hid.
      rewrite stepHeap_getNode, Nat.eqb_refl. simpl.
      apply Nat.ltb_lt in Hid. rewrite Hid. reflexivity.
  - intros fuel fuel' b r1 b1 Hver Hrun Hsettled.
    destruct (ModuleBuilder.ensureProjectDependencyGraphUpToDate P b)
      as [[[] b0]|] eqn:He.
    2:{ unfold ModuleBuilder.getFilesAffectedBy, bind in Hrun.
        rewrite He in Hrun. discriminate. }
    assert (Hv0 := ensure_records_version P b b0 He).
    rewrite (getFilesAffectedBy_after_refresh fuel P si b b0 He) in Hrun.
    destruct (trackerOf b0 (path si)) as [id|] eqn:Ht.
    + (* the file has a node *)
      assert (Hfacts :
        fileInfos_doNotAccessDirectly b1 = fileInfos_doNotAccessDirectly b0
        /\ projectVersionForDependencyGraph b1 = projectVersionForDependencyGraph b0
        /\ List.length (heap b1) = List.length (heap b0)
        /\ (id < List.length (heap b0) ->
            getNode (heap b1) id = refreshed P (getNode (heap b0) id))).
      { assert (Hupd :
          fileInfos_doNotAccessDirectly (afterUpdate P id b0)
          = fileInfos_doNotAccessDirectly b0
          /\ projectVersionForDependencyGraph (afterUpdate P id b0)
             = projectVersionForDependencyGraph b0
          /\ List.length (heap (afterUpdate P id b0)) = List.length (heap b0)
          /\ (id < List.length (heap b0) ->
              getNode (heap (afterUpdate P id b0)) id
              = refreshed P (getNode (heap b0) id))).
        { repeat split; simpl; [apply stepHeap_length|].
          intros Hid. rewrite stepHeap_getNode, Nat.eqb_refl. simpl.
          apply Nat.ltb_lt in Hid. rewrite Hid. reflexivity. }
        destruct (negb (shapeChanged P (getNode (heap b0) id)));
          [inversion Hrun; subst; exact Hupd|].
        destruct (sourceOf P (getNode (heap b0) id)) as [sf|]; [|discriminate].
        destruct (negb (isExternalModule sf
                        || BuilderFileInfo.containsOnlyAmbientModules sf));
          [inversion Hrun; subst; exact Hupd|].
        destruct (ModuleBuilder.shortCircuits (getCompilerOptions P));
          [inversion Hrun; subst; exact Hupd|].
        destruct (ModuleBuilder.walk P fuel _ _ (afterUpdate P id b0))
          as [[s' b']|] eqn:Hw; [|discriminate].
        inversion Hrun; subst r1 b1.
        destruct (walk_frame P fuel _ _ _ _ _ Hw) as (Hm & Hv & Hl & Hc).
        destruct Hupd as (Hm0 & Hv0' & Hl0 & Hc0).
        split; [congruence|]. split; [congruence|]. split; [congruence|].
        intros Hid. destruct (Hc id) as [E|E]; rewrite E, (Hc0 Hid); auto.
        apply refreshed_idem. }
      destruct Hfacts as (Hm & Hv & Hl & Hfresh).
      assert (Ht1 : trackerOf b1 (path si) = Some id).
      { unfold trackerOf, fileInfosOf in *. rewrite Hm. exact Ht. }
      destruct (Hsettled id Ht1) as [Hsf Htruthy].
      assert (He1 := ensure_again P b1 Hver (eq_trans Hv Hv0)).
      rewrite (getFilesAffectedBy_after_refresh fuel' P si b1 b1 He1), Ht1.
      rewrite (settled_unchanged P (heap b0) (heap b1) id);
        [ cbn [negb]; eauto
        | intros Hid; apply Hfresh; rewrite <- Hl; exact Hid
        | exact Hsf | exact Htruthy ].
    + (* the file has no node *)
      inversion Hrun; subst r1 b1.
      assert (He1 := ensure_again P (materialized b0) Hver Hv0).
      rewrite (getFilesAffectedBy_after_refresh fuel' P si _ _ He1).
      rewrite materialized_tracker, Ht. eauto.
  - (* the flat scheduler, unsettled *)
    intros b r1 b1 id Hrun [Ht1 Hun].
    unfold NonModuleBuilder.getFilesAffectedBy, bind in Hrun.
    destruct (AbstractBuilder.getOrCreateFileInfo P (path si) b)
      as [[id0 b0]|] eqn:Hg; [|discriminate].
    assert (Ht0 := getOrCreateFileInfo_tracker P (path si) b id0 b0 Hg).
    rewrite updateShapeSignature_spec in Hrun.
    assert (Hb1 : b1 = afterUpdate P id0 b0).
    { destruct (shapeChanged P (getNode (heap b0) id0)).
      - destruct (getCompilerOptions P) as [o|];
          [destruct (truthy (out o) || truthy (outFile o))|];
          inversion Hrun; reflexivity.
      - inversion Hrun; reflexivity. }
    assert (Hid : id0 = id).
    { subst b1. change (trackerOf b0 (path si) = Some id) in Ht1. congruence. }
    subst id0.
    assert (Hch0 : shapeChanged P (getNode (heap b0) id) = true).
    { apply unsettled_after_update. subst b1. exact Hun. }
    rewrite Hch0 in Hrun.
    unfold NonModuleBuilder.getFilesAffectedBy, bind.
    unfold AbstractBuilder.getOrCreateFileInfo, bind.
    rewrite getFileInfo_spec, Ht1.
    unfold ret. rewrite (tracker_created _ _ _ Ht1), updateShapeSignature_spec.
    rewrite (unsettled_changed P _ Hun).
    destruct (getCompilerOptions P) as [o|];
      [destruct (truthy (out o) || truthy (outFile o))|];
      inversion Hrun; eauto.
  - (* the dependency-graph scheduler, unsettled *)
    intros fuel fuel' b r1 b1 id Hver Hrun [Ht1 Hun].
    destruct (ModuleBuilder.ensureProjectDependencyGraphUpToDate P b)
      as [[[] b0]|] eqn:He.
    2:{ unfold ModuleBuilder.getFilesAffectedBy, bind in Hrun.
        rewrite He in Hrun. discriminate. }
    assert (Hv0 := ensure_records_version P b b0 He).
    rewrite (getFilesAffectedBy_after_refresh fuel P si b b0 He) in Hrun.
    destruct (trackerOf b0 (path si)) as [id0|] eqn:Ht0.
    2:{ inversion Hrun; subst r1 b1.
        rewrite materialized_tracker, Ht0 in Ht1. discriminate. }
    destruct (module_call_frame fuel P si b0 id0 r1 b1 Hrun)
      as (Hm & Hv & Hl & Hcell).
    assert (Hid : id0 = id).
    { unfold trackerOf, fileInfosOf in Ht0, Ht1. rewrite Hm in Ht1. congruence. }
    subst id0.
    assert (Hch0 : shapeChanged P (getNode (heap b0) id) = true).
    { apply unsettled_after_update. rewrite <- Hcell. exact Hun. }
    assert (Hsrc : sourceOf P (getNode (heap b1) id)
                   = sourceOf P (getNode (heap b0) id)).
    { rewrite Hcell. unfold sourceOf. rewrite stepHeap_scriptInfo. reflexivity. }
    rewrite Hch0 in Hrun. cbn [negb] in Hrun.
    destruct (sourceOf P (getNode (heap b0) id)) as [sf|] eqn:Hsf;
      [|discriminate].
    exists sf. split; [exact Hsrc|].
    assert (He1 := ensure_again P b1 Hver (eq_trans Hv Hv0)).
    rewrite (getFilesAffectedBy_after_refresh fuel' P si b1 b1 He1), Ht1.
    rewrite (unsettled_changed P _ Hun), Hsrc. cbn [negb].
    destruct (negb (isExternalModule sf
                    || BuilderFileInfo.containsOnlyAmbientModules sf)).
    + inversion Hrun; subst. cbn [orb]. eauto.
    + cbn [orb].
      destruct (ModuleBuilder.shortCircuits (getCompilerOptions P)).
      * inversion Hrun; subst. eauto.
      * reflexivity.
  - (* a tracker is settled or not *)
    intros b. destruct (trackerOf b (path si)) as [id|] eqn:Ht.
    + destruct (sourceOf P (getNode (heap b) id)) as [sf|] eqn:Hsf.
      * destruct (truthy (lastCheckedShapeSignature (getNode (heap b) id)))
          eqn:Hl.
        -- left. intros id' Hid'. rewrite Ht in Hid'. inversion Hid'; subst id'.
           split; [congruence | exact Hl].
        -- right. exists id. split; [exact Ht | right; exact Hl].
      * right. exists id. split; [exact Ht | left; exact Hsf].
    + left. intros id Hid. rewrite Ht in Hid. discriminate.
Qed.

Lemma getFilesAffectedBy_repeated_witness :
  (exists b2,
     NonModuleBuilder.getFilesAffectedBy (Scenario.chainProject "declare c" "1")
       (Scenario.script "c.ts")
       (stateAfter (NonModuleBuilder.getFilesAffectedBy
                      (Scenario.chainProject "declare c" "1")
                      (Scenario.script "c.ts")) newBuilder)
     = Some (["c.ts"%string], b2))
  /\ (exists b2,
        ModuleBuilder.getFilesAffectedBy 0 (Scenario.chainProject "declare c" "1")
          (Scenario.script "c.ts")
          (stateAfter (ModuleBuilder.getFilesAffectedBy 3
                         (Scenario.chainProject "declare c" "1")
                         (Scenario.script "c.ts")) newBuilder)
        = Some (["c.ts"%string], b2))
  /\ (exists b2,
        NonModuleBuilder.getFilesAffectedBy Scenario.silentProject
          (Scenario.script "silent.ts")
          (stateAfter (NonModuleBuilder.getFilesAffectedBy Scenario.silentProject
                         (Scenario.script "silent.ts")) newBuilder)
        = Some (["silent.ts"; "a.ts"]%string, b2))
  /\ (exists sf,
        sourceOf Scenario.silentChainProject
          (getNode
             (heap (stateAfter (ModuleBuilder.getFilesAffectedBy 3
                                  Scenario.silentChainProject
                                  (Scenario.script "c.ts")) newBuilder)) 2)
        = Some sf).
Proof.
  destruct (getFilesAffectedBy_repeated (Scenario.chainProject "declare c" "1")
              (Scenario.script "c.ts")) as (Hflat & Hgraph & _).
  destruct (getFilesAffectedBy_repeated Scenario.silentProject
              (Scenario.script "silent.ts")) as (_ & _ & Hflat' & _).
  destruct (getFilesAffectedBy_repeated Scenario.silentChainProject
              (Scenario.script "c.ts")) as (_ & _ & _ & Hgraph' & _).
  split; [|split; [|split]].
  - apply (Hflat newBuilder
             ["a.ts"; "b.ts"; "c.ts"]%string
             (stateAfter (NonModuleBuilder.getFilesAffectedBy
                            (Scenario.chainProject "declare c" "1")
                            (Scenario.script "c.ts")) newBuilder)).
    + vm_compute; reflexivity.
    + intros id Hid. vm_compute in Hid. inversion Hid; subst id.
      split; [vm_compute; discriminate | vm_compute; reflexivity].
  - apply (Hgraph 3 0 newBuilder
             ["c.ts"; "b.ts"; "a.ts"]%string
             (stateAfter (ModuleBuilder.getFilesAffectedBy 3
                            (Scenario.chainProject "declare c" "1")
                            (Scenario.script "c.ts")) newBuilder)).
    + vm_compute; reflexivity.
    + vm_compute; reflexivity.
    + intros id Hid. vm_compute in Hid. inversion Hid; subst id.
      split; [vm_compute; discriminate | vm_compute; reflexivity].
  - apply (Hflat' newBuilder
             ["silent.ts"; "a.ts"]%string
             (stateAfter (NonModuleBuilder.getFilesAffectedBy
                            Scenario.silentProject
                            (Scenario.script "silent.ts")) newBuilder) 0).
    + vm_compute; reflexivity.
    + split; [vm_compute; reflexivity | right; vm_compute; reflexivity].
  - destruct (Hgraph' 3 3 newBuilder
                ["c.ts"; "b.ts"; "a.ts"]%string
                (stateAfter (ModuleBuilder.getFilesAffectedBy 3
                               Scenario.silentChainProject
                               (Scenario.script "c.ts")) newBuilder) 2)
      as (sf & Hsf & _).
    + vm_compute; reflexivity.
    + vm_compute; reflexivity.
    + split; [vm_compute; reflexivity | right; vm_compute; reflexivity].
    + exists sf. exact Hsf.
Defined.

(** C5 as stated fails.  In the flat scheduler, for a file whose
    declarations-only emit produces no output, the second of two calls with
    no edit in between returns all emittable files again, which is neither
    the empty list nor the trivial single-file result.  In the
    dependency-graph scheduler, for the chain in which [c.ts] is such a file,
    the first call for [c.ts] returns the three files and the second returns
    [c.ts] and [b.ts]: the walk runs again and stops at [b.ts], whose
    signature the first call stored. *)
Lemma getFilesAffectedBy_repeated_counterexample :
  option_map fst
    (NonModuleBuilder.getFilesAffectedBy Scenario.silentProject
       (Scenario.script "silent.ts")
       (stateAfter (NonModuleBuilder.getFilesAffectedBy Scenario.silentProject
                      (Scenario.script "silent.ts")) newBuilder))
  = Some ["silent.ts"; "a.ts"]%string
  /\ singleFileResult (Scenario.script "silent.ts") = ["silent.ts"%string]
  /\ option_map fst
       (ModuleBuilder.getFilesAffectedBy 3 Scenario.silentChainProject
          (Scenario.script "c.ts") newBuilder)
     = Some ["c.ts"; "b.ts"; "a.ts"]%string
  /\ option_map fst
       (ModuleBuilder.getFilesAffectedBy 3 Scenario.silentChainProject
          (Scenario.script "c.ts")
          (stateAfter (ModuleBuilder.getFilesAffectedBy 3
                         Scenario.silentChainProject
                         (Scenario.script "c.ts")) newBuilder))
     = Some ["c.ts"; "b.ts"]%string
  /\ singleFileResult (Scenario.script "c.ts") = ["c.ts"%string].
Proof. evaluate. Qed.

(* ================================================================= *)
(** ** Deleting a file from the graph *)

Lemma references_setNode h i (f : FileInfo -> FileInfo) y :
  (forall fi, references (f fi) = references fi) ->
  references (getNode (setNode h i (f (getNode h i))) y)
  = references (getNode h y).
Proof.
  intros Hf. destruct (Nat.eq_dec i y) as [->|Hne].
  - destruct (Nat.lt_ge_cases y (List.length h)) as [Hlt|Hge].
    + rewrite getNode_setNode_same by assumption. apply Hf.
    + rewrite setNode_out_of_range by assumption. reflexivity.
  - rewrite getNode_setNode_other by assumption. reflexivity.
Qed.

Lemma removeReferencedBy_references this fileInfo b b' :
  ModuleBuilderFileInfo.removeReferencedBy this fileInfo b = Some (tt, b') ->
  forall y, references (getNode (heap b') y) = references (getNode (heap b) y).
Proof.
  unfold ModuleBuilderFileInfo.removeReferencedBy, bind, gets, updateNode, modify.
  intros H y. inversion H; subst b'. simpl.
  apply references_setNode. reflexivity.
Qed.

(** Unlinking a node rewrites its own [references] and nobody else's. *)
Lemma removeFileReferences_references this b b' :
  ModuleBuilderFileInfo.removeFileReferences this b = Some (tt, b') ->
  forall y, y <> this ->
    references (getNode (heap b') y) = references (getNode (heap b) y).
Proof.
  unfold ModuleBuilderFileInfo.removeFileReferences, bind, readNode, gets.
  generalize (references (getNode (heap b) this)). intros refs.
  assert (Hloop : forall b0 b1,
            forOf refs (fun reference =>
              ModuleBuilderFileInfo.removeReferencedBy reference this) b0
            = Some (tt, b1) ->
            forall y, references (getNode (heap b1) y)
                      = references (getNode (heap b0) y)).
  { induction refs as [|r refs IH]; intros b0 b1 H y; simpl in H.
    - inversion H; reflexivity.
    - unfold bind in H.
      destruct (ModuleBuilderFileInfo.removeReferencedBy r this b0)
        as [[[] b2]|] eqn:E; [|discriminate].
      rewrite (IH _ _ H y). apply (removeReferencedBy_references _ _ _ _ E). }
  destruct (forOf refs _ b) as [[[] b1]|] eqn:E; [|discriminate].
  unfold updateNode, modify. intros H y Hy. inversion H; subst b'. simpl.
  rewrite getNode_setNode_other by auto. apply (Hloop _ _ E).
Qed.

(** C1, evaluated on the code.  Unlinking a deleted node leaves the
    [references] of every other node as they are (the lemma above), so a node
    that referenced the deleted one keeps doing so.  On the chain [a.ts]
    imports [b.ts], [b.ts] imports [c.ts]: after [b.ts]
    leaves the project and [onProjectUpdateGraph] runs, the node of [b.ts] is
    gone from the cache and from [c.ts]'s [referencedBy], but [a.ts]'s
    [references] still holds it.  When [b.ts] comes back it gets a new node
    whose [referencedBy] stays empty, whether [a.ts] is scanned again (then
    [a.ts] references the new node, which does not list [a.ts]) or not; and
    an edit of [b.ts] that changes its shape no longer reaches [a.ts], as it
    does on a graph that never lost [b.ts]. *)
Theorem deleted_file_stays_referenced :
  ModuleBuilder.onProjectUpdateGraph Scenario.chainWithoutB chainBuilt
  = Some (tt, chainAfterDelete)
  /\ trackerOf chainBuilt "b.ts"%string = Some 1
  /\ trackerOf chainAfterDelete "b.ts"%string = None
  /\ trackerOf chainAfterDelete "a.ts"%string = Some 0
  /\ trackerOf chainAfterDelete "c.ts"%string = Some 2
  /\ referencedBy (getNode (heap chainAfterDelete) 2) = []
  /\ references (getNode (heap chainAfterDelete) 0) = [1]
  /\ ModuleBuilder.onProjectUpdateGraph Scenario.chainWithBAgain chainAfterDelete
     = Some (tt, chainAfterReturn)
  /\ trackerOf chainAfterReturn "b.ts"%string = Some 3
  /\ references (getNode (heap chainAfterReturn) 0) = [1]
  /\ referencedBy (getNode (heap chainAfterReturn) 3) = []
  /\ ModuleBuilder.onProjectUpdateGraph Scenario.chainWithBAgainTouched
       chainAfterDelete
     = Some (tt, chainAfterReturnTouched)
  /\ trackerOf chainAfterReturnTouched "b.ts"%string = Some 3
  /\ references (getNode (heap chainAfterReturnTouched) 0) = [3]
  /\ referencedBy (getNode (heap chainAfterReturnTouched) 3) = []
  /\ option_map fst
       (ModuleBuilder.getFilesAffectedBy 3 (Scenario.chainWithBEdited "1")
          (Scenario.script "b.ts") chainAfterReturn)
     = Some ["b.ts"%string]
  /\ option_map fst
       (ModuleBuilder.getFilesAffectedBy 3 (Scenario.chainWithBEdited "2")
          (Scenario.script "b.ts") chainAfterReturnTouched)
     = Some ["b.ts"%string]
  /\ option_map fst
       (ModuleBuilder.getFilesAffectedBy 3 (Scenario.chainWithBEdited "1")
          (Scenario.script "b.ts") chainBuilt)
     = Some ["b.ts"; "a.ts"]%string.
Proof. evaluate. Qed.

(* ================================================================= *)
(** ** Termination of the propagation walk *)

Lemma list_sum_map_le {A} (f g : A -> nat) l :
  (forall x, In x l -> g x <= f x) ->
  list_sum (map g l) <= list_sum (map f l).
Proof.
  induction l as [|x l IH]; intros H; simpl; auto.
  assert (Hx := H x (or_introl eq_refl)).
  assert (IH' := IH (fun y Hy => H y (or_intror Hy))). lia.
Qed.

Lemma list_sum_map_drop {A} (f g : A -> nat) l x0 :
  (forall x, In x l -> g x <= f x) -> In x0 l -> g x0 = 0 ->
  list_sum (map g l) + f x0 <= list_sum (map f l).
Proof.
  induction l as [|x l IH]; intros H Hin Hg; simpl; [destruct Hin|].
  assert (Hle := list_sum_map_le f g l (fun y Hy => H y (or_intror Hy))).
  destruct Hin as [->|Hin].
  - rewrite Hg. lia.
  - assert (Hx := H x (or_introl eq_refl)).
    assert (IH' := IH (fun y Hy => H y (or_intror Hy)) Hin Hg). lia.
Qed.

Lemma pendingEdges_step_le P h s t v :
  pendingEdges (stepHeap P h t) (JsMap.set s (nameOf h t) v) <= pendingEdges h s.
Proof.
  unfold pendingEdges. rewrite stepHeap_length.
  apply list_sum_map_le. intros x _.
  rewrite stepHeap_visited, stepHeap_referencedBy.
  destruct (visited h s x) eqn:E.
  - rewrite (visited_set_mono _ _ _ _ _ E). lia.
  - destruct (visited h (JsMap.set s (nameOf h t) v) x); lia.
Qed.

Lemma pendingEdges_step_drop P h s t v :
  t < List.length h -> visited h s t = false ->
  pendingEdges (stepHeap P h t) (JsMap.set s (nameOf h t) v)
  + List.length (referencedBy (getNode h t))
  <= pendingEdges h s.
Proof.
  intros Ht Hv. unfold pendingEdges. rewrite stepHeap_length.
  set (f := fun n => if visited h s n then 0
                     else List.length (referencedBy (getNode h n))).
  set (g := fun n =>
              if visited (stepHeap P h t) (JsMap.set s (nameOf h t) v) n then 0
              else List.length (referencedBy (getNode (stepHeap P h t) n))).
  assert (Hf : f t = List.length (referencedBy (getNode h t)))
    by (unfold f; rewrite Hv; reflexivity).
  rewrite <- Hf. apply (list_sum_map_drop f g).
  - intros x _. unfold f, g. rewrite stepHeap_visited, stepHeap_referencedBy.
    destruct (visited h s x) eqn:E.
    + rewrite (visited_set_mono _ _ _ _ _ E). lia.
    + destruct (visited h (JsMap.set s (nameOf h t) v) x); lia.
  - apply in_seq. lia.
  - unfold g. rewrite stepHeap_visited, visited_set_self. reflexivity.
Qed.

Lemma pushed_length P h s t :
  List.length (pushed P h s t) <= List.length (referencedBy (getNode h t)).
Proof.
  unfold pushed. destruct (shapeChanged P (getNode h t)); simpl; [|lia].
  rewrite length_rev. apply List.filter_length_le.
Qed.

Lemma returnsWithin_more P fuel0 fuel1 q s b :
  fuel0 <= fuel1 -> returnsWithin P fuel0 q s b -> returnsWithin P fuel1 q s b.
Proof. intros Hle H fuel Hf. apply H. lia. Qed.

Lemma walk_returns_bounded P :
  forall n q s b,
    closedStore (heap b) ->
    distinctNames (heap b) ->
    (forall x, In x q -> x < List.length (heap b)) ->
    everySignatureSettles P (heap b) ->
    visitedSettled P (heap b) s ->
    List.length q + pendingEdges (heap b) s <= n ->
    returnsWithin P n q s b.
Proof.
  induction n as [|n IH]; intros q s b Hclosed Hnames Hq Hsettles Hvis Hn;
    (destruct q as [|t rest];
     [apply (returnsWithin_more P 0); [lia | apply returnsWithin_nil]|]).
  - change (List.length (t :: rest)) with (S (List.length rest)) in Hn. lia.
  - assert (Ht : t < List.length (heap b)) by (apply Hq; left; reflexivity).
    apply returnsWithin_step. apply IH; simpl.
    + intros x m Hx Hin. rewrite stepHeap_length in *.
      rewrite stepHeap_referencedBy in Hin. eapply Hclosed; eauto.
    + intros x m Hx Hm. rewrite stepHeap_length in *.
      rewrite !stepHeap_nameOf. apply Hnames; assumption.
    + intros x Hin. rewrite stepHeap_length.
      apply in_app_or in Hin. destruct Hin as [Hin|Hin].
      * apply pushed_unvisited in Hin. destruct Hin as (_ & Hin & _).
        eapply Hclosed; eauto.
      * apply Hq. right; assumption.
    + intros x Hx. rewrite stepHeap_length in Hx. rewrite stepHeap_getNode.
      destruct (Nat.eqb x t && (t <? List.length (heap b))) eqn:E.
      * rewrite refreshed_idem. apply Hsettles; assumption.
      * apply Hsettles; assumption.
    + intros x Hx Hv. rewrite stepHeap_length in Hx.
      rewrite stepHeap_visited in Hv. rewrite stepHeap_getNode.
      destruct (Nat.eqb x t && (t <? List.length (heap b))) eqn:E.
      * apply Hsettles; assumption.
      * apply Hvis; [assumption|].
        rewrite visited_set in Hv. apply orb_true_iff in Hv.
        destruct Hv as [Hv|Hv]; [|assumption].
        apply String.eqb_eq in Hv.
        assert (t = x) by (apply Hnames; assumption). subst x.
        rewrite Nat.eqb_refl in E. simpl in E.
        apply Nat.ltb_ge in E. lia.
    + rewrite length_app.
      change (List.length (t :: rest)) with (S (List.length rest)) in Hn.
      destruct (visited (heap b) s t) eqn:Ev.
      * assert (Hnone : pushed P (heap b) s t = []).
        { unfold pushed. rewrite (Hvis t Ht Ev). reflexivity. }
        rewrite Hnone. simpl.
        pose proof (pendingEdges_step_le P (heap b) s t
                      (scriptInfo (getNode (heap b) t))).
        unfold NodeId in *. lia.
      * pose proof (pendingEdges_step_drop P (heap b) s t
                      (scriptInfo (getNode (heap b) t)) Ht Ev).
        pose proof (pushed_length P (heap b) s t).
        unfold NodeId in *. lia.
Qed.

(** *** A bound that needs no settled signature *)

Lemma entersBefore_app_in m t l rest :
  In m l -> ~ In t l -> entersBefore m t (l ++ rest) = true.
Proof.
  induction l as [|x l IH]; intros Hm Ht; [destruct Hm|]. simpl.
  destruct (Nat.eqb x m) eqn:Em; [reflexivity|].
  destruct (Nat.eqb x t) eqn:Et.
  - apply Nat.eqb_eq in Et. exfalso. apply Ht. left; exact Et.
  - apply IH.
    + destruct Hm as [Hm|Hm]; [|exact Hm].
      apply Nat.eqb_neq in Em. contradiction.
    + intros H. apply Ht. right; exact H.
Qed.

Lemma entersBefore_app_keep m t l rest :
  ~ In t l -> entersBefore m t rest = true -> entersBefore m t (l ++ rest) = true.
Proof.
  induction l as [|x l IH]; intros Ht Hr; [exact Hr|]. simpl.
  destruct (Nat.eqb x m); [reflexivity|].
  destruct (Nat.eqb x t) eqn:Et.
  - apply Nat.eqb_eq in Et. exfalso. apply Ht. left; exact Et.
  - apply IH; [|exact Hr]. intros H. apply Ht. right; exact H.
Qed.

Lemma visited_not_pushed P h s t n :
  visited h s n = true -> ~ In n (pushed P h s t).
Proof.
  intros Hv Hin. apply pushed_unvisited in Hin. destruct Hin as [Hn _].
  congruence.
Qed.

(** A visited node that is covered stays covered. *)
Lemma covered_step P h s t rest v n :
  visited h s n = true ->
  covered h s (t :: rest) n = true ->
  covered (stepHeap P h t) (JsMap.set s (nameOf h t) v)
    (pushed P h s t ++ rest) n = true.
Proof.
  intros Hn Hc. unfold covered in *. rewrite stepHeap_referencedBy.
  rewrite forallb_forall in *. intros m Hm. specialize (Hc m Hm).
  rewrite stepHeap_visited.
  apply orb_true_iff in Hc. apply orb_true_iff. destruct Hc as [Hc|Hc].
  - left. apply visited_set_mono; exact Hc.
  - simpl in Hc. destruct (Nat.eqb t m) eqn:Em.
    + apply Nat.eqb_eq in Em. subst m. left. apply visited_set_self.
    + destruct (Nat.eqb t n); [discriminate|]. right.
      apply entersBefore_app_keep; [|exact Hc].
      apply visited_not_pushed; exact Hn.
Qed.

(** A visited node that pushes is covered afterwards. *)
Lemma covered_after_push P h s t rest v :
  visited h s t = true ->
  shapeChanged P (getNode h t) = true ->
  covered (stepHeap P h t) (JsMap.set s (nameOf h t) v)
    (pushed P h s t ++ rest) t = true.
Proof.
  intros Ht Hch. unfold covered. rewrite stepHeap_referencedBy.
  rewrite forallb_forall. intros m Hm. rewrite stepHeap_visited.
  apply orb_true_iff. destruct (visited h s m) eqn:Em.
  - left. apply visited_set_mono; exact Em.
  - right. apply entersBefore_app_in.
    + unfold pushed. rewrite Hch. rewrite <- in_rev. apply filter_In.
      split; [exact Hm | rewrite Em; reflexivity].
    + apply visited_not_pushed; exact Ht.
Qed.

Lemma walkWeight_step_le P h s t rest v n :
  walkWeight (stepHeap P h t) (JsMap.set s (nameOf h t) v)
    (pushed P h s t ++ rest) n
  <= walkWeight h s (t :: rest) n.
Proof.
  unfold walkWeight. rewrite stepHeap_visited, stepHeap_referencedBy.
  destruct (visited h s n) eqn:En.
  - rewrite (visited_set_mono _ _ _ _ _ En).
    destruct (covered h s (t :: rest) n) eqn:Ec.
    + rewrite (covered_step P h s t rest v n En Ec). lia.
    + match goal with |- context [if ?c then _ else _] => destruct c end; lia.
  - repeat match goal with
           | |- context [if ?c then _ else _] => destruct c
           end; lia.
Qed.

(** The processed node pays for what it pushes. *)
Lemma walkWeight_step_pay P h s t rest v :
  walkWeight (stepHeap P h t) (JsMap.set s (nameOf h t) v)
    (pushed P h s t ++ rest) t
  + List.length (pushed P h s t)
  <= walkWeight h s (t :: rest) t.
Proof.
  pose proof (pushed_length P h s t) as Hlen.
  destruct (pushed P h s t) as [|m l] eqn:Hp.
  - pose proof (walkWeight_step_le P h s t rest v t) as Hle.
    rewrite Hp in Hle. cbn [app List.length] in *. lia.
  - rewrite <- Hp in *.
    assert (Hin : In m (pushed P h s t)) by (rewrite Hp; left; reflexivity).
    apply pushed_unvisited in Hin. destruct Hin as (Hm & Hedge & Hch).
    unfold walkWeight at 2. unfold walkWeight at 1.
    rewrite stepHeap_visited, stepHeap_referencedBy, visited_set_self.
    destruct (visited h s t) eqn:Et.
    + rewrite (covered_after_push P h s t rest v Et Hch).
      destruct (covered h s (t :: rest) t) eqn:Ec; [|lia].
      exfalso. unfold covered in Ec. rewrite forallb_forall in Ec.
      specialize (Ec m Hedge). rewrite Hm in Ec. simpl in Ec.
      destruct (Nat.eqb t m) eqn:Em.
      * apply Nat.eqb_eq in Em. subst m. congruence.
      * rewrite Nat.eqb_refl in Ec. discriminate.
    + match goal with |- context [if ?c then _ else _] => destruct c end; lia.
Qed.

Lemma list_sum_map_pay {A} (f g : A -> nat) l x0 c :
  (forall x, In x l -> g x <= f x) -> In x0 l -> g x0 + c <= f x0 ->
  list_sum (map g l) + c <= list_sum (map f l).
Proof.
  induction l as [|x l IH]; intros H Hin Hpay; simpl; [destruct Hin|].
  assert (Hle := list_sum_map_le f g l (fun y Hy => H y (or_intror Hy))).
  destruct Hin as [->|Hin].
  - lia.
  - assert (Hx := H x (or_introl eq_refl)).
    assert (IH' := IH (fun y Hy => H y (or_intror Hy)) Hin Hpay). lia.
Qed.

(** Every iteration of the walk lowers the potential, over any list of nodes
    that holds the processed node unless that one has no reverse edge. *)
Lemma walkPotentialOn_step P dom h s t rest v :
  In t dom \/ referencedBy (getNode h t) = [] ->
  walkPotentialOn dom (stepHeap P h t) (JsMap.set s (nameOf h t) v)
    (pushed P h s t ++ rest)
  + 1 <= walkPotentialOn dom h s (t :: rest).
Proof.
  intros Ht. unfold walkPotentialOn. rewrite length_app.
  change (List.length (t :: rest)) with (S (List.length rest)).
  set (f := walkWeight h s (t :: rest)).
  set (g := walkWeight (stepHeap P h t) (JsMap.set s (nameOf h t) v)
              (pushed P h s t ++ rest)).
  assert (Hsum : list_sum (map g dom) + List.length (pushed P h s t)
                 <= list_sum (map f dom)).
  { destruct Ht as [Hin|Hnone].
    - apply (list_sum_map_pay f g _ t).
      + intros x _. apply walkWeight_step_le.
      + exact Hin.
      + apply walkWeight_step_pay.
    - pose proof (pushed_length P h s t) as Hlen.
      rewrite Hnone in Hlen. simpl in Hlen.
      assert (Hle : list_sum (map g dom) <= list_sum (map f dom)).
      { apply list_sum_map_le. intros x _. apply walkWeight_step_le. }
      lia. }
  unfold NodeId in *. lia.
Qed.

(** What the walk can get to after an iteration, it could get to before. *)
Lemma reaches_step P h s t rest x :
  reaches (stepHeap P h t) (pushed P h s t ++ rest) x ->
  reaches h (t :: rest) x.
Proof.
  intros Hx. induction Hx as [n Hn|n m _ IH Hm].
  - apply in_app_or in Hn. destruct Hn as [Hn|Hn].
    + apply pushed_unvisited in Hn. destruct Hn as (_ & Hn & _).
      apply (@reaches_edge h (t :: rest) t n); [|exact Hn].
      apply reaches_queue. left; reflexivity.
    + apply reaches_queue. right; exact Hn.
  - rewrite stepHeap_referencedBy in Hm.
    apply (@reaches_edge h (t :: rest) n m IH Hm).
Qed.

Lemma walk_returns_potential P dom :
  forall n q s b,
    (forall x, reaches (heap b) q x ->
               In x dom \/ referencedBy (getNode (heap b) x) = []) ->
    walkPotentialOn dom (heap b) s q <= n -> returnsWithin P n q s b.
Proof.
  induction n as [|n IH]; intros q s b Hdom Hn;
    (destruct q as [|t rest];
     [apply (returnsWithin_more P 0); [lia | apply returnsWithin_nil]|]).
  - unfold walkPotentialOn in Hn.
    change (List.length (t :: rest)) with (S (List.length rest)) in Hn. lia.
  - apply returnsWithin_step. apply IH.
    + intros x Hx. simpl in Hx. apply reaches_step in Hx.
      simpl. rewrite stepHeap_referencedBy. apply Hdom; exact Hx.
    + assert (Ht : reaches (heap b) (t :: rest) t)
        by (apply reaches_queue; left; reflexivity).
      pose proof (walkPotentialOn_step P dom (heap b) s t rest
                    (scriptInfo (getNode (heap b) t)) (Hdom t Ht)) as Hstep.
      simpl. lia.
Qed.

Lemma walkPotentialOn_bound dom h s q :
  walkPotentialOn dom h s q <= List.length q + 2 * edgesOf h dom.
Proof.
  unfold walkPotentialOn, edgesOf.
  assert (H : list_sum (map (walkWeight h s q) dom)
              <= 2 * list_sum (map (fun n => List.length
                                               (referencedBy (getNode h n))) dom)).
  { induction dom as [|x l IH]; simpl; [lia|].
    assert (Hx : walkWeight h s q x
                 <= 2 * List.length (referencedBy (getNode h x))).
    { unfold walkWeight. destruct (visited h s x);
        [destruct (covered h s q x)|]; lia. }
    lia. }
  lia.
Qed.

(** C6, as the code has it.  The walk returns on every queue, name set and
    store, whatever the shape of the [referencedBy] graph, cycles included.
    One iteration marks the processed node visited and puts on the queue only
    reverse dependencies that are not visited at that moment; a node is
    marked when it is dequeued, not when it is enqueued, so it can be on the
    queue more than once.  Whatever the signatures do, the number of
    iterations is at most the length of the queue plus twice the number of
    reverse edges out of the nodes listed in [dom], for every list [dom] that
    holds the nodes the walk can get to (the queue and what is reached from it
    along [referencedBy]); with no assumption at all, it is at most the length
    of the queue plus twice the number of reverse edges of the store.  When
    every file info gets a non-empty signature, it is at most the length of
    the queue plus the number of reverse edges out of the unvisited nodes. *)
Theorem walk_terminates P :
  (forall q s b, exists fuel0, returnsWithin P fuel0 q s b)
  /\ (forall t q s b q' s' b',
        ModuleBuilder.walkStep P t q s b = Some ((q', s'), b') ->
        visited (heap b') s' t = true
        /\ exists new,
             q' = new ++ q
             /\ forall m, In m new ->
                  visited (heap b) s m = false
                  /\ In m (referencedBy (getNode (heap b) t)))
  /\ (forall dom q s b,
        (forall x, reaches (heap b) q x -> In x dom) ->
        returnsWithin P (List.length q + 2 * edgesOf (heap b) dom) q s b)
  /\ (forall q s b,
        returnsWithin P (List.length q + 2 * reverseEdges (heap b)) q s b)
  /\ (forall q s b,
        closedStore (heap b) ->
        distinctNames (heap b) ->
        (forall x, In x q -> x < List.length (heap b)) ->
        everySignatureSettles P (heap b) ->
        visitedSettled P (heap b) s ->
        returnsWithin P (List.length q + pendingEdges (heap b) s) q s b).
Proof.
  split; [apply walk_returns|]. split; [|split; [|split]].
  - intros t q s b q' s' b' Hstep.
    rewrite walkStep_spec in Hstep. inversion Hstep; subst q' s' b'. split.
    + simpl. rewrite stepHeap_visited. apply visited_set_self.
    + exists (pushed P (heap b) s t). split; [reflexivity|].
      intros m Hin. apply pushed_unvisited in Hin. tauto.
  - intros dom q s b Hdom. apply (walk_returns_potential P dom).
    + intros x Hx. left. apply Hdom; exact Hx.
    + apply walkPotentialOn_bound.
  - intros q s b. unfold reverseEdges.
    apply (walk_returns_potential P (seq 0 (List.length (heap b)))).
    + intros x _.
      destruct (Nat.lt_ge_cases x (List.length (heap b))) as [Hlt|Hge].
      * left. apply in_seq. lia.
      * right. rewrite (getNode_out_of_range _ _ Hge). reflexivity.
    + apply walkPotentialOn_bound.
  - intros q s b Hclosed Hnames Hq Hsettles Hvis.
    apply walk_returns_bounded; auto.
Qed.

Lemma walk_terminates_witness :
  returnsWithin Scenario.diamondProject 3 [2; 1]
    (JsMap.set [] "a.ts"%string (Scenario.script "a.ts"))
    (afterUpdate Scenario.diamondProject 0 diamondBuilt)
  /\ returnsWithin Scenario.diamondProject 4 [2; 1]
       (JsMap.set [] "a.ts"%string (Scenario.script "a.ts"))
       (afterUpdate Scenario.diamondProject 0 diamondBuilt).
Proof.
  destruct (walk_terminates Scenario.diamondProject)
    as (_ & _ & Hreach & _ & Hbound).
  split.
  - apply returnsWithin_more
      with (fuel0 := List.length [2; 1]
                     + pendingEdges
                         (heap (afterUpdate Scenario.diamondProject 0 diamondBuilt))
                         (JsMap.set [] "a.ts"%string (Scenario.script "a.ts")));
      [vm_compute; lia|].
    apply (Hbound [2; 1]
             (JsMap.set [] "a.ts"%string (Scenario.script "a.ts"))
             (afterUpdate Scenario.diamondProject 0 diamondBuilt)).
    + apply closedStoreb_sound. vm_compute; reflexivity.
    + apply distinctNamesb_sound. vm_compute; reflexivity.
    + intros x [<-|[<-|[]]]; vm_compute; lia.
    + intros x Hx. vm_compute in Hx.
      destruct x as [|[|[|x]]]; [vm_compute; reflexivity .. | lia].
    + intros x Hx Hv. vm_compute in Hx.
      destruct x as [|[|[|x]]];
        [vm_compute; reflexivity | vm_compute in Hv; discriminate
         | vm_compute in Hv; discriminate | lia].
  - apply returnsWithin_more
      with (fuel0 := List.length [2; 1]
                     + 2 * edgesOf
                             (heap (afterUpdate Scenario.diamondProject 0
                                      diamondBuilt)) [2; 1]);
      [vm_compute; lia|].
    apply (Hreach [2; 1] [2; 1]).
    intros x Hx. induction Hx as [n Hn|n m _ IH Hm]; [exact Hn|].
    destruct IH as [<-|[<-|[]]]; vm_compute in Hm.
    + destruct Hm as [<-|[]]. right; left; reflexivity.
    + destruct Hm.
Defined.

(** C6 as stated fails: in the diamond ([b.ts] imports [a.ts] and [c.ts],
    [c.ts] imports [a.ts]) the walk for [a.ts] starts with [c.ts] and
    [b.ts] on the queue; processing [c.ts] enqueues [b.ts] a second time, and
    over the whole call the declarations of [b.ts] are requested twice. *)
Lemma walk_terminates_counterexample :
  referencedBy (getNode (heap diamondBuilt) 0) = [1; 2]
  /\ option_map (fun r => fst (fst r))
       (ModuleBuilder.walkStep Scenario.diamondProject 2 [1]
          (JsMap.set [] "a.ts"%string (Scenario.script "a.ts"))
          (afterUpdate Scenario.diamondProject 0 diamondBuilt))
     = Some [1; 1]
  /\ option_map
       (fun r => List.length
                   (filter (fun e => match e with
                                     | EmitOutputRequested si true =>
                                         String.eqb (fileName si) "b.ts"%string
                                     | _ => false
                                     end)
                           (events (snd r))))
       (ModuleBuilder.getFilesAffectedBy 4 Scenario.diamondProject
          (Scenario.script "a.ts") newBuilder)
     = Some 2.
Proof. evaluate. Qed.

(* ================================================================= *)
(** ** Relations that every step of the graph maintenance respects *)

Section Respecting.
Variable R : Builder -> Builder -> Prop.
Hypothesis R_refl : forall b, R b b.
Hypothesis R_trans : forall b1 b2 b3, R b1 b2 -> R b2 b3 -> R b1 b3.
Hypothesis R_cell : forall b id f,
  keepsIdentity f ->
  R b (withHeap (setNode (heap b) id (f (getNode (heap b) id))) b).
Hypothesis R_event : forall b e,
  R b (mkBuilder (heap b) (fileInfos_doNotAccessDirectly b)
                 (projectVersionForDependencyGraph b) (events b ++ [e])).
Hypothesis R_materialized : forall b, R b (materialized b).
Variable P : Project.
Hypothesis R_create : forall p, respects R (AbstractBuilder.getOrCreateFileInfo P p).

Lemma respects_ret {A} (a : A) : respects R (ret a).
Proof. intros b x b' H; inversion H; subst; apply R_refl. Qed.

Lemma respects_bind {A B} (m : M A) (f : A -> M B) :
  respects R m -> (forall a, respects R (f a)) -> respects R (bind m f).
Proof.
  intros Hm Hf b x b' H. unfold bind in H.
  destruct (m b) as [[a b1]|] eqn:E; [|discriminate].
  eapply R_trans; [eapply Hm; eauto | eapply Hf; eauto].
Qed.

Lemma respects_gets {A} (f : Builder -> A) : respects R (gets f).
Proof. intros b x b' H; inversion H; subst; apply R_refl. Qed.

Lemma respects_forOf {A} (xs : list A) (body : A -> M unit) :
  (forall x, respects R (body x)) -> respects R (forOf xs body).
Proof.
  intros Hb. induction xs as [|x xs IH]; simpl.
  - apply respects_ret.
  - apply respects_bind; auto.
Qed.

Lemma respects_mapM {A B} (f : A -> M B) (xs : list A) :
  (forall x, respects R (f x)) -> respects R (mapM f xs).
Proof.
  intros Hf. induction xs as [|x xs IH]; simpl.
  - apply respects_ret.
  - apply respects_bind; auto. intros y.
    apply respects_bind; auto. intros ys. apply respects_ret.
Qed.

Lemma respects_enumerateInsertsAndDeletes {T} (newItems oldItems : list T)
    inserted deleted compare :
  (forall x, respects R (inserted x)) -> (forall x, respects R (deleted x)) ->
  respects R (enumerateInsertsAndDeletes newItems oldItems inserted deleted compare).
Proof.
  intros Hi Hd. revert oldItems.
  induction newItems as [|n ns IHn]; intros oldItems.
  - induction oldItems as [|o os IHo]; simpl.
    + apply respects_ret.
    + apply respects_bind; auto.
  - induction oldItems as [|o os IHo].
    + simpl. apply respects_bind; auto.
    + simpl. destruct (compare n o).
      * apply IHn.
      * apply respects_bind; auto.
      * apply respects_bind; auto.
Qed.

Lemma respects_updateNode id f : keepsIdentity f -> respects R (updateNode id f).
Proof. intros Hf b x b' H. inversion H; subst. apply R_cell; assumption. Qed.

Lemma respects_emitEvent e : respects R (emitEvent e).
Proof. intros b x b' H. inversion H; subst. apply R_event. Qed.

Lemma respects_getFileInfos : respects R AbstractBuilder.getFileInfos.
Proof.
  intros b a b' H. rewrite getFileInfos_spec in H. inversion H; subst.
  apply R_materialized.
Qed.

Lemma respects_getFileInfo p : respects R (AbstractBuilder.getFileInfo p).
Proof.
  apply respects_bind; [apply respects_getFileInfos | intros; apply respects_ret].
Qed.

Lemma respects_project_getReferencedFiles p :
  respects R (project_getReferencedFiles P p).
Proof.
  apply respects_bind; [apply respects_emitEvent | intros; apply respects_ret].
Qed.

Lemma respects_project_getFileEmitOutput si dts :
  respects R (project_getFileEmitOutput P si dts).
Proof.
  apply respects_bind; [apply respects_emitEvent | intros; apply respects_ret].
Qed.

Lemma respects_isExternalModuleOrHasOnlyAmbientExternalModules id :
  respects R (BuilderFileInfo.isExternalModuleOrHasOnlyAmbientExternalModules P id).
Proof.
  intros b a b' H.
  rewrite isExternalModuleOrHasOnlyAmbientExternalModules_spec in H.
  destruct (sourceOf P (getNode (heap b) id)); inversion H; subst.
  apply R_refl.
Qed.

Lemma keepsIdentity_setReferencedBy l :
  keepsIdentity (ModuleBuilderFileInfo.setReferencedBy l).
Proof. intros fi; split; reflexivity. Qed.

Lemma keepsIdentity_setReferences l :
  keepsIdentity (ModuleBuilderFileInfo.setReferences l).
Proof. intros fi; split; reflexivity. Qed.

Lemma respects_addReferencedBy this fileInfo :
  respects R (ModuleBuilderFileInfo.addReferencedBy this fileInfo).
Proof.
  apply respects_bind; [apply respects_gets|]. intros h.
  apply respects_updateNode. intros fi; split; reflexivity.
Qed.

Lemma respects_removeReferencedBy this fileInfo :
  respects R (ModuleBuilderFileInfo.removeReferencedBy this fileInfo).
Proof.
  apply respects_bind; [apply respects_gets|]. intros h.
  apply respects_updateNode. intros fi; split; reflexivity.
Qed.

Lemma respects_removeFileReferences this :
  respects R (ModuleBuilderFileInfo.removeFileReferences this).
Proof.
  apply respects_bind; [apply respects_gets|]. intros fi.
  apply respects_bind.
  - apply respects_forOf. intros; apply respects_removeReferencedBy.
  - intros _. apply respects_updateNode. apply keepsIdentity_setReferences.
Qed.

Lemma respects_getReferencedFileInfos id :
  respects R (ModuleBuilder.getReferencedFileInfos P id).
Proof.
  apply respects_bind;
    [apply respects_isExternalModuleOrHasOnlyAmbientExternalModules|].
  intros isModule. destruct (negb isModule); [apply respects_ret|].
  apply respects_bind; [apply respects_gets|]. intros fi.
  apply respects_bind; [apply respects_project_getReferencedFiles|]. intros ps.
  apply respects_bind; [apply respects_mapM; intros; apply R_create|].
  intros infos.
  apply respects_bind; [apply respects_gets | intros; apply respects_ret].
Qed.

Lemma respects_updateFileReferences id :
  respects R (ModuleBuilder.updateFileReferences P id).
Proof.
  apply respects_bind; [apply respects_gets|]. intros fi.
  destruct (strictEq _ _); [apply respects_ret|].
  apply respects_bind; [apply respects_getReferencedFileInfos|]. intros newRefs.
  apply respects_bind; [apply respects_gets|]. intros fi'.
  apply respects_bind; [apply respects_gets|]. intros h.
  apply respects_bind.
  - apply respects_enumerateInsertsAndDeletes; intros.
    + apply respects_addReferencedBy.
    + apply respects_removeReferencedBy.
  - intros _. apply respects_updateNode. intros x; split; reflexivity.
Qed.

(** The first loop of the refresh: a node and fresh references for every
    script of the project. *)
Lemma respects_scan (scripts : list ScriptInfo) :
  respects R
    (forOf scripts (fun scriptInfo =>
       bind (AbstractBuilder.getOrCreateFileInfo P (path scriptInfo))
            (fun fileInfo => ModuleBuilder.updateFileReferences P fileInfo))).
Proof.
  apply respects_forOf. intros si.
  apply respects_bind; [apply R_create|].
  intros; apply respects_updateFileReferences.
Qed.

Hypothesis R_remove : forall p, respects R (AbstractBuilder.removeFileInfo p).
Hypothesis R_version : forall b v, R b (withProjectVersion v b).

Lemma respects_forEachFileInfo action :
  (forall id, respects R (action id)) ->
  respects R (AbstractBuilder.forEachFileInfo action).
Proof.
  intros Ha. apply respects_bind; [apply respects_getFileInfos|]. intros m.
  apply respects_forOf. intros entry.
  apply respects_bind; [apply respects_getFileInfos|]. intros cur.
  destruct (JsMap.get cur (fst entry)); [apply Ha | apply respects_ret].
Qed.

Lemma respects_ensureProjectDependencyGraphUpToDate :
  respects R (ModuleBuilder.ensureProjectDependencyGraphUpToDate P).
Proof.
  apply respects_bind; [apply respects_gets|]. intros seen.
  destruct (_ || _); [|apply respects_ret].
  apply respects_bind; [apply respects_scan|].
  intros _. apply respects_bind.
  { apply respects_forEachFileInfo. intros id.
    apply respects_bind; [apply respects_gets|]. intros fi.
    destruct (negb _); [|apply respects_ret].
    apply respects_bind; [apply respects_removeFileReferences|].
    intros; apply R_remove. }
  intros _ b x b' H. inversion H; subst. apply R_version.
Qed.

Lemma respects_module_onProjectUpdateGraph :
  respects R (ModuleBuilder.onProjectUpdateGraph P).
Proof.
  apply respects_bind; [apply respects_gets|]. intros has.
  destruct has; [apply respects_ensureProjectDependencyGraphUpToDate
                | apply respects_ret].
Qed.

Lemma respects_flat_onProjectUpdateGraph :
  respects R (NonModuleBuilder.onProjectUpdateGraph P).
Proof.
  apply respects_bind; [apply respects_gets|]. intros has.
  destruct has; [|apply respects_ret].
  apply respects_forEachFileInfo. intros id.
  apply respects_bind; [apply respects_gets|]. intros fi.
  destruct (negb _); [apply R_remove | apply respects_ret].
Qed.

Lemma respects_emitFile ensure si :
  respects R (ensure P si) ->
  respects R (AbstractBuilder.emitFile ensure P si).
Proof.
  intros He. apply respects_bind; [exact He|]. intros _.
  apply respects_bind; [apply respects_getFileInfo|]. intros [id|];
    [|apply respects_ret].
  apply respects_bind; [apply respects_gets|]. intros fi.
  apply respects_bind; [apply respects_project_getFileEmitOutput|]. intros output.
  apply respects_bind; [|intros; apply respects_ret].
  destruct (negb (emitSkipped output)); [|apply respects_ret].
  apply respects_forOf. intros o. apply respects_emitEvent.
Qed.

Lemma respects_flat_ensureFileInfoIfInProject si :
  respects R (NonModuleBuilder.ensureFileInfoIfInProject P si).
Proof.
  unfold NonModuleBuilder.ensureFileInfoIfInProject.
  destruct (containsScriptInfo P si); [|apply respects_ret].
  apply respects_bind; [apply R_create | intros; apply respects_ret].
Qed.

End Respecting.

(* ================================================================= *)
(** ** Signatures and script infos outlive the graph maintenance *)

Lemma keepsTrackers_refl b : keepsTrackers b b.
Proof. split; auto. Qed.

Lemma keepsTrackers_trans b1 b2 b3 :
  keepsTrackers b1 b2 -> keepsTrackers b2 b3 -> keepsTrackers b1 b3.
Proof.
  intros [L1 H1] [L2 H2]. split; [lia|].
  intros x Hx. destruct (H1 x Hx) as [A1 B1].
  destruct (H2 x) as [A2 B2]; [lia|]. split; congruence.
Qed.

Lemma keepsTrackers_same_heap b b' : heap b' = heap b -> keepsTrackers b b'.
Proof. intros E. unfold keepsTrackers. rewrite E. auto. Qed.

Lemma keepsTrackers_cell b id f :
  keepsIdentity f ->
  keepsTrackers b (withHeap (setNode (heap b) id (f (getNode (heap b) id))) b).
Proof.
  intros Hf. split; simpl.
  - rewrite setNode_length. lia.
  - intros x Hx. destruct (Nat.eq_dec id x) as [->|Hne].
    + rewrite getNode_setNode_same by assumption. apply Hf.
    + rewrite getNode_setNode_other by assumption. auto.
Qed.

Lemma getNode_app h fi x : x < List.length h -> getNode (h ++ [fi]) x = getNode h x.
Proof. intros Hx. unfold getNode. apply app_nth1. assumption. Qed.

Lemma getNode_app_new h fi : getNode (h ++ [fi]) (List.length h) = fi.
Proof. unfold getNode. rewrite app_nth2, Nat.sub_diag by lia. reflexivity. Qed.

(** [getOrCreateFileInfo], spelled out. *)
Lemma getOrCreateFileInfo_spec P p b :
  AbstractBuilder.getOrCreateFileInfo P p b =
  match trackerOf b p with
  | Some id => Some (id, materialized b)
  | None =>
      Some (List.length (heap b),
            withFileInfos
              (Some (JsMap.set (fileInfosOf b) p (List.length (heap b))))
              (withHeap (heap b ++ [newFileInfo (getScriptInfo P p)])
                        (materialized b)))
  end.
Proof.
  unfold AbstractBuilder.getOrCreateFileInfo, bind.
  rewrite getFileInfo_spec.
  destruct (trackerOf b p); [reflexivity|].
  unfold allocNode, AbstractBuilder.setFileInfo, bind, ret, modify.
  rewrite getFileInfos_spec. reflexivity.
Qed.

Lemma keepsTrackers_create P p :
  respects keepsTrackers (AbstractBuilder.getOrCreateFileInfo P p).
Proof.
  intros b id b' H. rewrite getOrCreateFileInfo_spec in H.
  destruct (trackerOf b p).
  - inversion H; subst. apply keepsTrackers_same_heap. reflexivity.
  - inversion H; subst. split; simpl.
    + rewrite length_app. lia.
    + intros x Hx. rewrite getNode_app by assumption. auto.
Qed.

Lemma keepsTrackers_remove p :
  respects keepsTrackers (AbstractBuilder.removeFileInfo p).
Proof.
  intros b x b' H. unfold AbstractBuilder.removeFileInfo, bind, modify in H.
  rewrite getFileInfos_spec in H. inversion H; subst.
  apply keepsTrackers_same_heap. reflexivity.
Qed.

Lemma keepsTrackers_event b e :
  keepsTrackers b
    (mkBuilder (heap b) (fileInfos_doNotAccessDirectly b)
               (projectVersionForDependencyGraph b) (events b ++ [e])).
Proof. apply keepsTrackers_same_heap. reflexivity. Qed.

Lemma keepsTrackers_materialized b : keepsTrackers b (materialized b).
Proof. apply keepsTrackers_same_heap. reflexivity. Qed.

Lemma keepsTrackers_version b v : keepsTrackers b (withProjectVersion v b).
Proof. apply keepsTrackers_same_heap. reflexivity. Qed.

Lemma keepsTrackers_refresh P :
  respects keepsTrackers (ModuleBuilder.ensureProjectDependencyGraphUpToDate P).
Proof.
  exact (respects_ensureProjectDependencyGraphUpToDate keepsTrackers
           keepsTrackers_refl keepsTrackers_trans keepsTrackers_cell
           keepsTrackers_event keepsTrackers_materialized P
           (keepsTrackers_create P) keepsTrackers_remove keepsTrackers_version).
Qed.

(** X1: the maintenance of the cache never touches what a tracker knows
    about its file.  When the graph refresh
    ([ensureProjectDependencyGraphUpToDate]) or [onProjectUpdateGraph] of
    either scheduler returns, every file info that existed before is still in
    the store with the same script info and the same stored shape signature:
    nodes are unlinked and dropped from the cache, edges are rewritten, but no
    shape delta is consumed. *)
Theorem refresh_keeps_trackers P b b' :
  ModuleBuilder.ensureProjectDependencyGraphUpToDate P b = Some (tt, b')
  \/ ModuleBuilder.onProjectUpdateGraph P b = Some (tt, b')
  \/ NonModuleBuilder.onProjectUpdateGraph P b = Some (tt, b') ->
  keepsTrackers b b'.
Proof.
  intros [H|[H|H]]; revert H.
  - apply keepsTrackers_refresh.
  - exact (respects_module_onProjectUpdateGraph keepsTrackers
             keepsTrackers_refl keepsTrackers_trans keepsTrackers_cell
             keepsTrackers_event keepsTrackers_materialized P
             (keepsTrackers_create P) keepsTrackers_remove
             keepsTrackers_version b tt b').
  - exact (respects_flat_onProjectUpdateGraph keepsTrackers
             keepsTrackers_refl keepsTrackers_trans
             keepsTrackers_materialized P keepsTrackers_remove b tt b').
Qed.

Lemma refresh_keeps_trackers_witness : keepsTrackers chainBuilt chainAfterDelete.
Proof.
  apply (refresh_keeps_trackers Scenario.chainWithoutB).
  right; left. vm_compute; reflexivity.
Defined.

(** X2: [emitFile] is independent of the shape-signature bookkeeping.  For
    both schedulers, when [emitFile] returns, every file info that existed
    before still has the same script info and the same stored shape
    signature, whether or not something was written. *)
Theorem emitFile_keeps_trackers P si b r b' :
  NonModuleBuilder.emitFile P si b = Some (r, b')
  \/ ModuleBuilder.emitFile P si b = Some (r, b') ->
  keepsTrackers b b'.
Proof.
  intros [H|H]; revert H.
  - apply (respects_emitFile keepsTrackers keepsTrackers_refl
             keepsTrackers_trans keepsTrackers_event
             keepsTrackers_materialized P
             NonModuleBuilder.ensureFileInfoIfInProject si).
    exact (respects_flat_ensureFileInfoIfInProject keepsTrackers
             keepsTrackers_refl keepsTrackers_trans P
             (keepsTrackers_create P) si).
  - apply (respects_emitFile keepsTrackers keepsTrackers_refl
             keepsTrackers_trans keepsTrackers_event
             keepsTrackers_materialized P
             ModuleBuilder.ensureFileInfoIfInProject si).
    apply keepsTrackers_refresh.
Qed.

Lemma emitFile_keeps_trackers_witness :
  keepsTrackers chainBuilt
    (stateAfter (ModuleBuilder.emitFile (Scenario.chainProject "declare c" "1")
                   (Scenario.script "c.ts")) chainBuilt).
Proof.
  apply (emitFile_keeps_trackers (Scenario.chainProject "declare c" "1")
           (Scenario.script "c.ts") chainBuilt true).
  right. vm_compute; reflexivity.
Defined.

(* ================================================================= *)
(** ** [emitFile] on a tracked file *)

Lemma forOf_writes (P : Project) (si : ScriptInfo) (outs : list OutputFile.t) b :
  forOf outs (fun o =>
    writeFile (getNormalizedAbsolutePath P (OutputFile.name o) (outputBase P si))
              (OutputFile.text o) (OutputFile.writeByteOrderMark o)) b
  = Some (tt, withEvents (events b ++ map (writeOf P si) outs) b).
Proof.
  revert b. induction outs as [|o outs IH]; intros b; simpl.
  - unfold ret, withEvents. rewrite app_nil_r. destruct b; reflexivity.
  - unfold bind, writeFile, emitEvent, modify. rewrite IH.
    unfold withEvents; simpl. rewrite <- app_assoc. reflexivity.
Qed.

(** X3: when the file has a tracker once [ensureFileInfoIfInProject] has
    run, [emitFile] asks the backend once for the full (not
    declarations-only) output of the tracker's script info and returns
    whether the emit was not skipped.  If it was not skipped, it writes every
    output file once, in order, under the name resolved against the project
    root (or against the directory of the script when no root is set); if it
    was skipped it writes nothing.  Nothing else of the state changes.  In the
    flat scheduler a file that the project contains always has such a
    tracker. *)
Theorem emitFile_with_tracker ensure P si b :
  (forall b1 id,
     ensure P si b = Some (tt, b1) ->
     trackerOf b1 (path si) = Some id ->
     AbstractBuilder.emitFile ensure P si b
     = Some (negb (emitSkipped
                     (getFileEmitOutput P (scriptInfo (getNode (heap b1) id)) false)),
             withEvents
               (events b1
                ++ EmitOutputRequested (scriptInfo (getNode (heap b1) id)) false
                   :: (if emitSkipped
                            (getFileEmitOutput P
                               (scriptInfo (getNode (heap b1) id)) false)
                       then []
                       else map (writeOf P si)
                              (outputFiles
                                 (getFileEmitOutput P
                                    (scriptInfo (getNode (heap b1) id)) false))))
               b1))
  /\ (containsScriptInfo P si = true ->
      exists b1 id,
        NonModuleBuilder.ensureFileInfoIfInProject P si b = Some (tt, b1)
        /\ trackerOf b1 (path si) = Some id).
Proof.
  split.
  - intros b1 id He Ht. unfold AbstractBuilder.emitFile, bind.
    rewrite He, getFileInfo_spec, Ht, (tracker_created _ _ _ Ht).
    unfold readNode, gets, project_getFileEmitOutput, bind, emitEvent, modify, ret.
    cbn [heap]. set (fi := getNode (heap b1) id).
    destruct (emitSkipped (getFileEmitOutput P (scriptInfo fi) false)); cbn [negb].
    + unfold withEvents. reflexivity.
    + change (fun outputFile : OutputFile.t =>
                writeFile
                  (getNormalizedAbsolutePath P (OutputFile.name outputFile)
                     match getProjectRootPath P with
                     | Some (String _ _ as root) => root
                     | _ => getDirectoryPath P (fileName si)
                     end)
                  (OutputFile.text outputFile)
                  (OutputFile.writeByteOrderMark outputFile))
        with (fun o : OutputFile.t =>
                writeFile
                  (getNormalizedAbsolutePath P (OutputFile.name o) (outputBase P si))
                  (OutputFile.text o) (OutputFile.writeByteOrderMark o)).
      rewrite forOf_writes. unfold withEvents; simpl.
      rewrite <- app_assoc. reflexivity.
  - intros Hc. unfold NonModuleBuilder.ensureFileInfoIfInProject, bind, ret.
    rewrite Hc.
    destruct (AbstractBuilder.getOrCreateFileInfo P (path si) b)
      as [[id b1]|] eqn:Hg.
    + exists b1, id. split; [reflexivity|].
      eapply getOrCreateFileInfo_tracker; eauto.
    + rewrite getOrCreateFileInfo_spec in Hg.
      destruct (trackerOf b (path si)); discriminate.
Qed.

Lemma emitFile_with_tracker_witness :
  option_map fst
    (NonModuleBuilder.emitFile (Scenario.chainProject "declare c" "1")
       (Scenario.script "c.ts") newBuilder)
  = Some true
  /\ option_map (fun r => events (snd r))
       (NonModuleBuilder.emitFile (Scenario.chainProject "declare c" "1")
          (Scenario.script "c.ts") newBuilder)
     = Some [EmitOutputRequested (Scenario.script "c.ts") false;
             FileWritten "c.ts.js" "js" false].
Proof.
  destruct (emitFile_with_tracker NonModuleBuilder.ensureFileInfoIfInProject
              (Scenario.chainProject "declare c" "1") (Scenario.script "c.ts")
              newBuilder) as [Hemit Htracked].
  destruct Htracked as (b1 & id & He & Ht); [vm_compute; reflexivity|].
  unfold NonModuleBuilder.emitFile.
  rewrite (Hemit b1 id He Ht).
  vm_compute in He. inversion He; subst b1.
  vm_compute in Ht. inversion Ht; subst id.
  split; vm_compute; reflexivity.
Defined.

(* ================================================================= *)
(** ** [getOrCreateFileInfo] *)

(** X4: [getOrCreateFileInfo] always returns a file info, which from then on
    is the one cached for the path ([getFileInfo] finds it, and asking again
    returns it without changing anything).  The trackers of the other paths
    and all cells that existed are untouched; when the path had no tracker, the
    file info is a new cell holding the project's script info for the path, no
    signature and no edges. *)
Theorem getOrCreateFileInfo_round_trip P p b :
  exists id b',
    AbstractBuilder.getOrCreateFileInfo P p b = Some (id, b')
    /\ trackerOf b' p = Some id
    /\ AbstractBuilder.getFileInfo p b' = Some (Some id, b')
    /\ AbstractBuilder.getOrCreateFileInfo P p b' = Some (id, b')
    /\ (forall p', p' <> p -> trackerOf b' p' = trackerOf b p')
    /\ (forall x, x < List.length (heap b) ->
          getNode (heap b') x = getNode (heap b) x)
    /\ events b' = events b
    /\ match trackerOf b p with
       | Some id0 => id = id0 /\ heap b' = heap b
       | None => id = List.length (heap b)
                 /\ heap b' = heap b ++ [newFileInfo (getScriptInfo P p)]
       end.
Proof.
  rewrite getOrCreateFileInfo_spec.
  destruct (trackerOf b p) as [id0|] eqn:Ht.
  - exists id0, (materialized b).
    assert (Ht' : trackerOf (materialized b) p = Some id0) by exact Ht.
    split; [reflexivity|]. split; [exact Ht'|].
    split; [rewrite getFileInfo_spec, Ht', (tracker_created _ _ _ Ht');
            reflexivity|].
    split; [rewrite getOrCreateFileInfo_spec, Ht', (tracker_created _ _ _ Ht');
            reflexivity|].
    repeat split; auto.
  - eexists; eexists. split; [reflexivity|].
    set (b' := withFileInfos _ _).
    assert (Ht' : trackerOf b' p = Some (List.length (heap b))).
    { unfold trackerOf, fileInfosOf, b'; simpl. apply JsMap_get_set_same. }
    split; [exact Ht'|].
    split; [rewrite getFileInfo_spec, Ht', (tracker_created _ _ _ Ht');
            reflexivity|].
    split; [rewrite getOrCreateFileInfo_spec, Ht', (tracker_created _ _ _ Ht');
            reflexivity|].
    split.
    { intros p' Hne. unfold trackerOf, fileInfosOf, b'; simpl.
      apply JsMap_get_set_other. congruence. }
    split.
    { intros x Hx. unfold b'; simpl. apply getNode_app; assumption. }
    repeat split.
Qed.

Lemma getOrCreateFileInfo_round_trip_witness :
  exists id b',
    AbstractBuilder.getOrCreateFileInfo (Scenario.chainProject "declare c" "1")
      "a.ts"%string newBuilder = Some (id, b')
    /\ trackerOf b' "a.ts"%string = Some id.
Proof.
  destruct (getOrCreateFileInfo_round_trip
              (Scenario.chainProject "declare c" "1") "a.ts"%string newBuilder)
    as (id & b' & Hrun & Ht & _).
  exists id, b'. split; assumption.
Defined.

(* ================================================================= *)
(** ** [clear] *)

Lemma shapeChanged_new P si : shapeChanged P (newFileInfo si) = true.
Proof. unfold shapeChanged. destruct (sourceOf P (newFileInfo si)); reflexivity. Qed.

(** X5: [clear] drops every tracker and, in the dependency-graph scheduler,
    the recorded project version; the store itself is left alone.  Right
    after [clear], [onProjectUpdateGraph] does nothing in either scheduler,
    whatever the project version is.  In the flat scheduler the next
    [getFilesAffectedBy] starts from a new tracker without a signature, so it
    reads every file as changed: it returns all emittable files, or the
    trivial single-file result when [out] or [outFile] is set. *)
Theorem clear_forgets P si b :
  (exists b0,
     NonModuleBuilder.clear b = Some (tt, b0)
     /\ (forall p, trackerOf b0 p = None)
     /\ heap b0 = heap b
     /\ NonModuleBuilder.onProjectUpdateGraph P b0 = Some (tt, b0)
     /\ exists b',
          NonModuleBuilder.getFilesAffectedBy P si b0
          = Some (if bundles P then singleFileResult si
                  else getAllEmittableFiles P, b'))
  /\ (exists b0,
        ModuleBuilder.clear b = Some (tt, b0)
        /\ (forall p, trackerOf b0 p = None)
        /\ heap b0 = heap b
        /\ projectVersionForDependencyGraph b0 = None
        /\ refreshDue P b0 = true
        /\ ModuleBuilder.onProjectUpdateGraph P b0 = Some (tt, b0)).
Proof.
  split.
  - exists (withFileInfos None b).
    split; [reflexivity|]. split; [reflexivity|]. split; [reflexivity|].
    split; [reflexivity|].
    unfold NonModuleBuilder.getFilesAffectedBy, bind.
    rewrite getOrCreateFileInfo_spec.
    change (trackerOf (withFileInfos None b) (path si)) with (@None NodeId).
    cbv beta iota.
    rewrite updateShapeSignature_spec.
    unfold materialized, withFileInfos, withHeap; cbn [heap fileInfos_doNotAccessDirectly].
    rewrite getNode_app_new, shapeChanged_new.
    unfold bundles, ret.
    destruct (getCompilerOptions P) as [o|]; [|eauto].
    destruct (truthy (out o) || truthy (outFile o)); eauto.
  - exists (withFileInfos None (withProjectVersion None b)).
    repeat split.
Qed.

(* ================================================================= *)
(** ** Refreshing twice *)

(** X6: a refresh records the project version it ran for.  When
    [ensureProjectDependencyGraphUpToDate] has returned and the project
    version is not the empty string, the stamp of the scheduler is the
    project's version, and a second refresh, or [onProjectUpdateGraph], for
    the same project state returns at once with the state unchanged. *)
Theorem refresh_twice P b b1 :
  ModuleBuilder.ensureProjectDependencyGraphUpToDate P b = Some (tt, b1) ->
  truthy (Some (getProjectVersion P)) = true ->
  projectVersionForDependencyGraph b1 = Some (getProjectVersion P)
  /\ refreshDue P b1 = false
  /\ ModuleBuilder.ensureProjectDependencyGraphUpToDate P b1 = Some (tt, b1)
  /\ ModuleBuilder.onProjectUpdateGraph P b1 = Some (tt, b1).
Proof.
  intros He Hv.
  assert (Hrec := ensure_records_version P b b1 He).
  assert (Hagain := ensure_again P b1 Hv Hrec).
  split; [exact Hrec|]. split.
  - unfold refreshDue. rewrite Hrec, Hv, strictEq_refl. reflexivity.
  - split; [exact Hagain|].
    unfold ModuleBuilder.onProjectUpdateGraph, AbstractBuilder.hasFileInfos,
      bind, gets.
    destruct (fileInfos_doNotAccessDirectly b1); [exact Hagain | reflexivity].
Qed.

Lemma refresh_twice_witness :
  ModuleBuilder.ensureProjectDependencyGraphUpToDate Scenario.chainWithoutB
    chainAfterDelete = Some (tt, chainAfterDelete).
Proof.
  destruct (refresh_twice Scenario.chainWithoutB chainBuilt chainAfterDelete)
    as (_ & _ & H & _); [vm_compute; reflexivity | vm_compute; reflexivity|].
  exact H.
Defined.

(* ================================================================= *)
(** ** What [updateShapeSignature] touches *)

Lemma refreshed_without_source P fi :
  sourceOf P fi = None -> refreshed P fi = fi.
Proof.
  intros Hs. unfold refreshed, freshSignature. rewrite Hs.
  destruct fi; reflexivity.
Qed.

(** X7: [updateShapeSignature] always returns, and the only thing it writes
    is the signature of its own file info: the cache, the version stamp, the
    other cells and the other fields of the cell stay as they were, and at most
    one call leaves the builder, a declarations-only emit request for the
    file's script info.  Without a representation of the file nothing at all
    changes.  The answer is [false] only when the stored signature was set
    and is the same after the call; with no signature stored, or the empty
    one, the answer is [true]. *)
Theorem updateShapeSignature_effects P id b :
  exists changed b',
    BuilderFileInfo.updateShapeSignature P id b = Some (changed, b')
    /\ fileInfos_doNotAccessDirectly b' = fileInfos_doNotAccessDirectly b
    /\ projectVersionForDependencyGraph b' = projectVersionForDependencyGraph b
    /\ List.length (heap b') = List.length (heap b)
    /\ (forall x, x <> id -> getNode (heap b') x = getNode (heap b) x)
    /\ scriptInfo (getNode (heap b') id) = scriptInfo (getNode (heap b) id)
    /\ references (getNode (heap b') id) = references (getNode (heap b) id)
    /\ referencedBy (getNode (heap b') id) = referencedBy (getNode (heap b) id)
    /\ scriptVersionForReferences (getNode (heap b') id)
       = scriptVersionForReferences (getNode (heap b) id)
    /\ (events b' = events b
        \/ events b'
           = events b ++ [EmitOutputRequested (scriptInfo (getNode (heap b) id)) true])
    /\ (sourceOf P (getNode (heap b) id) = None -> changed = true /\ b' = b)
    /\ (truthy (lastCheckedShapeSignature (getNode (heap b) id)) = false ->
        changed = true)
    /\ (changed = false ->
        lastCheckedShapeSignature (getNode (heap b') id)
        = lastCheckedShapeSignature (getNode (heap b) id)).
Proof.
  rewrite updateShapeSignature_spec.
  eexists; eexists. split; [reflexivity|].
  set (fi := getNode (heap b) id).
  assert (Hcell : forall g : FileInfo -> list NodeId,
            g (refreshed P fi) = g fi ->
            g (getNode (setNode (heap b) id (refreshed P fi)) id) = g fi).
  { intros g Hg. destruct (Nat.lt_ge_cases id (List.length (heap b))) as [Hlt|Hge].
    - rewrite getNode_setNode_same by assumption. exact Hg.
    - rewrite setNode_out_of_range by assumption. reflexivity. }
  split; [reflexivity|]. split; [reflexivity|].
  split; [simpl; apply setNode_length|].
  split; [intros x Hx; simpl; apply getNode_setNode_other; auto|].
  split.
  { simpl. destruct (Nat.lt_ge_cases id (List.length (heap b))) as [Hlt|Hge].
    - rewrite getNode_setNode_same by assumption. reflexivity.
    - rewrite setNode_out_of_range by assumption. reflexivity. }
  split; [simpl; apply (Hcell references); reflexivity|].
  split; [simpl; apply (Hcell referencedBy); reflexivity|].
  split.
  { simpl. destruct (Nat.lt_ge_cases id (List.length (heap b))) as [Hlt|Hge].
    - rewrite getNode_setNode_same by assumption. reflexivity.
    - rewrite setNode_out_of_range by assumption. reflexivity. }
  split.
  { simpl. unfold signatureEvents.
    destruct (sourceOf P fi) as [sf|]; [|left; apply app_nil_r].
    destruct (isDeclarationFile sf); [left; apply app_nil_r | right; reflexivity]. }
  split.
  { intros Hs. split; [unfold shapeChanged; rewrite Hs; reflexivity|].
    unfold signatureEvents. rewrite Hs, app_nil_r.
    rewrite (refreshed_without_source P fi Hs).
    unfold fi. rewrite setNode_getNode. destruct b; reflexivity. }
  split.
  { intros Hl. unfold shapeChanged. destruct (sourceOf P fi); [|reflexivity].
    rewrite Hl. reflexivity. }
  intros Hc. simpl. unfold shapeChanged in Hc.
  destruct (sourceOf P fi) as [sf|] eqn:Hs; [|discriminate].
  apply orb_false_iff in Hc. destruct Hc as [Hset Hsame].
  apply negb_false_iff in Hset. apply negb_false_iff in Hsame.
  apply strictEq_eq in Hsame.
  rewrite getNode_setNode_same by (apply truthy_in_range; exact Hset).
  exact Hsame.
Qed.

Lemma updateShapeSignature_effects_witness :
  exists changed b',
    BuilderFileInfo.updateShapeSignature (Scenario.chainProject "declare c" "1")
      0 chainBuilt = Some (changed, b')
    /\ fileInfos_doNotAccessDirectly b' = fileInfos_doNotAccessDirectly chainBuilt.
Proof.
  destruct (updateShapeSignature_effects
              (Scenario.chainProject "declare c" "1") 0 chainBuilt)
    as (changed & b' & Hrun & Hm & _).
  exists changed, b'. split; assumption.
Defined.

(* ================================================================= *)
(** ** What [removeFileReferences] touches *)

Lemma removeReferencedBy_spec r this b :
  ModuleBuilderFileInfo.removeReferencedBy r this b
  = Some (tt, withHeap
                (setNode (heap b) r
                   (ModuleBuilderFileInfo.setReferencedBy
                      (removeSorted (ModuleBuilderFileInfo.compareFileInfos (heap b))
                         (referencedBy (getNode (heap b) r)) this)
                      (getNode (heap b) r))) b).
Proof. reflexivity. Qed.

Lemma unlink_loop this refs : forall b,
  exists b',
    forOf refs (fun reference =>
      ModuleBuilderFileInfo.removeReferencedBy reference this) b = Some (tt, b')
    /\ fileInfos_doNotAccessDirectly b' = fileInfos_doNotAccessDirectly b
    /\ projectVersionForDependencyGraph b' = projectVersionForDependencyGraph b
    /\ events b' = events b
    /\ List.length (heap b') = List.length (heap b)
    /\ (forall y, ~ In y refs -> getNode (heap b') y = getNode (heap b) y)
    /\ (forall y,
          scriptInfo (getNode (heap b') y) = scriptInfo (getNode (heap b) y)
          /\ lastCheckedShapeSignature (getNode (heap b') y)
             = lastCheckedShapeSignature (getNode (heap b) y)
          /\ references (getNode (heap b') y) = references (getNode (heap b) y)
          /\ scriptVersionForReferences (getNode (heap b') y)
             = scriptVersionForReferences (getNode (heap b) y)).
Proof.
  induction refs as [|r refs IH]; intros b.
  - exists b. simpl. repeat split; auto.
  - simpl forOf. unfold bind. rewrite removeReferencedBy_spec.
    set (b1 := withHeap _ b).
    destruct (IH b1) as (b' & Hrun & Hm & Hv & He & Hlen & Hout & Hid).
    exists b'. split; [exact Hrun|].
    split; [rewrite Hm; reflexivity|]. split; [rewrite Hv; reflexivity|].
    split; [rewrite He; reflexivity|].
    split; [rewrite Hlen; unfold b1; simpl; apply setNode_length|].
    split.
    + intros y Hy. rewrite Hout by (intros Hin; apply Hy; right; exact Hin).
      unfold b1; simpl. apply getNode_setNode_other.
      intros ->. apply Hy; left; reflexivity.
    + intros y. destruct (Hid y) as (H1 & H2 & H3 & H4).
      rewrite H1, H2, H3, H4. unfold b1; simpl.
      destruct (Nat.eq_dec r y) as [->|Hne].
      * destruct (Nat.lt_ge_cases y (List.length (heap b))) as [Hlt|Hge].
        -- rewrite getNode_setNode_same by assumption. repeat split.
        -- rewrite setNode_out_of_range by assumption. repeat split.
      * rewrite getNode_setNode_other by assumption. repeat split.
Qed.

(** X8: [removeFileReferences] always returns and rewrites edges only: the
    cache, the version stamp and the log of calls are unchanged, no cell is
    added, and every file info keeps its script info, its signature and its
    reference version.  The unlinked file info ends with no references; no
    other file info has its [references] changed, and a file info that is
    neither the unlinked one nor one of those it referenced is not written at
    all. *)
Theorem removeFileReferences_frame this b :
  exists b',
    ModuleBuilderFileInfo.removeFileReferences this b = Some (tt, b')
    /\ fileInfos_doNotAccessDirectly b' = fileInfos_doNotAccessDirectly b
    /\ projectVersionForDependencyGraph b' = projectVersionForDependencyGraph b
    /\ events b' = events b
    /\ List.length (heap b') = List.length (heap b)
    /\ (this < List.length (heap b) -> references (getNode (heap b') this) = [])
    /\ (forall y, y <> this ->
          references (getNode (heap b') y) = references (getNode (heap b) y))
    /\ (forall y, y <> this -> ~ In y (references (getNode (heap b) this)) ->
          getNode (heap b') y = getNode (heap b) y)
    /\ (forall y,
          scriptInfo (getNode (heap b') y) = scriptInfo (getNode (heap b) y)
          /\ lastCheckedShapeSignature (getNode (heap b') y)
             = lastCheckedShapeSignature (getNode (heap b) y)
          /\ scriptVersionForReferences (getNode (heap b') y)
             = scriptVersionForReferences (getNode (heap b) y)).
Proof.
  unfold ModuleBuilderFileInfo.removeFileReferences, bind, readNode, gets.
  destruct (unlink_loop this (references (getNode (heap b) this)) b)
    as (b1 & Hrun & Hm & Hv & He & Hlen & Hout & Hid).
  rewrite Hrun. unfold updateNode, modify.
  eexists. split; [reflexivity|]. simpl.
  split; [exact Hm|]. split; [exact Hv|]. split; [exact He|].
  split; [rewrite setNode_length; exact Hlen|].
  split.
  { intros Hlt. rewrite getNode_setNode_same by (rewrite Hlen; exact Hlt).
    reflexivity. }
  split.
  { intros y Hy. rewrite getNode_setNode_other by auto. apply (Hid y). }
  split.
  { intros y Hy Hnot. rewrite getNode_setNode_other by auto.
    apply Hout; exact Hnot. }
  intros y. destruct (Hid y) as (H1 & H2 & _ & H4).
  destruct (Nat.eq_dec this y) as [->|Hne].
  - destruct (Nat.lt_ge_cases y (List.length (heap b1))) as [Hlt|Hge].
    + rewrite getNode_setNode_same by assumption. simpl. auto.
    + rewrite setNode_out_of_range by assumption. auto.
  - rewrite getNode_setNode_other by assumption. auto.
Qed.

Lemma removeFileReferences_frame_witness :
  exists b',
    ModuleBuilderFileInfo.removeFileReferences 1 chainBuilt = Some (tt, b')
    /\ fileInfos_doNotAccessDirectly b' = fileInfos_doNotAccessDirectly chainBuilt.
Proof.
  destruct (removeFileReferences_frame 1 chainBuilt) as (b' & Hrun & Hm & _).
  exists b'. split; assumption.
Defined.

(* ================================================================= *)
(** ** Scanning the references of a file twice *)

(** X9: once [updateFileReferences] has returned for an allocated file info,
    the file info records the latest version of its script as the version its
    references were computed for, so a second call for the same project state
    returns at once with the state unchanged: the references are queried at
    most once per version of the file. *)
Theorem updateFileReferences_repeated P id b b1 :
  ModuleBuilder.updateFileReferences P id b = Some (tt, b1) ->
  id < List.length (heap b) ->
  scriptVersionForReferences (getNode (heap b1) id)
  = Some (getLatestVersion P (scriptInfo (getNode (heap b) id)))
  /\ ModuleBuilder.updateFileReferences P id b1 = Some (tt, b1).
Proof.
  intros Hrun Hlt.
  assert (Hstamp : scriptInfo (getNode (heap b1) id) = scriptInfo (getNode (heap b) id)
                   /\ scriptVersionForReferences (getNode (heap b1) id)
                      = Some (getLatestVersion P (scriptInfo (getNode (heap b) id)))).
  { unfold ModuleBuilder.updateFileReferences, bind, readNode, gets in Hrun.
    destruct (strictEq (scriptVersionForReferences (getNode (heap b) id))
                (Some (getLatestVersion P (scriptInfo (getNode (heap b) id)))))
      eqn:Hgate.
    - inversion Hrun; subst b1. split; [reflexivity|].
      apply strictEq_eq; exact Hgate.
    - destruct (ModuleBuilder.getReferencedFileInfos P id b)
        as [[newRefs b2]|] eqn:Hrefs; [|discriminate].
      assert (K2 : keepsTrackers b b2).
      { exact (respects_getReferencedFileInfos keepsTrackers keepsTrackers_refl
                 keepsTrackers_trans keepsTrackers_event P
                 (keepsTrackers_create P) id b newRefs b2 Hrefs). }
      destruct (enumerateInsertsAndDeletes newRefs _ _ _ _ b2)
        as [[[] b3]|] eqn:Hdiff; [|discriminate].
      assert (K3 : keepsTrackers b2 b3).
      { refine (respects_enumerateInsertsAndDeletes keepsTrackers
                  keepsTrackers_refl keepsTrackers_trans _ _ _ _ _ _ _ _ _ _ Hdiff).
        - intros x. apply (respects_addReferencedBy keepsTrackers
                             keepsTrackers_refl keepsTrackers_trans keepsTrackers_cell).
        - intros x. apply (respects_removeReferencedBy keepsTrackers
                             keepsTrackers_refl keepsTrackers_trans keepsTrackers_cell). }
      destruct (keepsTrackers_trans _ _ _ K2 K3) as [Hlen Hsame].
      destruct (Hsame id Hlt) as [Hsi _].
      unfold updateNode, modify in Hrun. inversion Hrun; subst b1. simpl.
      rewrite getNode_setNode_same by lia. simpl.
      rewrite Hsi. split; reflexivity. }
  destruct Hstamp as [Hsi Hver]. split; [exact Hver|].
  unfold ModuleBuilder.updateFileReferences, bind, readNode, gets.
  rewrite Hver, Hsi, strictEq_refl. reflexivity.
Qed.

Lemma updateFileReferences_repeated_witness :
  ModuleBuilder.updateFileReferences (Scenario.chainWithBEdited "2") 0
    (stateAfter (ModuleBuilder.updateFileReferences (Scenario.chainWithBEdited "2") 0)
       chainBuilt)
  = Some (tt, stateAfter
                (ModuleBuilder.updateFileReferences (Scenario.chainWithBEdited "2") 0)
                chainBuilt).
Proof.
  apply (updateFileReferences_repeated (Scenario.chainWithBEdited "2") 0 chainBuilt).
  - vm_compute; reflexivity.
  - vm_compute; lia.
Defined.

(* ================================================================= *)
(** ** The result lists no file twice *)

Lemma In_keys_set {V} (m : JsMap.t V) k v x :
  In x (JsMap.keys (JsMap.set m k v)) -> x = k \/ In x (JsMap.keys m).
Proof.
  induction m as [|[k' v'] m IH]; simpl.
  - intros [<-|[]]; auto.
  - destruct (String.eqb k k'); simpl; intros [<-|Hin]; auto.
    destruct (IH Hin); auto.
Qed.

Lemma NoDup_keys_set {V} (m : JsMap.t V) k v :
  NoDup (JsMap.keys m) -> NoDup (JsMap.keys (JsMap.set m k v)).
Proof.
  induction m as [|[k' v'] m IH]; simpl; intros Hnd.
  - constructor; [intros []|constructor].
  - inversion Hnd as [|? ? Hnot Hrest]; subst.
    destruct (String.eqb k k') eqn:E; simpl.
    + constructor; assumption.
    + constructor; [|apply IH; assumption].
      intros Hin. destruct (In_keys_set _ _ _ _ Hin) as [->|Hold]; auto.
      rewrite String.eqb_refl in E. discriminate.
Qed.

Lemma NoDup_map_fst_filter {A B} (f : A * B -> bool) (l : list (A * B)) :
  NoDup (map fst l) -> NoDup (map fst (filter f l)).
Proof.
  induction l as [|x l IH]; simpl; intros Hnd; [constructor|].
  inversion Hnd as [|? ? Hnot Hrest]; subst.
  destruct (f x); simpl; [|apply IH; assumption].
  constructor; [|apply IH; assumption].
  intros Hin. apply Hnot. apply in_map_iff in Hin.
  destruct Hin as (y & Hy & Hf). apply filter_In in Hf.
  apply in_map_iff. exists y. tauto.
Qed.

Lemma walk_keeps_NoDup P fuel : forall queue s b s' b',
  ModuleBuilder.walk P fuel queue s b = Some (s', b') ->
  NoDup (JsMap.keys s) -> NoDup (JsMap.keys s').
Proof.
  induction fuel as [|fuel IH]; intros [|t rest] s b s' b' Hw Hnd.
  - inversion Hw; subst; assumption.
  - discriminate.
  - inversion Hw; subst; assumption.
  - rewrite walk_unfold in Hw. apply (IH _ _ _ _ _ Hw).
    apply NoDup_keys_set; assumption.
Qed.

Lemma NoDup_singleFileResult si : NoDup (singleFileResult si).
Proof.
  unfold singleFileResult. destruct (_ || _); repeat constructor. intros [].
Qed.

(** X10: the list [getFilesAffectedBy] returns names no file twice, in both
    schedulers, as long as the project's list of all emittable files (which is
    returned as it is in the fallback case) names none twice: the walk of the
    dependency-graph scheduler collects names in a map keyed by file name, so
    a file reached along several chains of importers is listed once. *)
Theorem result_without_duplicates fuel P si b r b' :
  ModuleBuilder.getFilesAffectedBy fuel P si b = Some (r, b')
  \/ NonModuleBuilder.getFilesAffectedBy P si b = Some (r, b') ->
  NoDup (getAllEmittableFiles P) ->
  NoDup r.
Proof.
  intros [H|H] Hall.
  - destruct (ModuleBuilder.ensureProjectDependencyGraphUpToDate P b)
      as [[[] b1]|] eqn:He.
    2:{ unfold ModuleBuilder.getFilesAffectedBy, bind in H.
        rewrite He in H. discriminate. }
    rewrite (getFilesAffectedBy_after_refresh fuel P si b b1 He) in H.
    destruct (trackerOf b1 (path si)) as [id|].
    2:{ inversion H; subst. apply NoDup_singleFileResult. }
    destruct (negb (shapeChanged P (getNode (heap b1) id))).
    { inversion H; subst. apply NoDup_singleFileResult. }
    destruct (sourceOf P (getNode (heap b1) id)) as [sf|]; [|discriminate].
    destruct (negb (isExternalModule sf
                    || BuilderFileInfo.containsOnlyAmbientModules sf)).
    { inversion H; subst. assumption. }
    destruct (ModuleBuilder.shortCircuits (getCompilerOptions P)).
    { inversion H; subst. apply NoDup_singleFileResult. }
    destruct (ModuleBuilder.walk P fuel _ _ _) as [[s' b2]|] eqn:Hw;
      [|discriminate].
    inversion H; subst. unfold ModuleBuilder.collectResult.
    apply NoDup_map_fst_filter.
    apply (walk_keeps_NoDup _ _ _ _ _ _ _ Hw).
    simpl. constructor; [intros []|constructor].
  - unfold NonModuleBuilder.getFilesAffectedBy, bind in H.
    destruct (AbstractBuilder.getOrCreateFileInfo P (path si) b)
      as [[id b1]|]; [|discriminate].
    rewrite updateShapeSignature_spec in H.
    destruct (shapeChanged P (getNode (heap b1) id)).
    + destruct (getCompilerOptions P) as [o|].
      * destruct (truthy (out o) || truthy (outFile o));
          inversion H; subst; auto using NoDup_singleFileResult.
      * inversion H; subst; assumption.
    + inversion H; subst. apply NoDup_singleFileResult.
Qed.

Lemma result_without_duplicates_witness :
  NoDup ["a.ts"; "c.ts"; "b.ts"]%string.
Proof.
  apply (result_without_duplicates 10 Scenario.diamondProject
           (Scenario.script "a.ts") newBuilder _
           (stateAfter (ModuleBuilder.getFilesAffectedBy 10 Scenario.diamondProject
                          (Scenario.script "a.ts")) newBuilder)).
  - left. vm_compute; reflexivity.
  - vm_compute. repeat constructor; simpl; intuition discriminate.
Defined.

(* ================================================================= *)
(** ** Dropping the files that left the project *)

Lemma JsMap_get_app_notin {V} (kept m : JsMap.t V) k :
  ~ In k (JsMap.keys kept) -> JsMap.get (kept ++ m) k = JsMap.get m k.
Proof.
  induction kept as [|[k' v'] kept IH]; simpl; intros Hn; auto.
  destruct (String.eqb k k') eqn:E.
  - apply String.eqb_eq in E. subst. exfalso; apply Hn; left; reflexivity.
  - apply IH. intros H; apply Hn; right; exact H.
Qed.

Lemma JsMap_delete_app_notin {V} (kept m : JsMap.t V) k :
  ~ In k (JsMap.keys kept) ->
  JsMap.delete (kept ++ m) k = kept ++ JsMap.delete m k.
Proof.
  induction kept as [|[k' v'] kept IH]; simpl; intros Hn; auto.
  destruct (String.eqb k k') eqn:E.
  - apply String.eqb_eq in E. subst. exfalso; apply Hn; left; reflexivity.
  - f_equal. apply IH. intros H; apply Hn; right; exact H.
Qed.

Lemma JsMap_get_In {V} (m : JsMap.t V) k v :
  JsMap.get m k = Some v -> In (k, v) m.
Proof.
  induction m as [|[k' v'] m IH]; simpl; [discriminate|].
  destruct (String.eqb k k') eqn:E; intros H.
  - apply String.eqb_eq in E. inversion H; subst. left; reflexivity.
  - right; apply IH; exact H.
Qed.

Lemma JsMap_In_get {V} (m : JsMap.t V) k v :
  NoDup (JsMap.keys m) -> In (k, v) m -> JsMap.get m k = Some v.
Proof.
  induction m as [|[k' v'] m IH]; simpl; intros Hnd Hin; [contradiction|].
  inversion Hnd as [|? ? Hnot Hrest]; subst.
  destruct Hin as [Heq|Hin].
  - inversion Heq; subst. rewrite String.eqb_refl. reflexivity.
  - destruct (String.eqb k k') eqn:E; [|apply IH; assumption].
    apply String.eqb_eq in E. subst k'. exfalso. apply Hnot.
    apply in_map_iff. exists (k, v). split; [reflexivity | assumption].
Qed.

Lemma JsMap_get_filter {V} (f : string * V -> bool) (m : JsMap.t V) k v :
  NoDup (JsMap.keys m) ->
  (JsMap.get (filter f m) k = Some v
   <-> JsMap.get m k = Some v /\ f (k, v) = true).
Proof.
  intros Hnd. split.
  - intros Hg. apply JsMap_get_In in Hg. apply filter_In in Hg.
    destruct Hg as [Hin Hf]. split; [|exact Hf].
    apply JsMap_In_get; assumption.
  - intros [Hg Hf]. apply JsMap_In_get.
    + apply NoDup_map_fst_filter. exact Hnd.
    + apply filter_In. split; [apply JsMap_get_In; exact Hg | exact Hf].
Qed.

Lemma created_map b m :
  fileInfos_doNotAccessDirectly b = Some m ->
  materialized b = b /\ fileInfosOf b = m.
Proof.
  intros Hm. split; [apply (materialized_created b m Hm)|].
  unfold fileInfosOf. rewrite Hm. reflexivity.
Qed.

Lemma entryInProject_stable P b b1 (todo : JsMap.t NodeId) :
  keepsTrackers b b1 ->
  (forall k id, In (k, id) todo -> id < List.length (heap b)) ->
  filter (entryInProject P (heap b1)) todo
  = filter (entryInProject P (heap b)) todo.
Proof.
  intros [_ Hsame] Hin. apply filter_ext_in. intros [k id] Hk.
  unfold entryInProject; simpl.
  destruct (Hsame id (Hin k id Hk)) as [-> _]. reflexivity.
Qed.

Section DeletionLoop.
Variable P : Project.
Variable R : Builder -> Builder -> Prop.
Hypothesis R_refl : forall b, R b b.
Hypothesis R_trans : forall b1 b2 b3, R b1 b2 -> R b2 b3 -> R b1 b3.
Hypothesis R_keeps : forall b b', R b b' -> keepsTrackers b b'.
Variable action : NodeId -> M unit.
Hypothesis action_spec : forall id b m,
  fileInfos_doNotAccessDirectly b = Some m ->
  exists b',
    action id b = Some (tt, b')
    /\ R b b'
    /\ fileInfos_doNotAccessDirectly b'
       = Some (if containsScriptInfo P (scriptInfo (getNode (heap b) id))
               then m
               else JsMap.delete m (path (scriptInfo (getNode (heap b) id)))).

(** The loop of [forEachFileInfo], entry by entry: [kept] are the entries
    already decided, [todo] those still to come. *)
Lemma deletion_loop (todo : JsMap.t NodeId) : forall kept b,
  fileInfos_doNotAccessDirectly b = Some (kept ++ todo) ->
  NoDup (JsMap.keys (kept ++ todo)) ->
  (forall k id, In (k, id) todo ->
     id < List.length (heap b) /\ path (scriptInfo (getNode (heap b) id)) = k) ->
  exists b',
    forOf todo (fun entry =>
      bind AbstractBuilder.getFileInfos (fun current =>
        match JsMap.get current (fst entry) with
        | Some fileInfo => action fileInfo
        | None => ret tt
        end)) b = Some (tt, b')
    /\ R b b'
    /\ fileInfos_doNotAccessDirectly b'
       = Some (kept ++ filter (entryInProject P (heap b)) todo).
Proof.
  induction todo as [|[k id] todo IH]; intros kept b Hm Hnd Hwf.
  - exists b. simpl. split; [reflexivity|]. split; [apply R_refl|]. exact Hm.
  - assert (Hk : ~ In k (JsMap.keys kept)).
    { unfold JsMap.keys in *. rewrite map_app in Hnd. simpl in Hnd.
      apply NoDup_remove_2 in Hnd. intros Hin. apply Hnd.
      apply in_or_app; left; exact Hin. }
    destruct (Hwf k id (or_introl eq_refl)) as [Hlt Hpath].
    destruct (created_map b _ Hm) as [Hmat Hof].
    destruct (action_spec id b _ Hm) as (b1 & Ha & HR & Hm1).
    assert (K1 := R_keeps _ _ HR).
    assert (Hwf1 : forall k' id', In (k', id') todo ->
              id' < List.length (heap b1)
              /\ path (scriptInfo (getNode (heap b1) id')) = k').
    { intros k' id' Hin. destruct (Hwf k' id' (or_intror Hin)) as [Hl Hp].
      destruct K1 as [Hlen Hsame]. destruct (Hsame id' Hl) as [Hs _].
      split; [lia | rewrite Hs; exact Hp]. }
    assert (Hstable : filter (entryInProject P (heap b1)) todo
                      = filter (entryInProject P (heap b)) todo).
    { apply entryInProject_stable; [exact K1|].
      intros k' id' Hin. apply (Hwf k' id' (or_intror Hin)). }
    assert (Hstep : forOf ((k, id) :: todo) (fun entry =>
              bind AbstractBuilder.getFileInfos (fun current =>
                match JsMap.get current (fst entry) with
                | Some fileInfo => action fileInfo
                | None => ret tt
                end)) b
            = forOf todo (fun entry =>
              bind AbstractBuilder.getFileInfos (fun current =>
                match JsMap.get current (fst entry) with
                | Some fileInfo => action fileInfo
                | None => ret tt
                end)) b1).
    { simpl forOf. unfold bind at 1. unfold bind at 1.
      rewrite getFileInfos_spec, Hmat, Hof. cbn [fst].
      rewrite JsMap_get_app_notin by exact Hk.
      change (JsMap.get ((k, id) :: todo) k)
        with (if String.eqb k k then Some id else JsMap.get todo k).
      rewrite String.eqb_refl, Ha. reflexivity. }
    rewrite Hstep. rewrite Hpath in Hm1.
    simpl filter. unfold entryInProject at 1. cbn [snd].
    destruct (containsScriptInfo P (scriptInfo (getNode (heap b) id))).
    + destruct (IH (kept ++ [(k, id)]) b1) as (b' & Hrun & HR' & Hm').
      { rewrite <- app_assoc. exact Hm1. }
      { rewrite <- app_assoc. exact Hnd. }
      { exact Hwf1. }
      exists b'. split; [exact Hrun|]. split; [eapply R_trans; eauto|].
      rewrite Hm', Hstable, <- app_assoc. reflexivity.
    + rewrite JsMap_delete_app_notin in Hm1 by exact Hk.
      change (JsMap.delete ((k, id) :: todo) k)
        with (if String.eqb k k then todo else (k, id) :: JsMap.delete todo k)
        in Hm1.
      rewrite String.eqb_refl in Hm1.
      destruct (IH kept b1) as (b' & Hrun & HR' & Hm').
      { exact Hm1. }
      { unfold JsMap.keys in *. rewrite map_app in *. simpl in Hnd.
        apply NoDup_remove_1 in Hnd. exact Hnd. }
      { exact Hwf1. }
      exists b'. split; [exact Hrun|]. split; [eapply R_trans; eauto|].
      rewrite Hm', Hstable. reflexivity.
Qed.

Lemma forEachFileInfo_deletes b :
  keyedByPath b ->
  exists b',
    AbstractBuilder.forEachFileInfo action b = Some (tt, b')
    /\ R (materialized b) b'
    /\ fileInfos_doNotAccessDirectly b'
       = Some (filter (entryInProject P (heap b)) (fileInfosOf b)).
Proof.
  intros [Hnd Hwf]. unfold AbstractBuilder.forEachFileInfo.
  unfold bind at 1. rewrite getFileInfos_spec.
  apply (deletion_loop (fileInfosOf b) [] (materialized b)).
  - reflexivity.
  - exact Hnd.
  - exact Hwf.
Qed.

End DeletionLoop.

(** The relation the deletions of the flat scheduler respect. *)
Lemma flat_deletes P b :
  keyedByPath b ->
  exists b',
    AbstractBuilder.forEachFileInfo (fun fileInfo =>
      bind (readNode fileInfo) (fun fi =>
        if negb (containsScriptInfo P (scriptInfo fi))
        then AbstractBuilder.removeFileInfo (path (scriptInfo fi))
        else ret tt)) b = Some (tt, b')
    /\ (heap b' = heap (materialized b) /\ events b' = events (materialized b)
        /\ projectVersionForDependencyGraph b'
           = projectVersionForDependencyGraph (materialized b))
    /\ fileInfos_doNotAccessDirectly b'
       = Some (filter (entryInProject P (heap b)) (fileInfosOf b)).
Proof.
  apply (forEachFileInfo_deletes P
           (fun b b' => heap b' = heap b /\ events b' = events b
                        /\ projectVersionForDependencyGraph b'
                           = projectVersionForDependencyGraph b)).
  - intros; repeat split.
  - intros b1 b2 b3 (A1 & A2 & A3) (B1 & B2 & B3). repeat split; congruence.
  - intros b1 b2 (A1 & _). apply keepsTrackers_same_heap; exact A1.
  - intros id b0 m Hm. unfold bind, readNode, gets.
    destruct (containsScriptInfo P (scriptInfo (getNode (heap b0) id))); simpl.
    + exists b0. repeat split; auto.
    + unfold AbstractBuilder.removeFileInfo, bind, modify.
      rewrite getFileInfos_spec.
      destruct (created_map b0 m Hm) as [-> ->].
      eexists; split; [reflexivity|]. repeat split.
Qed.

(** X11: the flat scheduler's [onProjectUpdateGraph], on a cache keyed by
    path, keeps exactly the trackers whose script info still belongs to the
    project, in their order: a tracker is cached afterwards if and only if it
    was cached before and the project contains its script.  The store, the
    version stamp and the log of calls are untouched, and the cache stays
    keyed by path. *)
Theorem flat_onProjectUpdateGraph_filters P b :
  keyedByPath b ->
  exists b',
    NonModuleBuilder.onProjectUpdateGraph P b = Some (tt, b')
    /\ heap b' = heap b
    /\ events b' = events b
    /\ projectVersionForDependencyGraph b' = projectVersionForDependencyGraph b
    /\ fileInfosOf b' = filter (entryInProject P (heap b)) (fileInfosOf b)
    /\ keyedByPath b'
    /\ (forall k id,
          trackerOf b' k = Some id
          <-> trackerOf b k = Some id
              /\ containsScriptInfo P (scriptInfo (getNode (heap b) id)) = true).
Proof.
  intros Hk.
  assert (Hgoal : exists b',
    NonModuleBuilder.onProjectUpdateGraph P b = Some (tt, b')
    /\ heap b' = heap b
    /\ events b' = events b
    /\ projectVersionForDependencyGraph b' = projectVersionForDependencyGraph b
    /\ fileInfosOf b' = filter (entryInProject P (heap b)) (fileInfosOf b)).
  { unfold NonModuleBuilder.onProjectUpdateGraph, AbstractBuilder.hasFileInfos.
    unfold bind at 1. unfold gets.
    destruct (fileInfos_doNotAccessDirectly b) as [m|] eqn:Hm.
    - destruct (flat_deletes P b Hk) as (b' & Hrun & (H1 & H2 & H3) & Hm').
      exists b'. split; [exact Hrun|].
      destruct (created_map b m Hm) as [Hmat _]. rewrite Hmat in *.
      repeat split; auto. unfold fileInfosOf at 1. rewrite Hm'. reflexivity.
    - exists b. repeat split. unfold fileInfosOf. rewrite Hm. reflexivity. }
  destruct Hgoal as (b' & Hrun & Hh & He & Hv & Hm).
  exists b'. repeat (split; [assumption|]).
  destruct Hk as [Hnd Hwf]. split.
  - split.
    + rewrite Hm. apply NoDup_map_fst_filter. exact Hnd.
    + intros k id Hin. rewrite Hm in Hin. apply filter_In in Hin.
      rewrite Hh. apply Hwf. tauto.
  - intros k id. unfold trackerOf. rewrite Hm.
    apply (JsMap_get_filter (entryInProject P (heap b))). exact Hnd.
Qed.

Lemma flat_onProjectUpdateGraph_filters_witness :
  exists b',
    NonModuleBuilder.onProjectUpdateGraph Scenario.chainWithoutB chainBuilt
    = Some (tt, b')
    /\ JsMap.keys (fileInfosOf b') = ["a.ts"; "c.ts"]%string.
Proof.
  destruct (flat_onProjectUpdateGraph_filters Scenario.chainWithoutB chainBuilt)
    as (b' & Hrun & _ & _ & _ & Hm & _).
  - split.
    + vm_compute. repeat constructor; simpl; intuition discriminate.
    + intros k id Hin. vm_compute in Hin.
      destruct Hin as [H|[H|[H|[]]]]; inversion H; subst;
        split; vm_compute; try reflexivity; lia.
  - exists b'. split; [exact Hrun|]. rewrite Hm. vm_compute. reflexivity.
Defined.

(* ================================================================= *)
(** ** After a refresh the cache is the project *)

Lemma grows_refl b : grows b b.
Proof. split; auto. Qed.

Lemma grows_trans b1 b2 b3 : grows b1 b2 -> grows b2 b3 -> grows b1 b3.
Proof. intros [T1 K1] [T2 K2]. split; auto. Qed.

Lemma keyedByPath_same_cache b b' :
  fileInfosOf b' = fileInfosOf b -> keepsTrackers b b' ->
  keyedByPath b -> keyedByPath b'.
Proof.
  intros Hm [Hlen Hs] [Hnd Hwf]. split; rewrite Hm; [exact Hnd|].
  intros k id Hin. destruct (Hwf k id Hin) as [Hl Hp].
  destruct (Hs id Hl) as [Hsi _]. split; [lia | rewrite Hsi; exact Hp].
Qed.

Lemma grows_same_cache b b' :
  fileInfosOf b' = fileInfosOf b -> keepsTrackers b b' -> grows b b'.
Proof.
  intros Hm K. split.
  - intros k id. unfold trackerOf. rewrite Hm. auto.
  - apply keyedByPath_same_cache; assumption.
Qed.

Lemma grows_cell b id f :
  keepsIdentity f ->
  grows b (withHeap (setNode (heap b) id (f (getNode (heap b) id))) b).
Proof.
  intros Hf. apply grows_same_cache; [reflexivity|].
  apply keepsTrackers_cell; exact Hf.
Qed.

Lemma grows_event b e :
  grows b (mkBuilder (heap b) (fileInfos_doNotAccessDirectly b)
                     (projectVersionForDependencyGraph b) (events b ++ [e])).
Proof. apply grows_same_cache; [reflexivity | apply keepsTrackers_event]. Qed.

Lemma grows_materialized b : grows b (materialized b).
Proof.
  apply grows_same_cache; [reflexivity | apply keepsTrackers_materialized].
Qed.

Lemma In_set {V} (m : JsMap.t V) k v k' v' :
  In (k', v') (JsMap.set m k v) -> (k' = k /\ v' = v) \/ In (k', v') m.
Proof.
  induction m as [|[k0 v0] m IH]; simpl.
  - intros [H|[]]. inversion H; auto.
  - destruct (String.eqb k k0) eqn:E; simpl.
    + intros [H|H]; [|auto]. inversion H; subst.
      apply String.eqb_eq in E. auto.
    + intros [H|H]; [auto|]. destruct (IH H); auto.
Qed.

Lemma grows_create P :
  (forall p, path (getScriptInfo P p) = p) ->
  forall p, respects grows (AbstractBuilder.getOrCreateFileInfo P p).
Proof.
  intros Hpath p b id b' H. rewrite getOrCreateFileInfo_spec in H.
  destruct (trackerOf b p) as [id0|] eqn:Ht; inversion H; subst.
  - apply grows_materialized.
  - split.
    + intros k id0 Hk. unfold trackerOf.
      change (fileInfosOf (withFileInfos _ _))
        with (JsMap.set (fileInfosOf b) p (List.length (heap b))).
      destruct (String.eqb_spec p k) as [->|Hne]; [congruence|].
      rewrite JsMap_get_set_other by exact Hne. exact Hk.
    + intros [Hnd Hwf]. split;
        change (fileInfosOf (withFileInfos _ _))
          with (JsMap.set (fileInfosOf b) p (List.length (heap b)));
        [apply NoDup_keys_set; exact Hnd|].
      intros k id0 Hin.
      change (heap (withFileInfos _ _))
        with (heap b ++ [newFileInfo (getScriptInfo P p)]).
      rewrite length_app. simpl List.length.
      apply In_set in Hin. destruct Hin as [[-> ->]|Hin].
      * split; [lia|]. rewrite getNode_app_new. simpl. apply Hpath.
      * destruct (Hwf k id0 Hin) as [Hl Hp]. split; [lia|].
        rewrite getNode_app by exact Hl. exact Hp.
Qed.

(** The first loop of the refresh leaves a tracker for every script of the
    project, and forgets none. *)
Lemma scan_tracks P :
  (forall p, path (getScriptInfo P p) = p) ->
  forall scripts b b',
    forOf scripts (fun scriptInfo =>
      bind (AbstractBuilder.getOrCreateFileInfo P (path scriptInfo))
           (fun fileInfo => ModuleBuilder.updateFileReferences P fileInfo)) b
    = Some (tt, b') ->
    grows b b'
    /\ forall si, In si scripts -> exists id, trackerOf b' (path si) = Some id.
Proof.
  intros Hpath. induction scripts as [|s scripts IH]; intros b b' H.
  - inversion H; subst. split; [apply grows_refl | intros si []].
  - simpl in H. unfold bind at 1 2 in H.
    destruct (AbstractBuilder.getOrCreateFileInfo P (path s) b)
      as [[id b1]|] eqn:Hg; [|discriminate].
    destruct (ModuleBuilder.updateFileReferences P id b1)
      as [[[] b2]|] eqn:Hu; [|discriminate].
    destruct (IH _ _ H) as [G3 Hrest].
    assert (G1 : grows b b1) by exact (grows_create P Hpath _ _ _ _ Hg).
    assert (G2 : grows b1 b2).
    { exact (respects_updateFileReferences grows grows_refl grows_trans
               grows_cell grows_event P (grows_create P Hpath) id _ _ _ Hu). }
    split; [exact (grows_trans _ _ _ G1 (grows_trans _ _ _ G2 G3))|].
    intros si [<-|Hin]; [|apply Hrest; exact Hin].
    exists id. apply (proj1 G3), (proj1 G2).
    apply (getOrCreateFileInfo_tracker _ _ _ _ _ Hg).
Qed.

Lemma removeFileReferences_returns this b :
  exists b',
    ModuleBuilderFileInfo.removeFileReferences this b = Some (tt, b')
    /\ keepsTrackers b b'
    /\ fileInfos_doNotAccessDirectly b' = fileInfos_doNotAccessDirectly b
    /\ events b' = events b
    /\ projectVersionForDependencyGraph b' = projectVersionForDependencyGraph b.
Proof.
  unfold ModuleBuilderFileInfo.removeFileReferences, bind, readNode, gets.
  destruct (unlink_loop this (references (getNode (heap b) this)) b)
    as (b1 & Hrun & Hm & Hv & He & Hlen & _ & Hid).
  rewrite Hrun. unfold updateNode, modify.
  eexists. split; [reflexivity|]. split.
  - apply (keepsTrackers_trans b b1).
    + split; [lia|]. intros x _. destruct (Hid x) as (H1 & H2 & _). auto.
    + apply keepsTrackers_cell. apply keepsIdentity_setReferences.
  - simpl. auto.
Qed.

Lemma module_deletes P b :
  keyedByPath b ->
  exists b',
    AbstractBuilder.forEachFileInfo (fun fileInfo =>
      bind (readNode fileInfo) (fun fi =>
        if negb (containsScriptInfo P (scriptInfo fi))
        then bind (ModuleBuilderFileInfo.removeFileReferences fileInfo)
               (fun _ => AbstractBuilder.removeFileInfo (path (scriptInfo fi)))
        else ret tt)) b = Some (tt, b')
    /\ (keepsTrackers (materialized b) b'
        /\ events b' = events (materialized b)
        /\ projectVersionForDependencyGraph b'
           = projectVersionForDependencyGraph (materialized b))
    /\ fileInfos_doNotAccessDirectly b'
       = Some (filter (entryInProject P (heap b)) (fileInfosOf b)).
Proof.
  apply (forEachFileInfo_deletes P
           (fun b b' => keepsTrackers b b' /\ events b' = events b
                        /\ projectVersionForDependencyGraph b'
                           = projectVersionForDependencyGraph b)).
  - intros; repeat split; auto.
  - intros b1 b2 b3 (A1 & A2 & A3) (B1 & B2 & B3).
    split; [eapply keepsTrackers_trans; eauto|]. split; congruence.
  - intros b1 b2 (A1 & _). exact A1.
  - intros id b0 m Hm. unfold bind at 1. unfold readNode, gets.
    destruct (containsScriptInfo P (scriptInfo (getNode (heap b0) id))); simpl.
    + exists b0. repeat split; auto.
    + unfold bind.
      destruct (removeFileReferences_returns id b0)
        as (b1 & Hrun & K & Hm1 & He1 & Hv1).
      rewrite Hrun.
      unfold AbstractBuilder.removeFileInfo, bind, modify.
      rewrite getFileInfos_spec.
      rewrite Hm in Hm1.
      destruct (created_map b1 m Hm1) as [-> ->].
      eexists; split; [reflexivity|]. simpl. repeat split; auto.
      * destruct K as [K _]. exact K.
      * destruct K as [_ K]. apply K. assumption.
      * destruct K as [_ K]. apply K. assumption.
Qed.

(** X12: a refresh of the dependency graph that does run leaves the cache
    holding the project's files and nothing else.  Take a project in which
    the script info found for a path carries that path, membership depends on
    the path only and the listed script infos are members, and a cache keyed
    by path.  After [ensureProjectDependencyGraphUpToDate], every script info
    of the project has a tracker, every tracker's script info belongs to the
    project, a tracker that was cached before and still belongs is the same
    file info as before, and the cache is still keyed by path. *)
Theorem refresh_cache_is_project P b b' :
  ModuleBuilder.ensureProjectDependencyGraphUpToDate P b = Some (tt, b') ->
  refreshDue P b = true ->
  keyedByPath b ->
  (forall p, path (getScriptInfo P p) = p) ->
  (forall s s', path s = path s' ->
                containsScriptInfo P s = containsScriptInfo P s') ->
  (forall si, In si (getScriptInfos P) -> containsScriptInfo P si = true) ->
  keyedByPath b'
  /\ (forall k id, trackerOf b' k = Some id ->
        containsScriptInfo P (scriptInfo (getNode (heap b') id)) = true)
  /\ (forall si, In si (getScriptInfos P) ->
        exists id, trackerOf b' (path si) = Some id)
  /\ (forall k id, trackerOf b k = Some id ->
        containsScriptInfo P (scriptInfo (getNode (heap b) id)) = true ->
        trackerOf b' k = Some id).
Proof.
  intros He Hdue Hk Hpath Hcont Hscripts.
  unfold ModuleBuilder.ensureProjectDependencyGraphUpToDate in He.
  unfold bind at 1 in He. unfold gets in He.
  unfold refreshDue in Hdue. rewrite Hdue in He.
  unfold bind at 1 in He.
  destruct (forOf (getScriptInfos P) _ b) as [[[] b1]|] eqn:Hscan;
    [|discriminate].
  assert (K1 : keepsTrackers b b1).
  { exact (respects_scan keepsTrackers keepsTrackers_refl keepsTrackers_trans
             keepsTrackers_cell keepsTrackers_event P (keepsTrackers_create P)
             _ _ _ _ Hscan). }
  destruct (scan_tracks P Hpath _ _ _ Hscan) as [[Htr Hkey] Htracked].
  assert (Hk1 := Hkey Hk).
  destruct (module_deletes P b1 Hk1) as (b2 & Hrun & (K2 & _ & _) & Hm2).
  unfold bind at 1 in He. rewrite Hrun in He.
  unfold modify in He. inversion He; subst b'. clear He.
  destruct Hk1 as [Hnd1 Hwf1].
  assert (Hcache : forall k id,
            trackerOf (withProjectVersion (Some (getProjectVersion P)) b2) k
            = Some id
            <-> trackerOf b1 k = Some id
                /\ containsScriptInfo P (scriptInfo (getNode (heap b1) id)) = true).
  { intros k id. unfold trackerOf.
    change (fileInfosOf (withProjectVersion _ b2)) with (fileInfosOf b2).
    unfold fileInfosOf at 1. rewrite Hm2.
    apply (JsMap_get_filter (entryInProject P (heap b1))). exact Hnd1. }
  assert (Hcell : forall k id, trackerOf b1 k = Some id ->
            id < List.length (heap b1)
            /\ path (scriptInfo (getNode (heap b1) id)) = k
            /\ scriptInfo (getNode (heap b2) id)
               = scriptInfo (getNode (heap b1) id)).
  { intros k id Ht. apply JsMap_get_In in Ht.
    destruct (Hwf1 k id Ht) as [Hl Hp]. destruct K2 as [_ K2].
    destruct (K2 id Hl) as [Hs _]. auto. }
  split; [|split; [|split]].
  - split.
    + change (fileInfosOf (withProjectVersion _ b2)) with (fileInfosOf b2).
      unfold fileInfosOf. rewrite Hm2.
      apply NoDup_map_fst_filter. exact Hnd1.
    + intros k id Hin.
      change (fileInfosOf (withProjectVersion _ b2)) with (fileInfosOf b2) in Hin.
      unfold fileInfosOf in Hin. rewrite Hm2 in Hin.
      apply filter_In in Hin. destruct Hin as [Hin _].
      destruct (Hcell k id (JsMap_In_get _ _ _ Hnd1 Hin)) as (Hl & Hp & Hs).
      change (heap (withProjectVersion _ b2)) with (heap b2).
      destruct K2 as [Hlen _]. simpl in Hlen.
      split; [lia | rewrite Hs; exact Hp].
  - intros k id Ht. apply Hcache in Ht. destruct Ht as [Ht Hc].
    destruct (Hcell k id Ht) as (_ & _ & Hs).
    change (heap (withProjectVersion _ b2)) with (heap b2).
    rewrite Hs. exact Hc.
  - intros si Hin. destruct (Htracked si Hin) as [id Ht].
    exists id. apply Hcache. split; [exact Ht|].
    destruct (Hcell _ id Ht) as (_ & Hp & _).
    rewrite (Hcont _ si Hp). apply Hscripts; exact Hin.
  - intros k id Ht Hc. apply Hcache. split; [apply Htr; exact Ht|].
    destruct Hk as [_ Hwf]. apply JsMap_get_In in Ht.
    destruct (Hwf k id Ht) as [Hl _]. destruct K1 as [_ K1].
    destruct (K1 id Hl) as [-> _]. exact Hc.
Qed.

Lemma refresh_cache_is_project_witness : keyedByPath chainAfterDelete.
Proof.
  apply (refresh_cache_is_project Scenario.chainWithoutB chainBuilt
           chainAfterDelete).
  - vm_compute; reflexivity.
  - vm_compute; reflexivity.
  - split.
    + vm_compute. repeat constructor; simpl; intuition discriminate.
    + intros k id Hin. vm_compute in Hin.
      destruct Hin as [H|[H|[H|[]]]]; inversion H; subst;
        split; vm_compute; try reflexivity; lia.
  - intros p. reflexivity.
  - intros s s' Hs. unfold Scenario.chainWithoutB, Scenario.project.
    cbn [containsScriptInfo]. rewrite Hs. reflexivity.
  - intros si Hin. vm_compute in Hin.
    destruct Hin as [<-|[<-|[]]]; vm_compute; reflexivity.
Defined.

(* ================================================================= *)
(** ** Only [emitFile] writes *)

Lemma probesOnly_refl b : probesOnly b b.
Proof. exists []. rewrite app_nil_r. auto. Qed.

Lemma probesOnly_trans b1 b2 b3 :
  probesOnly b1 b2 -> probesOnly b2 b3 -> probesOnly b1 b3.
Proof.
  intros (e1 & H1 & F1) (e2 & H2 & F2). exists (e1 ++ e2).
  rewrite H2, H1, app_assoc. split; [reflexivity | apply Forall_app; auto].
Qed.

Lemma probesOnly_quiet {A} (m : M A) b a b' :
  quiet m -> m b = Some (a, b') -> probesOnly b b'.
Proof.
  intros Hq H. destruct (Hq _ _ _ H) as (evs & He & Hf).
  exists evs. split; [exact He|].
  eapply Forall_impl; [|exact Hf]. intros [] Hr; simpl in *; tauto.
Qed.

Lemma probes_signatureEvents P fi : Forall isProbe (signatureEvents P fi).
Proof.
  unfold signatureEvents. destruct (sourceOf P fi) as [sf|]; [|constructor].
  destruct (isDeclarationFile sf); repeat constructor.
Qed.

Lemma probesOnly_afterUpdate P t b : probesOnly b (afterUpdate P t b).
Proof.
  exists (signatureEvents P (getNode (heap b) t)).
  split; [reflexivity | apply probes_signatureEvents].
Qed.

Lemma walk_probes P fuel : forall queue s b s' b',
  ModuleBuilder.walk P fuel queue s b = Some (s', b') -> probesOnly b b'.
Proof.
  induction fuel as [|fuel IH]; intros [|t rest] s b s' b' Hw.
  - inversion Hw; subst; apply probesOnly_refl.
  - discriminate.
  - inversion Hw; subst; apply probesOnly_refl.
  - rewrite walk_unfold in Hw.
    eapply probesOnly_trans; [apply (probesOnly_afterUpdate P t)|].
    apply (IH _ _ _ _ _ Hw).
Qed.

Lemma quiet_flat_onProjectUpdateGraph P :
  quiet (NonModuleBuilder.onProjectUpdateGraph P).
Proof.
  apply quiet_bind; [apply quiet_gets|]. intros has.
  destruct has; [|apply quiet_ret].
  apply quiet_forEachFileInfo. intros id.
  apply quiet_bind; [apply quiet_readNode|]. intros fi.
  destruct (negb _); [apply quiet_removeFileInfo | apply quiet_ret].
Qed.

Lemma quiet_module_onProjectUpdateGraph P :
  quiet (ModuleBuilder.onProjectUpdateGraph P).
Proof.
  apply quiet_bind; [apply quiet_gets|]. intros has.
  destruct has; [apply quiet_ensureProjectDependencyGraphUpToDate
                | apply quiet_ret].
Qed.

(** X13: scheduling never writes.  Whatever [getFilesAffectedBy] and
    [onProjectUpdateGraph] do, in either scheduler, the calls they make are
    reference queries and declarations-only emit requests: no file is written
    and no full output is requested; [onProjectUpdateGraph] does not even
    request declarations. *)
Theorem scheduling_never_writes fuel P si b :
  (forall r b',
     ModuleBuilder.getFilesAffectedBy fuel P si b = Some (r, b')
     \/ NonModuleBuilder.getFilesAffectedBy P si b = Some (r, b') ->
     probesOnly b b')
  /\ (forall b',
        ModuleBuilder.onProjectUpdateGraph P b = Some (tt, b')
        \/ NonModuleBuilder.onProjectUpdateGraph P b = Some (tt, b') ->
        exists evs, events b' = events b ++ evs /\ Forall isReferenceQuery evs).
Proof.
  split.
  - intros r b' [H|H].
    + destruct (ModuleBuilder.ensureProjectDependencyGraphUpToDate P b)
        as [[[] b1]|] eqn:He.
      2:{ unfold ModuleBuilder.getFilesAffectedBy, bind in H.
          rewrite He in H. discriminate. }
      rewrite (getFilesAffectedBy_after_refresh fuel P si b b1 He) in H.
      apply (probesOnly_trans b b1).
      { exact (probesOnly_quiet _ _ _ _
                 (quiet_ensureProjectDependencyGraphUpToDate P) He). }
      destruct (trackerOf b1 (path si)) as [id|].
      2:{ inversion H; subst. exists []. rewrite app_nil_r. auto. }
      destruct (negb (shapeChanged P (getNode (heap b1) id))).
      { inversion H; subst. apply probesOnly_afterUpdate. }
      destruct (sourceOf P (getNode (heap b1) id)) as [sf|]; [|discriminate].
      destruct (negb (isExternalModule sf
                      || BuilderFileInfo.containsOnlyAmbientModules sf)).
      { inversion H; subst. apply probesOnly_afterUpdate. }
      destruct (ModuleBuilder.shortCircuits (getCompilerOptions P)).
      { inversion H; subst. apply probesOnly_afterUpdate. }
      destruct (ModuleBuilder.walk P fuel _ _ _) as [[s' b2]|] eqn:Hw;
        [|discriminate].
      inversion H; subst.
      eapply probesOnly_trans; [apply (probesOnly_afterUpdate P id)|].
      apply (walk_probes _ _ _ _ _ _ _ Hw).
    + unfold NonModuleBuilder.getFilesAffectedBy, bind in H.
      destruct (AbstractBuilder.getOrCreateFileInfo P (path si) b)
        as [[id b1]|] eqn:Hg; [|discriminate].
      apply (probesOnly_trans b b1).
      { exact (probesOnly_quiet _ _ _ _ (quiet_getOrCreateFileInfo P _) Hg). }
      rewrite updateShapeSignature_spec in H.
      assert (Hb : probesOnly b1
                (withEvents (events b1 ++ signatureEvents P (getNode (heap b1) id))
                   (withHeap (setNode (heap b1) id
                                (refreshed P (getNode (heap b1) id))) b1))).
      { exact (probesOnly_afterUpdate P id b1). }
      destruct (shapeChanged P (getNode (heap b1) id)).
      * destruct (getCompilerOptions P) as [o|].
        -- destruct (truthy (out o) || truthy (outFile o));
             inversion H; subst; exact Hb.
        -- inversion H; subst; exact Hb.
      * inversion H; subst; exact Hb.
  - intros b' [H|H].
    + apply (quiet_module_onProjectUpdateGraph P _ _ _ H).
    + apply (quiet_flat_onProjectUpdateGraph P _ _ _ H).
Qed.

Lemma scheduling_never_writes_witness :
  probesOnly chainBuilt
    (stateAfter (ModuleBuilder.getFilesAffectedBy 10 (Scenario.chainWithBEdited "1")
                   (Scenario.script "b.ts")) chainBuilt).
Proof.
  apply (proj1 (scheduling_never_writes 10 (Scenario.chainWithBEdited "1")
                  (Scenario.script "b.ts") chainBuilt) ["b.ts"; "a.ts"]%string).
  left. vm_compute; reflexivity.
Defined.

(* ================================================================= *)
(** ** The flat scheduler keeps no graph *)

Lemma keepsEdges_refl b : keepsEdges b b.
Proof.
  split; [reflexivity|]. split; [lia|]. intros x. split; [auto|].
  intros Hx. rewrite getNode_out_of_range by exact Hx. repeat split.
Qed.

Lemma keepsEdges_trans b1 b2 b3 :
  keepsEdges b1 b2 -> keepsEdges b2 b3 -> keepsEdges b1 b3.
Proof.
  intros (V1 & L1 & H1) (V2 & L2 & H2).
  split; [congruence|]. split; [lia|]. intros x.
  destruct (H1 x) as [S1 N1]. destruct (H2 x) as [S2 N2]. split.
  - intros Hx. destruct (S1 Hx) as (A1 & B1 & C1).
    destruct S2 as (A2 & B2 & C2); [lia|]. repeat split; congruence.
  - intros Hx. destruct (Nat.lt_ge_cases x (List.length (heap b2))) as [Hlt|Hge].
    + destruct (S2 Hlt) as (A2 & B2 & C2). destruct (N1 Hx) as (A1 & B1 & C1).
      repeat split; congruence.
    + apply N2; exact Hge.
Qed.

Lemma keepsEdges_same_heap b b' :
  heap b' = heap b ->
  projectVersionForDependencyGraph b' = projectVersionForDependencyGraph b ->
  keepsEdges b b'.
Proof.
  intros Hh Hv. split; [exact Hv|]. rewrite Hh. split; [lia|].
  intros x. split; [auto|].
  intros Hx. rewrite getNode_out_of_range by exact Hx. repeat split.
Qed.

Lemma keepsEdges_create P p :
  respects keepsEdges (AbstractBuilder.getOrCreateFileInfo P p).
Proof.
  intros b id b' H. rewrite getOrCreateFileInfo_spec in H.
  destruct (trackerOf b p); inversion H; subst.
  - apply keepsEdges_same_heap; reflexivity.
  - split; [reflexivity|]. simpl. rewrite length_app. simpl. split; [lia|].
    intros x. split.
    + intros Hx. rewrite getNode_app by exact Hx. auto.
    + intros Hx. destruct (Nat.eq_dec x (List.length (heap b))) as [->|Hne].
      * rewrite getNode_app_new. repeat split.
      * rewrite getNode_out_of_range;
          [repeat split | rewrite length_app; simpl; lia].
Qed.

Lemma keepsEdges_remove p :
  respects keepsEdges (AbstractBuilder.removeFileInfo p).
Proof.
  intros b x b' H. unfold AbstractBuilder.removeFileInfo, bind, modify in H.
  rewrite getFileInfos_spec in H. inversion H; subst.
  apply keepsEdges_same_heap; reflexivity.
Qed.

Lemma keepsEdges_afterUpdate P id b :
  keepsEdges b
    (withEvents (events b ++ signatureEvents P (getNode (heap b) id))
       (withHeap (setNode (heap b) id (refreshed P (getNode (heap b) id))) b)).
Proof.
  split; [reflexivity|]. simpl. rewrite setNode_length. split; [lia|].
  intros x. split.
  - intros Hx. destruct (Nat.eq_dec id x) as [->|Hne].
    + rewrite getNode_setNode_same by exact Hx. repeat split.
    + rewrite getNode_setNode_other by exact Hne. auto.
  - intros Hx. rewrite getNode_out_of_range;
      [repeat split | rewrite setNode_length; exact Hx].
Qed.

(** X14: the scheduler [createBuilder] returns for [ModuleKind.None] keeps no
    graph: none of its four operations changes the references, the reverse
    references or the reference version of a file info, or the project version
    stamp, and the file infos it creates have no edges.  ([createBuilder]
    itself reads a property of the compiler options, so they must be there.) *)
Theorem flat_scheduler_keeps_no_graph P options :
  getCompilerOptions P = Some options ->
  module options = Some ModuleKind.None ->
  exists ops,
    createBuilder P = Some ops
    /\ forall fuel P' si b,
         (forall r b', getFilesAffectedBy ops fuel P' si b = Some (r, b') ->
                       keepsEdges b b')
         /\ (forall b', onProjectUpdateGraph ops P' b = Some (tt, b') ->
                        keepsEdges b b')
         /\ (forall r b', emitFile ops P' si b = Some (r, b') ->
                          keepsEdges b b')
         /\ (forall b', clear ops b = Some (tt, b') -> keepsEdges b b').
Proof.
  intros Ho Hm. exists nonModuleBuilder. split.
  { unfold createBuilder. rewrite Ho, Hm. reflexivity. }
  intros fuel P' si b.
  assert (Hmat : forall b0, keepsEdges b0 (materialized b0)).
  { intros b0. apply keepsEdges_same_heap; reflexivity. }
  assert (Hev : forall b0 e,
            keepsEdges b0
              (mkBuilder (heap b0) (fileInfos_doNotAccessDirectly b0)
                 (projectVersionForDependencyGraph b0) (events b0 ++ [e]))).
  { intros b0 e. apply keepsEdges_same_heap; reflexivity. }
  split; [|split; [|split]]; cbn [getFilesAffectedBy onProjectUpdateGraph
                                    emitFile clear nonModuleBuilder].
  - intros r b' H. unfold NonModuleBuilder.getFilesAffectedBy, bind in H.
    destruct (AbstractBuilder.getOrCreateFileInfo P' (path si) b)
      as [[id b1]|] eqn:Hg; [|discriminate].
    apply (keepsEdges_trans b b1); [exact (keepsEdges_create P' _ _ _ _ Hg)|].
    rewrite updateShapeSignature_spec in H.
    assert (Hb := keepsEdges_afterUpdate P' id b1).
    destruct (shapeChanged P' (getNode (heap b1) id)).
    + destruct (getCompilerOptions P') as [o|].
      * destruct (truthy (out o) || truthy (outFile o));
          inversion H; subst; exact Hb.
      * inversion H; subst; exact Hb.
    + inversion H; subst; exact Hb.
  - intros b' H.
    exact (respects_flat_onProjectUpdateGraph keepsEdges keepsEdges_refl
             keepsEdges_trans Hmat P' keepsEdges_remove _ _ _ H).
  - intros r b' H.
    exact (respects_emitFile keepsEdges keepsEdges_refl keepsEdges_trans
             Hev Hmat P' NonModuleBuilder.ensureFileInfoIfInProject si
             (respects_flat_ensureFileInfoIfInProject keepsEdges keepsEdges_refl
                keepsEdges_trans P' (keepsEdges_create P') si)
             _ _ _ H).
  - intros b' H. inversion H; subst.
    apply keepsEdges_same_heap; reflexivity.
Qed.

Lemma flat_scheduler_keeps_no_graph_witness :
  exists ops, createBuilder Scenario.isolatedProject = Some ops.
Proof.
  destruct (flat_scheduler_keeps_no_graph Scenario.isolatedProject
              (mkCompilerOptions true None None (Some ModuleKind.None)))
    as (ops & Hc & _); [reflexivity | reflexivity |].
  exists ops. exact Hc.
Defined.

(* ================================================================= *)
(** ** Every edge leads to a cell *)

Lemma In_insertSorted {T} (compare : T -> T -> comparison) l a x :
  In x (insertSorted compare l a) -> x = a \/ In x l.
Proof.
  induction l as [|y l IH]; simpl.
  - intros [<-|[]]; auto.
  - destruct (compare a y); simpl; intros H.
    + auto.
    + destruct H as [<-|H]; auto.
    + destruct H as [<-|H]; auto. destruct (IH H); auto.
Qed.

Lemma In_removeSorted {T} (compare : T -> T -> comparison) l a x :
  In x (removeSorted compare l a) -> In x l.
Proof.
  induction l as [|y l IH]; simpl; [auto|].
  destruct (compare a y); simpl; intros H; auto.
  destruct H as [<-|H]; auto.
Qed.

Lemma In_toSortedArray {T} (l : list T) (compare : T -> T -> comparison) x :
  In x (toSortedArray l compare) -> In x l.
Proof.
  unfold toSortedArray.
  assert (H : forall acc, In x (fold_left (insertSorted compare) l acc) ->
                          In x l \/ In x acc).
  { induction l as [|y l IH]; simpl; intros acc Hin; [auto|].
    destruct (IH _ Hin) as [H|H]; [auto|].
    destruct (In_insertSorted _ _ _ _ H) as [<-|H']; auto. }
  intros Hin. destruct (H [] Hin) as [H'|[]]. exact H'.
Qed.

Lemma In_delete {V} (m : JsMap.t V) k k' v :
  In (k', v) (JsMap.delete m k) -> In (k', v) m.
Proof.
  induction m as [|[k0 v0] m IH]; simpl; [auto|].
  destruct (String.eqb k k0); simpl; intros H; auto.
  destruct H as [H|H]; auto.
Qed.

Lemma allocated_same b b' :
  heap b' = heap b -> (forall e, In e (fileInfosOf b') -> In e (fileInfosOf b)) ->
  allocatedGraph b -> allocatedGraph b'.
Proof.
  intros Hh Hm [He Hc]. split; rewrite Hh; [exact He|].
  intros k id Hin. apply (Hc k id). apply Hm. exact Hin.
Qed.

Lemma allocated_setNode b id fi' :
  allocatedGraph b ->
  (forall m, In m (references fi') \/ In m (referencedBy fi') ->
             m < List.length (heap b)) ->
  allocatedGraph (withHeap (setNode (heap b) id fi') b).
Proof.
  intros [He Hc] Hfi. split; simpl; rewrite setNode_length; [|exact Hc].
  intros n m Hin. destruct (Nat.eq_dec id n) as [->|Hne].
  - destruct (Nat.lt_ge_cases n (List.length (heap b))) as [Hlt|Hge].
    + rewrite getNode_setNode_same in Hin by exact Hlt. apply Hfi; exact Hin.
    + rewrite setNode_out_of_range in Hin by exact Hge. apply (He n); exact Hin.
  - rewrite getNode_setNode_other in Hin by exact Hne. apply (He n); exact Hin.
Qed.

Lemma stays_refl b : stays b b.
Proof. intros H. split; [exact H | lia]. Qed.

Lemma stays_trans b1 b2 b3 : stays b1 b2 -> stays b2 b3 -> stays b1 b3.
Proof.
  intros H1 H2 I1. destruct (H1 I1) as [I2 L2]. destruct (H2 I2) as [I3 L3].
  split; [exact I3 | lia].
Qed.

Lemma staysFor_refl id b : staysFor id b b.
Proof. intros H _. split; [exact H | lia]. Qed.

Lemma staysFor_trans id b1 b2 b3 :
  staysFor id b1 b2 -> staysFor id b2 b3 -> staysFor id b1 b3.
Proof.
  intros H1 H2 I1 Hid. destruct (H1 I1 Hid) as [I2 L2].
  destruct (H2 I2) as [I3 L3]; [lia|]. split; [exact I3 | lia].
Qed.

Lemma stays_same b b' :
  heap b' = heap b -> (forall e, In e (fileInfosOf b') -> In e (fileInfosOf b)) ->
  stays b b'.
Proof.
  intros Hh Hm I. split; [apply (allocated_same b b' Hh Hm I) | rewrite Hh; lia].
Qed.

Lemma stays_materialized b : stays b (materialized b).
Proof. apply stays_same; [reflexivity | auto]. Qed.

Lemma stays_event b e :
  stays b (mkBuilder (heap b) (fileInfos_doNotAccessDirectly b)
                     (projectVersionForDependencyGraph b) (events b ++ [e])).
Proof. apply stays_same; [reflexivity | auto]. Qed.

Lemma stays_remove p : respects stays (AbstractBuilder.removeFileInfo p).
Proof.
  intros b x b' H. unfold AbstractBuilder.removeFileInfo, bind, modify in H.
  rewrite getFileInfos_spec in H. inversion H; subst.
  apply stays_same; [reflexivity|].
  intros [k id] Hin. apply (In_delete _ _ _ _ Hin).
Qed.

Lemma allocated_create P p b id b' :
  AbstractBuilder.getOrCreateFileInfo P p b = Some (id, b') ->
  allocatedGraph b ->
  allocatedGraph b' /\ List.length (heap b) <= List.length (heap b')
  /\ id < List.length (heap b').
Proof.
  intros H I. rewrite getOrCreateFileInfo_spec in H.
  destruct (trackerOf b p) as [id0|] eqn:Ht; inversion H; subst.
  - destruct (stays_materialized b I) as [I' L]. split; [exact I'|].
    split; [exact L|]. destruct I as [_ Hc].
    apply (Hc p id). apply JsMap_get_In. exact Ht.
  - destruct I as [He Hc]. simpl. rewrite length_app. simpl.
    split; [|lia]. split; simpl; rewrite length_app; simpl.
    + intros n m Hin.
      destruct (Nat.lt_ge_cases n (List.length (heap b))) as [Hlt|Hge].
      * rewrite getNode_app in Hin by exact Hlt.
        assert (m < List.length (heap b)) by (apply (He n); exact Hin). lia.
      * destruct (Nat.eq_dec n (List.length (heap b))) as [->|Hne].
        -- rewrite getNode_app_new in Hin. simpl in Hin. tauto.
        -- rewrite getNode_out_of_range in Hin
             by (rewrite length_app; simpl; lia).
           simpl in Hin. tauto.
    + intros k id0 Hin.
      change (fileInfosOf (withFileInfos _ _))
        with (JsMap.set (fileInfosOf b) p (List.length (heap b))) in Hin.
      apply In_set in Hin. destruct Hin as [[-> ->]|Hin]; [lia|].
      assert (id0 < List.length (heap b)) by (apply (Hc k); exact Hin). lia.
Qed.

Lemma stays_create P p :
  respects stays (AbstractBuilder.getOrCreateFileInfo P p).
Proof.
  intros b id b' H I. destruct (allocated_create P p b id b' H I) as (A & B & _).
  auto.
Qed.

Lemma allocated_mapM P paths : forall b ids b',
  mapM (AbstractBuilder.getOrCreateFileInfo P) paths b = Some (ids, b') ->
  allocatedGraph b ->
  allocatedGraph b' /\ List.length (heap b) <= List.length (heap b')
  /\ forall x, In x ids -> x < List.length (heap b').
Proof.
  induction paths as [|p paths IH]; intros b ids b' H I.
  - inversion H; subst. split; [exact I|]. split; [lia | intros x []].
  - simpl in H. unfold bind at 1 in H.
    destruct (AbstractBuilder.getOrCreateFileInfo P p b) as [[id b1]|] eqn:Hg;
      [|discriminate].
    unfold bind at 1 in H.
    destruct (mapM _ paths b1) as [[ys b2]|] eqn:Hm; [|discriminate].
    inversion H; subst.
    destruct (allocated_create _ _ _ _ _ Hg I) as (I1 & L1 & Hid).
    destruct (IH _ _ _ Hm I1) as (I2 & L2 & Hys).
    split; [exact I2|]. split; [lia|].
    intros x [<-|Hx]; [lia | apply Hys; exact Hx].
Qed.

Lemma allocated_getReferencedFileInfos P id b r b' :
  ModuleBuilder.getReferencedFileInfos P id b = Some (r, b') ->
  allocatedGraph b ->
  allocatedGraph b' /\ List.length (heap b) <= List.length (heap b')
  /\ forall x, In x r -> x < List.length (heap b').
Proof.
  intros H I. unfold ModuleBuilder.getReferencedFileInfos in H.
  unfold bind at 1 in H.
  rewrite isExternalModuleOrHasOnlyAmbientExternalModules_spec in H.
  destruct (sourceOf P (getNode (heap b) id)) as [sf|]; [|discriminate].
  destruct (negb _).
  - inversion H; subst. split; [exact I|]. split; [lia | intros x []].
  - unfold bind at 1 in H. unfold readNode, gets in H.
    unfold bind at 1 in H.
    unfold project_getReferencedFiles, bind at 1, emitEvent, modify, ret in H.
    unfold bind at 1 in H.
    destruct (mapM _ _ _) as [[ids b1]|] eqn:Hm; [|discriminate].
    unfold bind, gets, ret in H. inversion H; subst.
    destruct (allocated_mapM _ _ _ _ _ Hm) as (I1 & L1 & Hids).
    { apply (stays_event b _ I). }
    split; [exact I1|]. split; [exact L1|].
    intros x Hx. apply Hids. apply (In_toSortedArray _ _ _ Hx).
Qed.

Lemma staysFor_addReferencedBy id x :
  respects (staysFor id) (ModuleBuilderFileInfo.addReferencedBy x id).
Proof.
  intros b u b' H I Hid.
  unfold ModuleBuilderFileInfo.addReferencedBy, bind, gets, updateNode, modify in H.
  inversion H; subst. simpl. rewrite setNode_length. split; [|lia].
  apply allocated_setNode; [exact I|]. simpl.
  intros m [Hin|Hin].
  - destruct I as [He _]. apply (He x). left; exact Hin.
  - destruct (In_insertSorted _ _ _ _ Hin) as [->|Hold]; [exact Hid|].
    destruct I as [He _]. apply (He x). right; exact Hold.
Qed.

Lemma stays_removeReferencedBy id x :
  respects stays (ModuleBuilderFileInfo.removeReferencedBy x id).
Proof.
  intros b u b' H I.
  unfold ModuleBuilderFileInfo.removeReferencedBy, bind, gets, updateNode,
    modify in H.
  inversion H; subst. simpl. rewrite setNode_length. split; [|lia].
  apply allocated_setNode; [exact I|]. simpl.
  intros m [Hin|Hin]; destruct I as [He _]; apply (He x).
  - left; exact Hin.
  - right. apply (In_removeSorted _ _ _ _ Hin).
Qed.

Lemma staysFor_stays {A} id (m : M A) :
  respects stays m -> respects (staysFor id) m.
Proof. intros Hm b a b' H I _. apply (Hm _ _ _ H I). Qed.

Lemma allocated_updateFileReferences P id b b' :
  ModuleBuilder.updateFileReferences P id b = Some (tt, b') ->
  allocatedGraph b -> id < List.length (heap b) ->
  allocatedGraph b' /\ List.length (heap b) <= List.length (heap b').
Proof.
  intros H I Hid. unfold ModuleBuilder.updateFileReferences in H.
  unfold bind at 1 in H. unfold readNode at 1, gets in H.
  destruct (strictEq _ _).
  { inversion H; subst. split; [exact I | lia]. }
  unfold bind at 1 in H.
  destruct (ModuleBuilder.getReferencedFileInfos P id b)
    as [[newRefs b1]|] eqn:Hr; [|discriminate].
  destruct (allocated_getReferencedFileInfos _ _ _ _ _ Hr I) as (I1 & L1 & Hnew).
  unfold bind at 1 in H. unfold readNode at 1, gets in H.
  unfold bind at 1 in H. unfold bind at 1 in H.
  destruct (enumerateInsertsAndDeletes newRefs _ _ _ _ b1)
    as [[[] b2]|] eqn:Hd; [|discriminate].
  assert (S2 : staysFor id b1 b2).
  { refine (respects_enumerateInsertsAndDeletes (staysFor id) (staysFor_refl id)
              (staysFor_trans id) _ _ _ _ _ _ _ _ _ _ Hd).
    - intros x. apply staysFor_addReferencedBy.
    - intros x. apply staysFor_stays. apply stays_removeReferencedBy. }
  destruct (S2 I1) as [I2 L2]; [lia|].
  unfold updateNode, modify in H. inversion H; subst. simpl.
  rewrite setNode_length. split; [|lia].
  apply allocated_setNode; [exact I2|]. simpl.
  intros m [Hin|Hin].
  - assert (m < List.length (heap b1)) by (apply Hnew; exact Hin). lia.
  - destruct I2 as [He _]. apply (He id). right; exact Hin.
Qed.

Lemma stays_scan P scripts :
  respects stays
    (forOf scripts (fun scriptInfo =>
       bind (AbstractBuilder.getOrCreateFileInfo P (path scriptInfo))
            (fun fileInfo => ModuleBuilder.updateFileReferences P fileInfo))).
Proof.
  apply (respects_forOf stays stays_refl stays_trans). intros si b u b' H I.
  unfold bind in H.
  destruct (AbstractBuilder.getOrCreateFileInfo P (path si) b)
    as [[id b1]|] eqn:Hg; [|discriminate].
  destruct (allocated_create _ _ _ _ _ Hg I) as (I1 & L1 & Hid).
  destruct u.
  destruct (allocated_updateFileReferences _ _ _ _ H I1 Hid) as [I2 L2].
  split; [exact I2 | lia].
Qed.

Lemma stays_removeFileReferences this :
  respects stays (ModuleBuilderFileInfo.removeFileReferences this).
Proof.
  intros b u b' H I.
  unfold ModuleBuilderFileInfo.removeFileReferences in H.
  unfold bind at 1 in H. unfold readNode, gets in H. unfold bind at 1 in H.
  destruct (forOf _ _ b) as [[[] b1]|] eqn:Hl; [|discriminate].
  assert (S1 : stays b b1).
  { refine (respects_forOf stays stays_refl stays_trans _ _ _ _ _ _ Hl).
    intros x. apply stays_removeReferencedBy. }
  destruct (S1 I) as [I1 L1].
  unfold updateNode, modify in H. inversion H; subst. simpl.
  rewrite setNode_length. split; [|lia].
  apply allocated_setNode; [exact I1|]. simpl.
  intros m [[]|Hin]. destruct I1 as [He _]. apply (He this). right; exact Hin.
Qed.

Lemma stays_ensureProjectDependencyGraphUpToDate P :
  respects stays (ModuleBuilder.ensureProjectDependencyGraphUpToDate P).
Proof.
  apply (respects_bind stays stays_trans);
    [apply (respects_gets stays stays_refl)|].
  intros seen. destruct (_ || _); [|apply (respects_ret stays stays_refl)].
  apply (respects_bind stays stays_trans); [apply stays_scan|]. intros _.
  apply (respects_bind stays stays_trans).
  { apply (respects_forEachFileInfo stays stays_refl stays_trans
             stays_materialized).
    intros id. apply (respects_bind stays stays_trans);
      [apply (respects_gets stays stays_refl)|].
    intros fi. destruct (negb _); [|apply (respects_ret stays stays_refl)].
    apply (respects_bind stays stays_trans);
      [apply stays_removeFileReferences | intros; apply stays_remove]. }
  intros _ b u b' H. inversion H; subst.
  apply stays_same; [reflexivity | auto].
Qed.

Lemma stays_afterUpdate P t b : stays b (afterUpdate P t b).
Proof.
  intros I. unfold afterUpdate, stepHeap. simpl. rewrite setNode_length.
  split; [|lia].
  apply (allocated_same (withHeap (setNode (heap b) t
                                     (refreshed P (getNode (heap b) t))) b));
    [reflexivity | auto |].
  apply allocated_setNode; [exact I|]. simpl.
  destruct I as [He _]. apply (He t).
Qed.

Lemma stays_walk P fuel : forall queue s b s' b',
  ModuleBuilder.walk P fuel queue s b = Some (s', b') -> stays b b'.
Proof.
  induction fuel as [|fuel IH]; intros [|t rest] s b s' b' Hw.
  - inversion Hw; subst; apply stays_refl.
  - discriminate.
  - inversion Hw; subst; apply stays_refl.
  - rewrite walk_unfold in Hw.
    eapply stays_trans; [apply (stays_afterUpdate P t)|].
    apply (IH _ _ _ _ _ Hw).
Qed.

(** X15: every edge of the dependency graph leads to a cell.  A new builder
    holds no address at all, and no operation of the dependency-graph
    scheduler (the refresh, [onProjectUpdateGraph], [getFilesAffectedBy],
    [emitFile], [clear]) makes a reference, a reverse reference or a cache
    entry point to an address that was never allocated; so on every state
    these operations reach from a new builder the store is closed, as the
    results on the propagation walk require. *)
Theorem graph_stays_allocated fuel P si b :
  allocatedGraph newBuilder
  /\ (allocatedGraph b -> closedStore (heap b))
  /\ (allocatedGraph b ->
      (forall b',
         ModuleBuilder.ensureProjectDependencyGraphUpToDate P b = Some (tt, b')
         \/ ModuleBuilder.onProjectUpdateGraph P b = Some (tt, b')
         \/ ModuleBuilder.clear b = Some (tt, b') ->
         allocatedGraph b')
      /\ (forall r b',
            ModuleBuilder.getFilesAffectedBy fuel P si b = Some (r, b') ->
            allocatedGraph b')
      /\ (forall r b',
            ModuleBuilder.emitFile P si b = Some (r, b') ->
            allocatedGraph b')).
Proof.
  split; [|split].
  - split.
    + intros n m. unfold newBuilder; simpl.
      destruct n; simpl; tauto.
    + intros k id [].
  - intros [He _] n m _ Hin. apply (He n). right; exact Hin.
  - intros I. split; [|split].
    + intros b' [H|[H|H]].
      * apply (stays_ensureProjectDependencyGraphUpToDate P _ _ _ H I).
      * unfold ModuleBuilder.onProjectUpdateGraph, bind,
          AbstractBuilder.hasFileInfos, gets in H.
        destruct (fileInfos_doNotAccessDirectly b).
        -- apply (stays_ensureProjectDependencyGraphUpToDate P _ _ _ H I).
        -- inversion H; subst; exact I.
      * inversion H; subst.
        apply (allocated_same b); [reflexivity | intros e [] | exact I].
    + intros r b' H.
      destruct (ModuleBuilder.ensureProjectDependencyGraphUpToDate P b)
        as [[[] b1]|] eqn:He.
      2:{ unfold ModuleBuilder.getFilesAffectedBy, bind in H.
          rewrite He in H. discriminate. }
      rewrite (getFilesAffectedBy_after_refresh fuel P si b b1 He) in H.
      destruct (stays_ensureProjectDependencyGraphUpToDate P _ _ _ He I)
        as [I1 _].
      destruct (trackerOf b1 (path si)) as [id|].
      2:{ inversion H; subst. apply (stays_materialized b1 I1). }
      destruct (negb (shapeChanged P (getNode (heap b1) id))).
      { inversion H; subst. apply (stays_afterUpdate P id b1 I1). }
      destruct (sourceOf P (getNode (heap b1) id)) as [sf|]; [|discriminate].
      destruct (negb (isExternalModule sf
                      || BuilderFileInfo.containsOnlyAmbientModules sf)).
      { inversion H; subst. apply (stays_afterUpdate P id b1 I1). }
      destruct (ModuleBuilder.shortCircuits (getCompilerOptions P)).
      { inversion H; subst. apply (stays_afterUpdate P id b1 I1). }
      destruct (ModuleBuilder.walk P fuel _ _ _) as [[s' b2]|] eqn:Hw;
        [|discriminate].
      inversion H; subst.
      apply (stays_walk _ _ _ _ _ _ _ Hw).
      apply (stays_afterUpdate P id b1 I1).
    + intros r b' H.
      apply (respects_emitFile stays stays_refl stays_trans stays_event
               stays_materialized P ModuleBuilder.ensureFileInfoIfInProject si
               (stays_ensureProjectDependencyGraphUpToDate P) _ _ _ H I).
Qed.

Lemma graph_stays_allocated_witness :
  allocatedGraph chainBuilt /\ closedStore (heap chainAfterDelete).
Proof.
  destruct (graph_stays_allocated 0 (Scenario.chainProject "declare c" "1")
              (Scenario.script "a.ts") newBuilder) as (Hnew & _ & Hstep).
  assert (Hbuilt : allocatedGraph chainBuilt).
  { apply (proj1 (Hstep Hnew)). left. vm_compute; reflexivity. }
  split; [exact Hbuilt|].
  destruct (graph_stays_allocated 0 Scenario.chainWithoutB
              (Scenario.script "a.ts") chainBuilt) as (_ & _ & Hstep').
  destruct (graph_stays_allocated 0 Scenario.chainWithoutB
              (Scenario.script "a.ts") chainAfterDelete) as (_ & Hclosed & _).
  apply Hclosed. apply (proj1 (Hstep' Hbuilt)).
  right; left. vm_compute; reflexivity.
Defined.

(* ================================================================= *)
(** ** A file that is not a module references nothing *)

Lemma enumerateInsertsAndDeletes_nothing_new {T} (old : list T)
    (inserted deleted : T -> M unit) (compare : T -> T -> comparison) :
  enumerateInsertsAndDeletes [] old inserted deleted compare
  = forOf old deleted.
Proof.
  induction old as [|o old IH]; [reflexivity|].
  change (enumerateInsertsAndDeletes [] (o :: old) inserted deleted compare)
    with (bind (deleted o)
            (fun _ => enumerateInsertsAndDeletes [] old inserted deleted compare)).
  rewrite IH. reflexivity.
Qed.

(** *** Taking a file out of sorted reverse references *)

Lemma compareFileInfos_names h h' :
  (forall y, nameOf h' y = nameOf h y) ->
  forall x y, ModuleBuilderFileInfo.compareFileInfos h' x y
              = ModuleBuilderFileInfo.compareFileInfos h x y.
Proof.
  intros Hn x y. unfold ModuleBuilderFileInfo.compareFileInfos.
  change (fileName (scriptInfo (getNode h' x))) with (nameOf h' x).
  change (fileName (scriptInfo (getNode h' y))) with (nameOf h' y).
  rewrite !Hn. reflexivity.
Qed.

Lemma sortedByName_names h h' l :
  (forall y, nameOf h' y = nameOf h y) ->
  sortedByName h l -> sortedByName h' l.
Proof.
  intros Hn. induction l as [|x l IH]; simpl; [auto|].
  intros [Hx Hl]. split; [|apply IH; exact Hl].
  intros y Hy. rewrite (compareFileInfos_names h h' Hn). apply Hx; exact Hy.
Qed.

Lemma removeSorted_names {T} (c c' : T -> T -> comparison) l a :
  (forall x y, c' x y = c x y) -> removeSorted c' l a = removeSorted c l a.
Proof.
  intros Hc. induction l as [|x l IH]; simpl; [reflexivity|].
  rewrite Hc, IH. reflexivity.
Qed.

Lemma compareFileInfos_same_name h x y :
  nameOf h x = nameOf h y -> ModuleBuilderFileInfo.compareFileInfos h x y = Eq.
Proof.
  intros Hn. unfold ModuleBuilderFileInfo.compareFileInfos, compareStrings.
  change (fileName (scriptInfo (getNode h x))) with (nameOf h x).
  change (fileName (scriptInfo (getNode h y))) with (nameOf h y).
  rewrite Hn.
  destruct (String.compare (nameOf h y) (nameOf h y)) eqn:E; [reflexivity| |];
    pose proof (String.compare_antisym (nameOf h y) (nameOf h y)) as Ha;
    rewrite E in Ha; discriminate.
Qed.

Lemma compareFileInfos_Eq h x y :
  ModuleBuilderFileInfo.compareFileInfos h x y = Eq -> nameOf h x = nameOf h y.
Proof. apply String.compare_eq_iff. Qed.

Lemma compareFileInfos_antisym h x y :
  ModuleBuilderFileInfo.compareFileInfos h x y
  = CompOpp (ModuleBuilderFileInfo.compareFileInfos h y x).
Proof. apply String.compare_antisym. Qed.

(** What [removeSorted] leaves of a sorted array holds no file info with the
    name of the one removed. *)
Lemma removeSorted_unnamed h l id :
  sortedByName h l ->
  forall y, In y (removeSorted (ModuleBuilderFileInfo.compareFileInfos h) l id) ->
            nameOf h y <> nameOf h id.
Proof.
  induction l as [|x l IH]; simpl; [intros _ y []|].
  intros [Hx Hl] y Hin Hname.
  destruct (ModuleBuilderFileInfo.compareFileInfos h id x) eqn:E.
  - (* the head is the one removed *)
    pose proof (Hx y Hin) as Hxy.
    apply compareFileInfos_Eq in E.
    rewrite (compareFileInfos_same_name h x y) in Hxy by congruence.
    discriminate.
  - (* the array starts after the name *)
    destruct Hin as [<-|Hin].
    + rewrite (compareFileInfos_same_name h id x) in E by congruence.
      discriminate.
    + pose proof (Hx y Hin) as Hxy.
      rewrite compareFileInfos_antisym in Hxy.
      assert (Hyx : ModuleBuilderFileInfo.compareFileInfos h y x = Lt).
      { unfold ModuleBuilderFileInfo.compareFileInfos in *.
        change (fileName (scriptInfo (getNode h y))) with (nameOf h y).
        change (fileName (scriptInfo (getNode h id))) with (nameOf h id) in E.
        rewrite Hname. exact E. }
      rewrite Hyx in Hxy. discriminate.
  - destruct Hin as [<-|Hin].
    + rewrite (compareFileInfos_same_name h id x) in E by congruence.
      discriminate.
    + apply (IH Hl y Hin Hname).
Qed.

Lemma removeSorted_sorted h l id :
  sortedByName h l ->
  sortedByName h (removeSorted (ModuleBuilderFileInfo.compareFileInfos h) l id).
Proof.
  induction l as [|x l IH]; simpl; [auto|].
  intros [Hx Hl].
  destruct (ModuleBuilderFileInfo.compareFileInfos h id x); simpl; auto.
  split; [|apply IH; exact Hl].
  intros y Hy. apply Hx. apply (In_removeSorted _ _ _ _ Hy).
Qed.

(** [removeSorted] takes out nothing that has another name. *)
Lemma removeSorted_keeps h l id y :
  In y l -> nameOf h y <> nameOf h id ->
  In y (removeSorted (ModuleBuilderFileInfo.compareFileInfos h) l id).
Proof.
  intros Hin Hname. induction l as [|x l IH]; simpl; [destruct Hin|].
  destruct (ModuleBuilderFileInfo.compareFileInfos h id x) eqn:E.
  - destruct Hin as [<-|Hin]; [|exact Hin].
    apply compareFileInfos_Eq in E. congruence.
  - exact Hin.
  - destruct Hin as [<-|Hin]; [left; reflexivity | right; apply IH; exact Hin].
Qed.

(** The reverse references after the unlinking loop of [id]. *)
Lemma unlink_loop_reverse id refs : forall b b',
  forOf refs (fun reference =>
    ModuleBuilderFileInfo.removeReferencedBy reference id) b = Some (tt, b') ->
  (forall y, nameOf (heap b') y = nameOf (heap b) y)
  /\ (forall y x, In x (referencedBy (getNode (heap b') y)) ->
                  In x (referencedBy (getNode (heap b) y)))
  /\ (forall y x, In x (referencedBy (getNode (heap b) y)) ->
                  nameOf (heap b) x <> nameOf (heap b) id ->
                  In x (referencedBy (getNode (heap b') y)))
  /\ (forall r, sortedByName (heap b) (referencedBy (getNode (heap b) r)) ->
                sortedByName (heap b) (referencedBy (getNode (heap b') r)))
  /\ (forall r, In r refs ->
        sortedByName (heap b) (referencedBy (getNode (heap b) r)) ->
        forall x, In x (referencedBy (getNode (heap b') r)) ->
                  nameOf (heap b) x <> nameOf (heap b) id).
Proof.
  induction refs as [|r0 refs IH]; intros b b' Hrun.
  - inversion Hrun; subst b'. repeat split; auto.
  - simpl forOf in Hrun. unfold bind in Hrun.
    rewrite removeReferencedBy_spec in Hrun.
    set (b1 := withHeap _ b) in Hrun.
    destruct (IH b1 b' Hrun) as (Hn & Hsub & Hkeep & Hsort & Hclean).
    assert (Hn1 : forall y, nameOf (heap b1) y = nameOf (heap b) y).
    { intros y. unfold b1, nameOf; simpl.
      destruct (Nat.eq_dec r0 y) as [->|Hne].
      - destruct (Nat.lt_ge_cases y (List.length (heap b))) as [Hlt|Hge].
        + rewrite getNode_setNode_same by exact Hlt. reflexivity.
        + rewrite setNode_out_of_range by exact Hge. reflexivity.
      - rewrite getNode_setNode_other by exact Hne. reflexivity. }
    assert (Hcell : forall y,
              referencedBy (getNode (heap b1) y)
              = if Nat.eqb y r0 && (r0 <? List.length (heap b))
                then removeSorted (ModuleBuilderFileInfo.compareFileInfos (heap b))
                       (referencedBy (getNode (heap b) r0)) id
                else referencedBy (getNode (heap b) y)).
    { intros y. unfold b1; simpl.
      destruct (Nat.eqb y r0) eqn:Ey; simpl.
      - apply Nat.eqb_eq in Ey. subst y.
        destruct (r0 <? List.length (heap b)) eqn:El.
        + apply Nat.ltb_lt in El. rewrite getNode_setNode_same by exact El.
          reflexivity.
        + apply Nat.ltb_ge in El. rewrite setNode_out_of_range by exact El.
          reflexivity.
      - apply Nat.eqb_neq in Ey. rewrite getNode_setNode_other by auto.
        reflexivity. }
    assert (Hsort1 : forall r,
              sortedByName (heap b) (referencedBy (getNode (heap b) r)) ->
              sortedByName (heap b1) (referencedBy (getNode (heap b1) r))).
    { intros r Hs. apply (sortedByName_names (heap b) (heap b1) _ Hn1).
      rewrite Hcell.
      destruct (Nat.eqb r r0 && (r0 <? List.length (heap b))) eqn:E;
        [|exact Hs].
      apply andb_true_iff in E. destruct E as [E _].
      apply Nat.eqb_eq in E. subst r. apply removeSorted_sorted; exact Hs. }
    split; [intros y; rewrite Hn, Hn1; reflexivity|].
    split.
    { intros y x Hin. apply Hsub in Hin. rewrite Hcell in Hin.
      destruct (Nat.eqb y r0 && (r0 <? List.length (heap b))) eqn:E;
        [|exact Hin].
      apply andb_true_iff in E. destruct E as [E _].
      apply Nat.eqb_eq in E. subst y. apply (In_removeSorted _ _ _ _ Hin). }
    split.
    { intros y x Hin Hname. apply Hkeep; [|rewrite !Hn1; exact Hname].
      rewrite Hcell.
      destruct (Nat.eqb y r0 && (r0 <? List.length (heap b))) eqn:E;
        [|exact Hin].
      apply andb_true_iff in E. destruct E as [E _].
      apply Nat.eqb_eq in E. subst y.
      apply removeSorted_keeps; assumption. }
    split.
    { intros r Hs.
      apply (sortedByName_names (heap b1) (heap b) _
               (fun y => eq_sym (Hn1 y))).
      apply Hsort. apply Hsort1; exact Hs. }
    intros r Hin Hs x Hx.
    destruct Hin as [<-|Hin].
    + (* [r0]: cleaned by this step, and nothing comes back *)
      apply Hsub in Hx. rewrite Hcell, Nat.eqb_refl in Hx. simpl in Hx.
      destruct (r0 <? List.length (heap b)) eqn:El.
      * apply (removeSorted_unnamed (heap b) _ id Hs x Hx).
      * apply Nat.ltb_ge in El.
        rewrite (getNode_out_of_range _ _ El) in Hx. destruct Hx.
    + rewrite <- !Hn1. apply (Hclean r Hin (Hsort1 r Hs) x Hx).
Qed.

(** X16: a file that is neither an external module nor made of ambient module
    declarations only gets no outgoing edges.  When its reference version is
    out of date, [updateFileReferences] returns without asking the project
    for the referenced files: it takes the file out of the reverse references
    of what it referenced before, leaves it with no references, and records
    the latest version; the cache and the log of calls are unchanged.  Taking
    out means: no reverse reference is added anywhere, none with another file
    name than the file's is removed, and the reverse references of a file it
    referenced, sorted by file name as the code keeps them, no longer hold the
    file (nor any file info of its name). *)
Theorem non_module_file_references_nothing P id b sf :
  sourceOf P (getNode (heap b) id) = Some sf ->
  isExternalModule sf || BuilderFileInfo.containsOnlyAmbientModules sf = false ->
  strictEq (scriptVersionForReferences (getNode (heap b) id))
           (Some (getLatestVersion P (scriptInfo (getNode (heap b) id)))) = false ->
  id < List.length (heap b) ->
  exists b',
    ModuleBuilder.updateFileReferences P id b = Some (tt, b')
    /\ ModuleBuilder.getReferencedFileInfos P id b = Some ([], b)
    /\ references (getNode (heap b') id) = []
    /\ scriptVersionForReferences (getNode (heap b') id)
       = Some (getLatestVersion P (scriptInfo (getNode (heap b) id)))
    /\ events b' = events b
    /\ fileInfos_doNotAccessDirectly b' = fileInfos_doNotAccessDirectly b
    /\ List.length (heap b') = List.length (heap b)
    /\ (forall y, y <> id -> ~ In y (references (getNode (heap b) id)) ->
          getNode (heap b') y = getNode (heap b) y)
    /\ (forall y x, In x (referencedBy (getNode (heap b') y)) ->
                    In x (referencedBy (getNode (heap b) y)))
    /\ (forall y x, In x (referencedBy (getNode (heap b) y)) ->
                    nameOf (heap b) x <> nameOf (heap b) id ->
                    In x (referencedBy (getNode (heap b') y)))
    /\ (forall r, In r (references (getNode (heap b) id)) ->
          sortedByName (heap b) (referencedBy (getNode (heap b) r)) ->
          ~ In id (referencedBy (getNode (heap b') r))
          /\ forall x, In x (referencedBy (getNode (heap b') r)) ->
                       nameOf (heap b) x <> nameOf (heap b) id).
Proof.
  intros Hs Hm Hstale Hid.
  assert (Hrefs : ModuleBuilder.getReferencedFileInfos P id b = Some ([], b)).
  { unfold ModuleBuilder.getReferencedFileInfos, bind.
    rewrite isExternalModuleOrHasOnlyAmbientExternalModules_spec, Hs, Hm.
    reflexivity. }
  destruct (unlink_loop id (references (getNode (heap b) id)) b)
    as (b1 & Hrun & Hmap & Hv & He & Hlen & Hout & Hcell).
  destruct (unlink_loop_reverse id _ b b1 Hrun)
    as (_ & Hsub & Hkeep & _ & Hclean).
  exists (withHeap
            (setNode (heap b1) id
               (mkFileInfo (scriptInfo (getNode (heap b1) id))
                  (lastCheckedShapeSignature (getNode (heap b1) id)) []
                  (referencedBy (getNode (heap b1) id))
                  (Some (getLatestVersion P (scriptInfo (getNode (heap b1) id))))))
            b1).
  assert (Hrev : forall y,
            referencedBy
              (getNode
                 (setNode (heap b1) id
                    (mkFileInfo (scriptInfo (getNode (heap b1) id))
                       (lastCheckedShapeSignature (getNode (heap b1) id)) []
                       (referencedBy (getNode (heap b1) id))
                       (Some (getLatestVersion P
                                (scriptInfo (getNode (heap b1) id)))))) y)
            = referencedBy (getNode (heap b1) y)).
  { intros y. destruct (Nat.eq_dec id y) as [<-|Hne].
    - rewrite getNode_setNode_same by (rewrite Hlen; exact Hid). reflexivity.
    - rewrite getNode_setNode_other by exact Hne. reflexivity. }
  split.
  { unfold ModuleBuilder.updateFileReferences.
    unfold bind at 1. unfold readNode at 1, gets. rewrite Hstale.
    unfold bind at 1. rewrite Hrefs.
    unfold bind at 1. unfold readNode at 1, gets.
    unfold bind at 1. unfold bind at 1.
    rewrite enumerateInsertsAndDeletes_nothing_new, Hrun.
    reflexivity. }
  split; [exact Hrefs|].
  destruct (Hcell id) as (Hsi & _).
  cbn [heap withHeap].
  split; [rewrite getNode_setNode_same by (rewrite Hlen; exact Hid); reflexivity|].
  split.
  { rewrite getNode_setNode_same by (rewrite Hlen; exact Hid). simpl.
    rewrite Hsi. reflexivity. }
  split; [exact He|]. split; [exact Hmap|].
  split; [rewrite setNode_length; exact Hlen|].
  split.
  { intros y Hy Hnot. rewrite getNode_setNode_other by auto.
    apply Hout; exact Hnot. }
  split; [intros y x Hin; rewrite Hrev in Hin; apply Hsub; exact Hin|].
  split; [intros y x Hin Hname; rewrite Hrev; apply Hkeep; assumption|].
  intros r Hr Hsorted.
  assert (Hnone : forall x, In x (referencedBy (getNode (heap b1) r)) ->
                            nameOf (heap b) x <> nameOf (heap b) id).
  { apply Hclean; assumption. }
  split.
  - rewrite Hrev. intros Hin. apply (Hnone id Hin). reflexivity.
  - intros x Hin. rewrite Hrev in Hin. apply Hnone; exact Hin.
Qed.

Lemma non_module_file_references_nothing_witness :
  referencedBy (getNode (heap chainBuilt) 1) = [0]
  /\ exists b',
       ModuleBuilder.updateFileReferences Scenario.chainWithPlainA 0 chainBuilt
       = Some (tt, b')
       /\ ~ In 0 (referencedBy (getNode (heap b') 1)).
Proof.
  split; [vm_compute; reflexivity|].
  destruct (non_module_file_references_nothing Scenario.chainWithPlainA 0
              chainBuilt
              (mkSourceFile false [Scenario.variableStatement] false
                 "declare a"%string))
    as (b' & Hrun & _ & _ & _ & _ & _ & _ & _ & _ & _ & Hout).
  - vm_compute; reflexivity.
  - vm_compute; reflexivity.
  - vm_compute; reflexivity.
  - vm_compute; lia.
  - exists b'. split; [exact Hrun|].
    apply (Hout 1).
    + vm_compute. left; reflexivity.
    + assert (Hr : referencedBy (getNode (heap chainBuilt) 1) = [0])
        by (vm_compute; reflexivity).
      rewrite Hr. split; [intros y []|exact I].
Defined.
